(** * fdroidserver scanner: a shallow embedding of [fdroidserver/scanner.py]

    The development follows the layout of the Python module:

    - [Py]: the few string primitives of Python the scanner relies on
      ([str.startswith], [str.endswith], [in] on strings, [os.path]);
    - [Re]: a backtracking matcher for the fragment of [re] patterns that
      occur in the module, with [re.match], [re.search], [re.findall]
      and [re.sub];
    - [Signature]: [SignatureDataController] and its cache protocol;
    - [Archive]: [get_embedded_classes] and [scan_binary];
    - [Source]: [scan_source] with its nested problem handlers.

    Python text is modelled as [string] (code points below 256), dicts
    whose iteration order is irrelevant as [gmap], dicts that are iterated
    as association lists in insertion order, sets as [gset], and raised
    exceptions as the left summand of a sum type. *)

From Stdlib Require Import ZArith Ascii String List Bool Lia SpecFloat.
From stdpp Require Import base gmap strings list fin_maps sets.

Set Warnings "-register-all".

(** stdpp keeps [String.append] folded; the proofs about matching run it
    on the literal part of a subject. *)
#[local] Arguments String.append : simpl nomatch.
#[local] Arguments Ascii.eqb : simpl never.

(** ** Python string primitives *)

Module Py.

(** The double quote character and the one-character string made of it. *)
Definition dquote : ascii := "034"%char.
Definition dq : string := String dquote "".

Definition newline : ascii := "010"%char.
Definition nl : string := String newline "".

(** [s.startswith(p)] *)
Fixpoint startswith (s p : string) {struct p} : bool :=
  match p with
  | EmptyString => true
  | String c p' =>
      match s with
      | EmptyString => false
      | String d s' => Ascii.eqb c d && startswith s' p'
      end
  end.

(** [p in s] for strings: [p] occurs as a substring of [s]. *)
Fixpoint contains (s p : string) : bool :=
  startswith s p ||
  match s with
  | EmptyString => false
  | String _ s' => contains s' p
  end.

(** [s.endswith(p)] *)
Definition endswith (s p : string) : bool :=
  let n := String.length s in
  let m := String.length p in
  (m <=? n) && String.eqb (substring (n - m) m s) p.

(** [x in l] for a list of strings. *)
Definition in_list (x : string) (l : list string) : bool :=
  existsb (String.eqb x) l.

(** [''.join(l)] *)
Definition join (l : list string) : string :=
  fold_right String.append "" l.

(** [os.path.join(a, b)] on POSIX. *)
Definition os_path_join (a b : string) : string :=
  if startswith b "/" then b
  else if String.eqb a "" || endswith a "/" then a +:+ b
  else a +:+ "/" +:+ b.

(** The part of [s] after its last ["/"]: [os.path.basename]. *)
Fixpoint basename_from (s acc : string) : string :=
  match s with
  | EmptyString => acc
  | String c s' =>
      if Ascii.eqb c "/" then basename_from s' s' else basename_from s' acc
  end.
Definition basename (s : string) : string := basename_from s s.

(** The suffix of [s] that starts at its last ["."], or [""]. *)
Fixpoint last_dot_from (s : string) (acc : string) : string :=
  match s with
  | EmptyString => acc
  | String c s' =>
      if Ascii.eqb c "." then last_dot_from s' s else last_dot_from s' acc
  end.

Fixpoint drop_dots (s : string) : string :=
  match s with
  | String c s' => if Ascii.eqb c "." then drop_dots s' else s
  | EmptyString => s
  end.

(** [os.path.splitext(p)[1]]: the extension of the last path component,
    leading dots of that component not counting as an extension mark. *)
Definition splitext_ext (p : string) : string :=
  last_dot_from (drop_dots (basename p)) "".

End Py.

(** ** Regular expressions

    Python's [re] is a backtracking matcher: alternatives are tried left
    to right, a greedy quantifier tries the longest repetition first and a
    lazy one the shortest, and the first complete match wins.  [exec] is
    that search in continuation-passing style.  The patterns of the
    scanner hold at most one capturing group, so one register suffices;
    the bodies of their quantifiers never match the empty string. *)

Module Re.
Import Py.

Inductive regex : Type :=
| Eps                              (* the empty pattern *)
| Set_ (p : ascii -> bool)         (* one character of a class *)
| Seq (r1 r2 : regex)              (* r1 r2 *)
| Alt (r1 r2 : regex)              (* r1|r2 *)
| Star (greedy : bool) (r : regex) (* r* and r*? *)
| Group (r : regex)                (* (r) *)
| Eos.                             (* $ *)

Declare Scope regex_scope.
Delimit Scope regex_scope with re.
Bind Scope regex_scope with regex.
Infix "+>" := Seq (at level 60, right associativity) : regex_scope.
Infix "</>" := Alt (at level 65, right associativity) : regex_scope.

Definition Chr (c : ascii) : regex := Set_ (Ascii.eqb c).
Definition Any : regex := Set_ (fun _ => true).            (* . with DOTALL *)
Definition Dot : regex := Set_ (fun c => negb (Ascii.eqb c newline)).
Definition Opt (r : regex) : regex := Alt r Eps.           (* r? *)
Definition Plus (r : regex) : regex := Seq r (Star true r). (* r+ *)

Fixpoint Lit (s : string) : regex :=
  match s with
  | EmptyString => Eps
  | String c s' => Seq (Chr c) (Lit s')
  end.

(** [str.isspace] on the code points below 256: what [\s] matches. *)
Definition is_space (c : ascii) : bool :=
  let n := nat_of_ascii c in
  ((9 <=? n) && (n <=? 13)) || ((28 <=? n) && (n <=? 32))
  || (n =? 133) || (n =? 160).

(** The part of [s] in front of its suffix [s']. *)
Definition consumed (s s' : string) : string :=
  substring 0 (String.length s - String.length s') s.

Section Exec.
Context {A : Type}.

(** A continuation receives the rest of the subject and the register. *)
Definition cont := string -> option string -> option A.

Fixpoint star_loop (greedy : bool)
    (body : string -> option string -> cont -> option A) (k : cont)
    (n : nat) (s : string) (g : option string) {struct n} : option A :=
  match n with
  | O => k s g
  | S n' =>
      if greedy then
        match body s g (fun s' g' =>
                 if String.length s' <? String.length s
                 then star_loop greedy body k n' s' g' else None) with
        | Some x => Some x
        | None => k s g
        end
      else
        match k s g with
        | Some x => Some x
        | None =>
            body s g (fun s' g' =>
                 if String.length s' <? String.length s
                 then star_loop greedy body k n' s' g' else None)
        end
  end.

Fixpoint exec (r : regex) (s : string) (g : option string) (k : cont)
    {struct r} : option A :=
  match r with
  | Eps => k s g
  | Set_ p =>
      match s with
      | String c s' => if p c then k s' g else None
      | EmptyString => None
      end
  | Seq r1 r2 => exec r1 s g (fun s' g' => exec r2 s' g' k)
  | Alt r1 r2 =>
      match exec r1 s g k with
      | Some x => Some x
      | None => exec r2 s g k
      end
  | Star greedy r1 => star_loop greedy (exec r1) k (String.length s) s g
  | Group r1 => exec r1 s g (fun s' _ => k s' (Some (consumed s s')))
  | Eos =>
      match s with
      | EmptyString => k s g
      | String c EmptyString => if Ascii.eqb c newline then k s g else None
      | _ => None
      end
  end.
End Exec.

(** [r.match(s)]: the rest of the subject after the match and the group. *)
Definition match_ (r : regex) (s : string) : option (string * option string) :=
  exec r s None (fun s' g => Some (s', g)).

Definition matches (r : regex) (s : string) : bool :=
  match match_ r s with Some _ => true | None => false end.

(** [r.search(s)] as a truth value. *)
Fixpoint search (r : regex) (s : string) : bool :=
  matches r s ||
  match s with
  | EmptyString => false
  | String _ s' => search r s'
  end.

(** [r.findall(s)] for a pattern with one group: the group of every
    match, matches taken left to right without overlap.  [skip] counts the
    characters of the last match still to step over. *)
Fixpoint findall_from (r : regex) (s : string) (skip : nat) : list string :=
  match skip with
  | S n =>
      match s with
      | EmptyString => []
      | String _ s' => findall_from r s' n
      end
  | O =>
      match match_ r s with
      | Some (s', g) =>
          default "" g ::
            match s with
            | EmptyString => []
            | String _ s1 =>
                findall_from r s1 (String.length s - String.length s' - 1)
            end
      | None =>
          match s with
          | EmptyString => []
          | String _ s1 => findall_from r s1 0
          end
      end
  end.

Definition findall (r : regex) (s : string) : list string :=
  findall_from r s 0.

(** [re.sub(r, '', s)]: [s] without the matches of [r]. *)
Fixpoint sub_from (r : regex) (s : string) (skip : nat) : string :=
  match skip with
  | S n =>
      match s with
      | EmptyString => EmptyString
      | String _ s' => sub_from r s' n
      end
  | O =>
      match match_ r s with
      | Some (s', _) =>
          match s with
          | EmptyString => EmptyString
          | String c s1 =>
              match String.length s - String.length s' with
              | O => String c (sub_from r s1 0)
              | S n => sub_from r s1 n
              end
          end
      | None =>
          match s with
          | EmptyString => EmptyString
          | String c s1 => String c (sub_from r s1 0)
          end
      end
  end.

Definition sub_empty (r : regex) (s : string) : string := sub_from r s 0.

(** *** Facts about the matcher *)

Lemma append_assoc (a b c : string) : (a +:+ b) +:+ c = a +:+ (b +:+ c).
Proof. induction a as [|x a IH]; [done|]. cbn [String.append]. by f_equal. Qed.

Lemma append_nil_r (a : string) : a +:+ "" = a.
Proof. induction a as [|x a IH]; [done|]. cbn [String.append]. by f_equal. Qed.


Lemma substring_prefix (a b : string) :
  substring 0 (String.length a) (a +:+ b) = a.
Proof.
  induction a as [|x a IH]; [by destruct b|].
  cbn [String.append String.length substring]. by f_equal.
Qed.


(** Every character of [s] is in the class [p]. *)
Fixpoint all_chars (p : ascii -> bool) (s : string) : bool :=
  match s with
  | EmptyString => true
  | String c s' => p c && all_chars p s'
  end.

(** [s] does not go on with a character of the class [p]. *)
Definition stops (p : ascii -> bool) (s : string) : bool :=
  match s with
  | EmptyString => true
  | String c _ => negb (p c)
  end.

Section Rules.
Context {A : Type}.
Implicit Types (k : @cont A) (s : string) (g : option string) (res : option A).


Lemma run_Set p c s g k res :
  p c = true -> k s g = res -> exec (Set_ p) (String c s) g k = res.
Proof. intros Hp Hk. cbn. by rewrite Hp. Qed.





Lemma run_Lit l s g k : exec (Lit l) (l +:+ s) g k = k s g.
Proof.
  revert g k. induction l as [|c l IH]; intros g k; [done|].
  cbn. rewrite Ascii.eqb_refl. apply IH.
Qed.

(** A quantifier over a class, one character at a time. *)
Lemma star_greedy_unfold p s g k :
  exec (Star true (Set_ p)) s g k =
    match s with
    | String c s' =>
        if p c then
          match exec (Star true (Set_ p)) s' g k with
          | Some x => Some x
          | None => k s g
          end
        else k s g
    | EmptyString => k s g
    end.
Proof.
  destruct s as [|c s']; [done|].
  cbn [exec String.length star_loop].
  destruct (p c); [|done].
  by rewrite (proj2 (Nat.ltb_lt _ _) (Nat.lt_succ_diag_r _)).
Qed.

Lemma star_lazy_unfold p s g k :
  exec (Star false (Set_ p)) s g k =
    match k s g with
    | Some x => Some x
    | None =>
        match s with
        | String c s' =>
            if p c then exec (Star false (Set_ p)) s' g k else None
        | EmptyString => None
        end
    end.
Proof.
  destruct s as [|c s']; [cbn; by destruct (k "" g)|].
  cbn [exec String.length star_loop].
  destruct (k (String c s') g); [done|].
  destruct (p c); [|done].
  by rewrite (proj2 (Nat.ltb_lt _ _) (Nat.lt_succ_diag_r _)).
Qed.







Lemma exec_Lit_fail l s g k :
  startswith s l = false -> exec (Lit l) s g k = None.
Proof.
  revert s g k. induction l as [|c l IH]; intros s g k Hs; [done|].
  cbn [Lit]. unfold Chr. cbn [exec startswith] in *.
  destruct s as [|d s]; [done|].
  destruct (Ascii.eqb c d); [|done]. by apply IH.
Qed.

End Rules.









Lemma sub_no_match r c s :
  match_ r (String c s) = None ->
  sub_empty r (String c s) = String c (sub_empty r s).
Proof. intros Hm. unfold sub_empty. cbn [sub_from]. by rewrite Hm. Qed.

(** *** What a successful match says about the subject *)

Lemma all_chars_app (p : ascii -> bool) (a b : string) :
  all_chars p (a +:+ b) = all_chars p a && all_chars p b.
Proof.
  induction a as [|c a IH]; [done|].
  cbn [String.append all_chars]. by rewrite IH, andb_assoc.
Qed.

Lemma startswith_append (p s : string) : startswith (p +:+ s) p = true.
Proof.
  induction p as [|c p IH]; [done|].
  cbn [String.append startswith]. by rewrite Ascii.eqb_refl.
Qed.

Lemma startswith_split (s p : string) :
  startswith s p = true -> exists s', s = p +:+ s'.
Proof.
  revert s. induction p as [|c p IH]; intros s Hs; [by exists s|].
  destruct s as [|d s]; [done|]. cbn [startswith] in Hs.
  apply andb_true_iff in Hs as [Hc Hs]. apply Ascii.eqb_eq in Hc as ->.
  destruct (IH s Hs) as (s' & ->). by exists s'.
Qed.

Lemma startswith_trans (s p q : string) :
  startswith s p = true -> startswith p q = true -> startswith s q = true.
Proof.
  intros (s' & ->)%startswith_split (p' & ->)%startswith_split.
  rewrite append_assoc. apply startswith_append.
Qed.

Lemma contains_startswith (s p : string) :
  startswith s p = true -> contains s p = true.
Proof. intros Hs. destruct s; cbn [contains]; by rewrite Hs. Qed.

Lemma contains_append (a p b : string) : contains (a +:+ p +:+ b) p = true.
Proof.
  induction a as [|c a IH]; cbn [String.append contains].
  - apply contains_startswith, startswith_append.
  - rewrite IH. apply orb_true_r.
Qed.

Lemma search_suffix r (a s : string) :
  matches r s = true -> search r (a +:+ s) = true.
Proof.
  intros Hs. induction a as [|c a IH]; cbn [String.append search].
  - destruct s; cbn [search]; by rewrite Hs.
  - rewrite IH. apply orb_true_r.
Qed.

Lemma search_inv r (s : string) :
  search r s = true -> exists a b, s = a +:+ b /\ matches r b = true.
Proof.
  induction s as [|c s IH]; cbn [search].
  - rewrite orb_false_r. intros Hm. by exists "", "".
  - intros [Hm|Hs]%orb_true_iff; [by exists "", (String c s)|].
    destruct (IH Hs) as (a & b & -> & Hb). by exists (String c a), b.
Qed.

Section Inversion.
Context {A : Type}.
Implicit Types (k : @cont A) (s : string) (g : option string).

Lemma exec_Seq_eq r1 r2 s g k :
  exec (Seq r1 r2) s g k = exec r1 s g (fun s' g' => exec r2 s' g' k).
Proof. reflexivity. Qed.

Lemma exec_Group_eq r s g k :
  exec (Group r) s g k = exec r s g (fun s' _ => k s' (Some (consumed s s'))).
Proof. reflexivity. Qed.

Lemma exec_Lit_inv l s g k x :
  exec (Lit l) s g k = Some x -> exists s', s = l +:+ s' /\ k s' g = Some x.
Proof.
  revert s. induction l as [|c l IH]; intros s Hs; [by exists s|].
  cbn [Lit] in Hs. unfold Chr in Hs. cbn [exec] in Hs.
  destruct s as [|d s]; [done|].
  destruct (Ascii.eqb_spec c d) as [->|]; [|done].
  destruct (IH s Hs) as (s' & -> & Hk). by exists s'.
Qed.

Lemma exec_Star_eq greedy r s g k :
  exec (Star greedy r) s g k = star_loop greedy (exec r) k (String.length s) s g.
Proof. reflexivity. Qed.

Lemma star_loop_greedy_S body k n s g :
  star_loop true body k (S n) s g =
    match body s g (fun s' g' =>
             if String.length s' <? String.length s
             then star_loop true body k n s' g' else None) with
    | Some x => Some x
    | None => k s g
    end.
Proof. reflexivity. Qed.

Lemma exec_Set_inv p s g k x :
  exec (Set_ p) s g k = Some x ->
  exists c s', s = String c s' /\ p c = true /\ k s' g = Some x.
Proof.
  cbn [exec]. destruct s as [|c s]; [done|].
  destruct (p c) eqn:Hc; [|done]. intros Hk. by exists c, s.
Qed.

Lemma exec_Chr_eq c s g k : exec (Chr c) (String c s) g k = k s g.
Proof. unfold Chr. cbn [exec]. by rewrite Ascii.eqb_refl. Qed.

Lemma exec_Chr_inv c s g k x :
  exec (Chr c) s g k = Some x -> exists s', s = String c s' /\ k s' g = Some x.
Proof.
  unfold Chr. cbn [exec]. destruct s as [|d s]; [done|].
  destruct (Ascii.eqb_spec c d) as [->|]; [|done]. intros Hk. by exists s.
Qed.

Lemma exec_Eos_inv s g k x :
  exec Eos s g k = Some x -> (s = "" \/ s = nl) /\ k s g = Some x.
Proof.
  cbn [exec]. destruct s as [|c [|d s]]; [by split; [left|]| |done].
  destruct (Ascii.eqb_spec c newline) as [->|]; [by split; [right|]|done].
Qed.

Lemma exec_Alt_inv r1 r2 s g k x :
  exec (Alt r1 r2) s g k = Some x ->
  exec r1 s g k = Some x \/ exec r2 s g k = Some x.
Proof. cbn [exec]. destruct (exec r1 s g k); [by left | by right]. Qed.

(** A greedy quantifier over a class gives up characters of its run
    only: behind what it took, the rest of the pattern matched. *)
Lemma star_greedy_inv p s g k x :
  exec (Star true (Set_ p)) s g k = Some x ->
  exists a b, s = a +:+ b /\ all_chars p a = true /\ k b g = Some x.
Proof.
  induction s as [|c s IH]; rewrite star_greedy_unfold.
  - intros Hk. by exists "", "".
  - destruct (p c) eqn:Hc; [|intros Hk; by exists "", (String c s)].
    destruct (exec (Star true (Set_ p)) s g k) as [y|] eqn:Hs.
    + intros [= ->]. destruct (IH eq_refl) as (a & b & -> & Ha & Hk).
      exists (String c a), b. cbn [all_chars]. by rewrite Hc, Ha.
    + intros Hk. by exists "", (String c s).
Qed.

(** Wherever in a run of the class the rest of the pattern matches, the
    quantifier finds a match. *)
Lemma star_greedy_some p a b g k :
  all_chars p a = true ->
  is_Some (k b g) ->
  is_Some (exec (Star true (Set_ p)) (a +:+ b) g k).
Proof.
  intros Ha Hk. induction a as [|c a IH]; cbn [String.append].
  - rewrite star_greedy_unfold. destruct b as [|d b]; [done|].
    destruct (p d); [|done].
    by destruct (exec (Star true (Set_ p)) b g k).
  - cbn [all_chars] in Ha. apply andb_true_iff in Ha as [Hc Ha].
    rewrite star_greedy_unfold, Hc.
    destruct (IH Ha) as [y ->]. by eexists.
Qed.

Lemma star_greedy_total p s g k :
  (forall s' g', is_Some (k s' g')) ->
  is_Some (exec (Star true (Set_ p)) s g k).
Proof.
  intros Hk. induction s as [|c s IH]; rewrite star_greedy_unfold; [done|].
  destruct (p c); [|done]. by destruct IH as [y ->].
Qed.

End Inversion.

(** A literal followed by a run of one character, as [match] has it:
    the subject starts with the literal. *)
Lemma matches_Lit_run (l : string) (c : ascii) (s : string) :
  matches (Seq (Lit l) (Star true (Chr c))) s = startswith s l.
Proof.
  unfold matches, match_. set (r := Star true (Chr c)). cbn [exec].
  destruct (startswith s l) eqn:Hs.
  - apply startswith_split in Hs as (s' & ->). rewrite run_Lit. subst r. unfold Chr.
    by destruct (star_greedy_total (Ascii.eqb c) s' None
                   (fun s' g => Some (s', g))) as [y ->].
  - by rewrite exec_Lit_fail.
Qed.

End Re.

(** ** The signature repository: [SignatureDataController]

    A cache file is modelled by what [json.load] makes of it: the parsed
    value, or a decoding error.  [json.dump] followed by [json.load] is
    the identity on these values. *)

Module Signature.
Import Py.

(** The values [json.load] returns. *)
Inductive json : Type :=
| JNull
| JBool (b : bool)
| JInt (n : Z)
| JFloat (f : spec_float)
| JStr (s : string)
| JList (l : list json)
| JDict (d : gmap string json).

Definition SCANNER_CACHE_VERSION : Z := 1.

(** The exceptions of the cache protocol. *)
Inductive exn : Type :=
| SignatureCacheMalformedException
| SignatureCacheOutdatedException
| ConfigurationException (msg : string)
| JSONDecodeError
| AttributeError
| KeyError (key : string)
| TypeError
| FileNotFoundError (path : string)
| FileExistsError (path : string).

(** What a file holds, as [json.load] sees it. *)
Inductive content : Type :=
| JsonText (v : json)
| Garbage (raw : string).

(** The environment of a controller: the two configuration objects the
    code consults ([common.config] and the module's own [config]), the
    directory the module is installed in, and the files and directories
    on disk. *)
Record world : Type := World {
  common_config : option (gmap string string);
  config : option (gmap string string);
  module_dir : string;
  files : gmap string content;
  dirs : gset string;
}.

(** [SignatureDataController.__init__]; the interval is in days. *)
Record sdc : Type := Sdc {
  name : string;
  filename : string;
  cache_outdated_interval : Z;
  data : json;
}.

Definition init (name filename : string) : sdc :=
  Sdc name filename 7 (JDict ∅).

Definition ScannerSignatureDataController : sdc :=
  init "Scanner signatures" "scanner.json".

Definition ExodusSignatureDataController : sdc :=
  init "Exodus signatures" "exodus.yml".

(** Methods run on the world and the controller; a raised exception
    leaves both as they were at the raise. *)
Definition state : Type := world * sdc.
Definition M (A : Type) : Type := state -> (exn + A) * state.

#[local] Instance M_ret : MRet M := fun A x st => (inr x, st).
#[local] Instance M_bind : MBind M := fun A B f m st =>
  match m st with
  | (inl e, st') => (inl e, st')
  | (inr x, st') => f x st'
  end.

Definition raise {A} (e : exn) : M A := fun st => (inl e, st).
Definition get_world : M world := fun st => (inr st.1, st).
Definition get_self : M sdc := fun st => (inr st.2, st).
Definition put_world (w : world) : M unit := fun st => (inr tt, (w, st.2)).
Definition set_data (v : json) : M unit := fun st =>
  (inr tt, (st.1, Sdc (name st.2) (filename st.2)
                      (cache_outdated_interval st.2) v)).

(** [try: body except SignatureCacheMalformedException: handler] *)
Definition try_malformed {A} (body handler : M A) : M A := fun st =>
  match body st with
  | (inl SignatureCacheMalformedException, st') => handler st'
  | r => r
  end.

(** The exact value of a float, compared with an integer as Python's
    [==] does. *)
Definition float_eq_Z (f : spec_float) (n : Z) : bool :=
  match f with
  | S754_zero _ => (n =? 0)%Z
  | S754_finite sgn m e =>
      let v := if sgn then Z.neg m else Z.pos m in
      if (0 <=? e)%Z then (v * 2 ^ e =? n)%Z
      else ((v mod 2 ^ (- e) =? 0) && (v / 2 ^ (- e) =? n))%Z
  | _ => false
  end.

(** [v == n] for a parsed value [v] and an [int] [n]; [True == 1]. *)
Definition py_eq_int (v : json) (n : Z) : bool :=
  match v with
  | JInt m => (m =? n)%Z
  | JBool b => ((if b then 1 else 0) =? n)%Z
  | JFloat f => float_eq_Z f n
  | _ => false
  end.

(** [d.get(key)] on whatever [self.data] is. *)
Definition data_get (v : json) (key : string) : exn + option json :=
  match v with
  | JDict d => inr (d !! key)
  | _ => inl AttributeError
  end.

(** [_scanner_cachedir] *)
Definition _scanner_cachedir : M string :=
  w ← get_world;
  match common_config w with
  | Some c =>
      if decide (c = ∅) then
        raise (ConfigurationException "could not load 'cachedir_scanner' config")
      else match c !! "cachedir_scanner" with
      | None =>
          raise (ConfigurationException "could not load 'cachedir_scanner' config")
      | Some _ =>
          match config w with
          | None => raise TypeError
          | Some c' =>
              match c' !! "cachedir_scanner" with
              | None => raise (KeyError "cachedir_scanner")
              | Some cachedir =>
                  match files w !! cachedir with
                  | Some _ => raise (FileExistsError cachedir)
                  | None =>
                      put_world (World (common_config w) (config w)
                                   (module_dir w) (files w)
                                   ({[cachedir]} ∪ dirs w));;
                      mret cachedir
                  end
              end
          end
      end
  | None =>
      raise (ConfigurationException "could not load 'cachedir_scanner' config")
  end.

(** [with open(sig_file) as f: self.data = json.load(f)] *)
Definition read_json (sig_file : string) : M unit :=
  w ← get_world;
  match files w !! sig_file with
  | None => raise (FileNotFoundError sig_file)
  | Some (Garbage _) => raise JSONDecodeError
  | Some (JsonText v) => set_data v
  end.

Definition check_data_version : M unit :=
  self ← get_self;
  match data_get (data self) "version" with
  | inl e => raise e
  | inr v =>
      if match v with
         | Some x => negb (py_eq_int x SCANNER_CACHE_VERSION)
         | None => true
         end
      then raise SignatureCacheMalformedException
      else mret tt
  end.

Definition load_from_defaults : M unit :=
  w ← get_world;
  self ← get_self;
  read_json (os_path_join (os_path_join (os_path_join (module_dir w) "data")
                             "scanner") (filename self)).

Definition load_from_cache : M unit :=
  cachedir ← _scanner_cachedir;
  self ← get_self;
  w ← get_world;
  let sig_file := os_path_join cachedir (filename self) in
  match files w !! sig_file with
  | None => raise SignatureCacheMalformedException
  | Some _ => read_json sig_file
  end.

Definition write_to_cache : M unit :=
  cachedir ← _scanner_cachedir;
  self ← get_self;
  w ← get_world;
  let sig_file := os_path_join cachedir (filename self) in
  put_world (World (common_config w) (config w) (module_dir w)
               (<[sig_file := JsonText (data self)]> (files w)) (dirs w)).

Definition valid_keys : list string := ["timestamp"; "version"; "signatures"].

(** [for k in [x for x in self.data.keys() if x not in valid_keys]:
       del self.data[k]] *)
Definition verify_data : M unit :=
  self ← get_self;
  match data self with
  | JDict d =>
      let unknown :=
        List.filter (fun x => negb (in_list x valid_keys)) (map_to_list d).*1 in
      set_data (JDict (foldr delete d unknown))
  | _ => raise AttributeError
  end.

Definition load : M unit :=
  try_malformed
    (load_from_cache;; verify_data)
    (load_from_defaults;; write_to_cache).

(** The cache file of a controller, as a later [json.load] would read it. *)
Definition cache_file (w : world) (cachedir : string) (self : sdc)
    : option content :=
  files w !! os_path_join cachedir (filename self).

(** A schema-valid signature set: a dict with exactly the recognized
    top-level keys, the current version, a timestamp string and a
    signatures mapping. *)
Definition schema_valid (v : json) : Prop :=
  exists d ts sigs,
    v = JDict d /\
    (forall k, is_Some (d !! k) -> In k valid_keys) /\
    d !! "version" = Some (JInt SCANNER_CACHE_VERSION) /\
    d !! "timestamp" = Some (JStr ts) /\
    d !! "signatures" = Some (JDict sigs).

(** The world in which the cache directory is configured as [cachedir]. *)
Definition configured (w : world) (cachedir : string) : Prop :=
  (exists c, common_config w = Some c /\ is_Some (c !! "cachedir_scanner")) /\
  (exists c, config w = Some c /\ c !! "cachedir_scanner" = Some cachedir) /\
  files w !! cachedir = None.

(** *** Facts about the cache protocol *)

Lemma foldr_delete_lookup (l : list string) (m : gmap string json) (k : string) :
  foldr delete m l !! k = if decide (k ∈ l) then None else m !! k.
Proof.
  induction l as [|x l IH]; cbn [foldr].
  - destruct (decide (k ∈ [])) as [H|H]; [by apply elem_of_nil in H | done].
  - destruct (decide (x = k)) as [->|Hne].
    + rewrite lookup_delete_eq.
      destruct (decide (k ∈ k :: l)) as [H|H]; [done|].
      exfalso. apply H, elem_of_cons. by left.
    + rewrite lookup_delete_ne by done. rewrite IH.
      destruct (decide (k ∈ l)) as [H1|H1], (decide (k ∈ x :: l)) as [H2|H2];
        try done.
      * exfalso. apply H2, elem_of_cons. by right.
      * exfalso. apply elem_of_cons in H2 as [->|?]; done.
Qed.

Lemma in_list_In (x : string) (l : list string) : in_list x l = true <-> In x l.
Proof.
  unfold in_list. rewrite existsb_exists. split.
  - intros (y & Hy & Heq). apply String.eqb_eq in Heq. by subst.
  - intros H. exists x. split; [done | apply String.eqb_refl].
Qed.

(** The dict [verify_data] leaves: the recognized keys, unchanged. *)
Definition verified (d : gmap string json) : gmap string json :=
  foldr delete d
    (List.filter (fun x => negb (in_list x valid_keys)) (map_to_list d).*1).

Lemma verified_lookup (d : gmap string json) (k : string) :
  verified d !! k = if in_list k valid_keys then d !! k else None.
Proof.
  unfold verified. rewrite foldr_delete_lookup.
  destruct (in_list k valid_keys) eqn:Hk.
  - destruct (decide _) as [Hin|Hin]; [|done].
    apply list_elem_of_In, filter_In in Hin as [_ Hin].
    by rewrite Hk in Hin.
  - destruct (decide _) as [Hin|Hin]; [done|].
    destruct (d !! k) as [v|] eqn:Hd; [|done].
    exfalso. apply Hin, list_elem_of_In, filter_In. split; [|by rewrite Hk].
    apply list_elem_of_In, list_elem_of_fmap. exists (k, v). split; [done|].
    by apply elem_of_map_to_list.
Qed.

Lemma verified_id (d : gmap string json) :
  (forall k, is_Some (d !! k) -> In k valid_keys) -> verified d = d.
Proof.
  intros Hd. apply map_eq. intros k. rewrite verified_lookup.
  destruct (in_list k valid_keys) eqn:Hk; [done|].
  destruct (d !! k) eqn:Hdk; [|done].
  assert (In k valid_keys) as Hin by (apply Hd; eauto).
  apply in_list_In in Hin. congruence.
Qed.

Lemma cachedir_configured (w : world) (cachedir : string) (self : sdc) :
  configured w cachedir ->
  _scanner_cachedir (w, self) =
    (inr cachedir,
     (World (common_config w) (config w) (module_dir w) (files w)
        ({[cachedir]} ∪ dirs w), self)).
Proof.
  intros ((c & Hc & [x Hx]) & (c' & Hc' & Hcd) & Hfree).
  unfold _scanner_cachedir, mbind, M_bind, get_world, put_world, mret, M_ret.
  cbn. rewrite Hc, Hc'.
  destruct (decide (c = ∅)) as [->|_]; [by rewrite lookup_empty in Hx|].
  by rewrite Hx, Hcd, Hfree.
Qed.

Lemma write_to_cache_spec (w : world) (cachedir : string) (self : sdc) :
  configured w cachedir ->
  write_to_cache (w, self) =
    (inr tt,
     (World (common_config w) (config w) (module_dir w)
        (<[os_path_join cachedir (filename self) := JsonText (data self)]>
           (files w))
        ({[cachedir]} ∪ dirs w), self)).
Proof.
  intros Hcfg. unfold write_to_cache, mbind, M_bind.
  rewrite (cachedir_configured _ _ _ Hcfg). reflexivity.
Qed.

Lemma configured_after_write (w : world) (cachedir path : string) (c : content)
    (ds : gset string) :
  configured w cachedir ->
  path <> cachedir ->
  configured
    (World (common_config w) (config w) (module_dir w)
       (<[path := c]> (files w)) ds) cachedir.
Proof.
  intros (H1 & H2 & H3) Hne. repeat split; [done | done |].
  cbn. by rewrite lookup_insert_ne.
Qed.

Lemma load_from_cache_hit (w : world) (cachedir : string) (self : sdc) (v : json) :
  configured w cachedir ->
  files w !! os_path_join cachedir (filename self) = Some (JsonText v) ->
  load_from_cache (w, self) =
    (inr tt,
     (World (common_config w) (config w) (module_dir w) (files w)
        ({[cachedir]} ∪ dirs w),
      Sdc (name self) (filename self) (cache_outdated_interval self) v)).
Proof.
  intros Hcfg Hfile. unfold load_from_cache, mbind, M_bind.
  rewrite (cachedir_configured _ _ _ Hcfg). cbn.
  rewrite Hfile. unfold read_json, mbind, M_bind. cbn. by rewrite Hfile.
Qed.

Lemma verify_data_spec (w : world) (self : sdc) (d : gmap string json) :
  data self = JDict d ->
  verify_data (w, self) =
    (inr tt, (w, Sdc (name self) (filename self) (cache_outdated_interval self)
                   (JDict (verified d)))).
Proof.
  intros Hd. unfold verify_data, mbind, M_bind, get_self, set_data.
  cbn [fst snd]. rewrite Hd. reflexivity.
Qed.

(** [load] on a cache file that holds a dict: the file's recognized keys
    become the data, whatever they hold; nothing else is read or written. *)
Lemma load_cache_hit (w : world) (cachedir : string) (self : sdc)
    (d : gmap string json) :
  configured w cachedir ->
  files w !! os_path_join cachedir (filename self) = Some (JsonText (JDict d)) ->
  load (w, self) =
    (inr tt,
     (World (common_config w) (config w) (module_dir w) (files w)
        ({[cachedir]} ∪ dirs w),
      Sdc (name self) (filename self) (cache_outdated_interval self)
        (JDict (verified d)))).
Proof.
  intros Hcfg Hfile. unfold load, try_malformed, mbind, M_bind.
  rewrite (load_from_cache_hit _ _ _ _ Hcfg Hfile).
  by rewrite (verify_data_spec _ _ d).
Qed.

(** A world with the cache directory ["cache"], the bundled defaults of
    the scanner controller, and a cache file [cached]. *)
Definition bundled : json :=
  JDict {[ "version" := JInt 1; "timestamp" := JStr "2022-03-09T00:00:00";
           "signatures" := JDict ∅ ]}.

Definition world_with_cache (cached : json) : world :=
  World (Some {[ "cachedir_scanner" := "cache" ]})
        (Some {[ "cachedir_scanner" := "cache" ]})
        "fdroidserver"
        {[ "cache/scanner.json" := JsonText cached;
           "fdroidserver/data/scanner/scanner.json" := JsonText bundled ]}
        ∅.

(** A cache file that is valid in every field but its version. *)
Definition other_version : json :=
  JDict {[ "version" := JInt 2; "timestamp" := JStr "2022-03-09T00:00:00";
           "signatures" := JDict ∅ ]}.

Lemma other_version_configured :
  configured (world_with_cache other_version) "cache".
Proof.
  split; [|split].
  - eexists. split; [reflexivity|]. eexists. by vm_compute.
  - eexists. split; [reflexivity|]. by vm_compute.
  - by vm_compute.
Qed.

Lemma other_version_cached :
  files (world_with_cache other_version)
    !! os_path_join "cache" (filename ScannerSignatureDataController)
  = Some (JsonText (JDict {[ "version" := JInt 2;
                             "timestamp" := JStr "2022-03-09T00:00:00";
                             "signatures" := JDict ∅ ]})).
Proof. by vm_compute. Qed.

Lemma three_keys_valid (v t s : json) (k : string) :
  is_Some (({[ "version" := v; "timestamp" := t; "signatures" := s ]}
              : gmap string json) !! k) ->
  In k valid_keys.
Proof.
  intros [x Hk].
  destruct (decide (k = "version")) as [->|?]; [cbn; tauto|].
  rewrite lookup_insert_ne in Hk by done.
  destruct (decide (k = "timestamp")) as [->|?]; [cbn; tauto|].
  rewrite lookup_insert_ne in Hk by done.
  destruct (decide (k = "signatures")) as [->|?]; [cbn; tauto|].
  by rewrite lookup_singleton_ne in Hk.
Qed.

Lemma other_version_keys (k : string) :
  is_Some (({[ "version" := JInt 2; "timestamp" := JStr "2022-03-09T00:00:00";
               "signatures" := JDict ∅ ]} : gmap string json) !! k) ->
  In k valid_keys.
Proof. apply three_keys_valid. Qed.

(** C1 (the code departs from the specification): [load] on a cache file whose
    [version] is 2 while the engine's schema version is 1 returns
    normally, keeps the data of that file and leaves the files on disk as
    they were: no fallback to the bundled defaults, no rewrite of the
    cache.  [check_data_version], the method that raises
    [SignatureCacheMalformedException] on such data, is not called by
    [load]; run on the loaded data it does raise. *)
Theorem load_keeps_other_version :
  let r := load (world_with_cache other_version, ScannerSignatureDataController) in
  r.1 = inr tt /\
  data r.2.2 = other_version /\
  files r.2.1 = files (world_with_cache other_version) /\
  (check_data_version r.2).1 = inl SignatureCacheMalformedException.
Proof.
  cbv zeta.
  rewrite (load_cache_hit _ "cache" _ _ other_version_configured
             other_version_cached).
  rewrite (verified_id _ other_version_keys).
  repeat split; reflexivity.
Qed.

(** C3: writing a schema-valid signature set to the cache and loading it
    back with a controller of the same file name succeeds without
    touching the defaults, and the loaded data, its [signatures] mapping
    included, is the data written. *)
Theorem load_write_roundtrip (w : world) (cachedir : string) (writer reader : sdc) :
  configured w cachedir ->
  schema_valid (data writer) ->
  filename reader = filename writer ->
  os_path_join cachedir (filename writer) <> cachedir ->
  exists w1 w2 reader',
    write_to_cache (w, writer) = (inr tt, (w1, writer)) /\
    load (w1, reader) = (inr tt, (w2, reader')) /\
    data reader' = data writer /\
    data_get (data reader') "signatures" = data_get (data writer) "signatures" /\
    files w2 = files w1.
Proof.
  intros Hcfg (d & ts & sigs & Hd & Hkeys & _) Hname Hpath.
  rewrite (write_to_cache_spec _ _ _ Hcfg).
  eexists _, _, _. split; [reflexivity|].
  set (w1 := World _ _ _ _ _).
  assert (configured w1 cachedir) as Hcfg1
    by (by apply configured_after_write).
  assert (files w1 !! os_path_join cachedir (filename reader)
          = Some (JsonText (data writer))) as Hfile
    by (rewrite Hname; apply lookup_insert_eq).
  unfold load, try_malformed, mbind, M_bind.
  rewrite (load_from_cache_hit _ _ _ _ Hcfg1 Hfile).
  rewrite (verify_data_spec _ _ d) by (cbn; exact Hd).
  rewrite (verified_id d Hkeys). cbn. rewrite Hd.
  repeat split; reflexivity.
Qed.

Definition roundtrip_world : world :=
  World (Some {[ "cachedir_scanner" := "cache" ]})
        (Some {[ "cachedir_scanner" := "cache" ]})
        "fdroidserver" ∅ ∅.

Definition roundtrip_writer : sdc :=
  Sdc "Scanner signatures" "scanner.json" 7
    (JDict {[ "version" := JInt 1; "timestamp" := JStr "2022-03-09T00:00:00";
              "signatures" :=
                JDict {[ "admob" :=
                  JDict {[ "gradle_signatures" :=
                             JList [JStr "com.google.android.gms:play-services-ads"] ]} ]} ]}).

Lemma roundtrip_world_configured : configured roundtrip_world "cache".
Proof.
  split; [|split].
  - eexists. split; [reflexivity|]. eexists. by vm_compute.
  - eexists. split; [reflexivity|]. by vm_compute.
  - reflexivity.
Qed.

Lemma roundtrip_writer_valid : schema_valid (data roundtrip_writer).
Proof.
  eexists _, _, _. split; [reflexivity|]. split; [|by vm_compute].
  apply three_keys_valid.
Qed.

Lemma load_write_roundtrip_witness :
  exists w1 w2 reader',
    write_to_cache (roundtrip_world, roundtrip_writer)
      = (inr tt, (w1, roundtrip_writer)) /\
    load (w1, ScannerSignatureDataController) = (inr tt, (w2, reader')) /\
    data reader' = data roundtrip_writer /\
    data_get (data reader') "signatures"
      = data_get (data roundtrip_writer) "signatures" /\
    files w2 = files w1.
Proof.
  apply (load_write_roundtrip roundtrip_world "cache").
  - exact roundtrip_world_configured.
  - exact roundtrip_writer_valid.
  - reflexivity.
  - by vm_compute.
Defined.

(** A signature set with a top-level key the schema does not know. *)
Definition with_extra_key : sdc :=
  Sdc "Scanner signatures" "scanner.json" 7
    (JDict {[ "version" := JInt 1; "timestamp" := JStr "2022-03-09T00:00:00";
              "signatures" := JDict ∅; "cache_duration" := JInt 86400 ]}).

(** C5, as stated, fails: [write_to_cache] dumps [self.data] as it is, so
    the unknown key ["cache_duration"] is in the file it writes. *)
Lemma write_to_cache_keeps_unknown_key :
  exists d,
    cache_file (write_to_cache (roundtrip_world, with_extra_key)).2.1
      "cache" with_extra_key = Some (JsonText (JDict d)) /\
    d !! "cache_duration" = Some (JInt 86400) /\
    ~ In "cache_duration" valid_keys.
Proof.
  eexists. split; [by vm_compute|]. split; [by vm_compute|].
  cbn. intros [H|[H|[H|[]]]]; discriminate.
Qed.

(** C5, amended: the filter on the recognized keys is [verify_data].
    [write_to_cache] persists the controller's data unchanged; when the
    data has gone through [verify_data], the file written holds, of the
    top-level keys, exactly the recognized ones with their values. *)
Theorem verify_then_write_keeps_valid_keys (w : world) (cachedir : string)
    (self : sdc) (d : gmap string json) :
  configured w cachedir ->
  data self = JDict d ->
  (exists w', write_to_cache (w, self) = (inr tt, (w', self)) /\
              cache_file w' cachedir self = Some (JsonText (data self))) /\
  (exists w' self' d',
     (verify_data;; write_to_cache) (w, self) = (inr tt, (w', self')) /\
     cache_file w' cachedir self = Some (JsonText (JDict d')) /\
     forall k, d' !! k = if in_list k valid_keys then d !! k else None).
Proof.
  intros Hcfg Hd. split.
  - rewrite (write_to_cache_spec _ _ _ Hcfg). eexists. split; [reflexivity|].
    unfold cache_file. cbn. apply lookup_insert_eq.
  - unfold mbind, M_bind. rewrite (verify_data_spec _ _ d Hd).
    rewrite (write_to_cache_spec _ _ _ Hcfg). cbn.
    eexists _, _, _. split; [reflexivity|]. split.
    + unfold cache_file. cbn. apply lookup_insert_eq.
    + intros k. apply verified_lookup.
Qed.

Lemma verify_then_write_witness :
  (exists w', write_to_cache (roundtrip_world, with_extra_key)
                = (inr tt, (w', with_extra_key)) /\
              cache_file w' "cache" with_extra_key
                = Some (JsonText (data with_extra_key))) /\
  (exists w' self' d',
     (verify_data;; write_to_cache) (roundtrip_world, with_extra_key)
       = (inr tt, (w', self')) /\
     cache_file w' "cache" with_extra_key = Some (JsonText (JDict d')) /\
     forall k, d' !! k =
       if in_list k valid_keys
       then ({[ "version" := JInt 1; "timestamp" := JStr "2022-03-09T00:00:00";
                "signatures" := JDict ∅; "cache_duration" := JInt 86400 ]}
               : gmap string json) !! k
       else None).
Proof.
  apply (verify_then_write_keeps_valid_keys roundtrip_world "cache" with_extra_key).
  - exact roundtrip_world_configured.
  - reflexivity.
Defined.

(** *** [load], path by path *)

(** The bundled defaults of a controller:
    [Path(__file__).absolute().parent / 'data' / 'scanner' / self.filename] *)
Definition defaults_file (w : world) (self : sdc) : string :=
  os_path_join (os_path_join (os_path_join (module_dir w) "data") "scanner")
    (filename self).

(** The world once [_scanner_cachedir] has made sure of the directory. *)
Definition with_cachedir (w : world) (cachedir : string) : world :=
  World (common_config w) (config w) (module_dir w) (files w)
    ({[cachedir]} ∪ dirs w).

Definition with_data (self : sdc) (v : json) : sdc :=
  Sdc (name self) (filename self) (cache_outdated_interval self) v.

Lemma configured_with_cachedir (w : world) (cachedir : string) :
  configured w cachedir -> configured (with_cachedir w cachedir) cachedir.
Proof. by intros (H1 & H2 & H3). Qed.

Lemma with_cachedir_idemp (w : world) (cachedir : string) :
  with_cachedir (with_cachedir w cachedir) cachedir = with_cachedir w cachedir.
Proof.
  unfold with_cachedir. cbn. f_equal.
  by rewrite (assoc_L (∪)), union_idemp_L.
Qed.

Lemma verified_idemp (d : gmap string json) : verified (verified d) = verified d.
Proof.
  apply map_eq. intros k. rewrite !verified_lookup.
  by destruct (in_list k valid_keys).
Qed.

Lemma load_from_cache_miss (w : world) (cachedir : string) (self : sdc) :
  configured w cachedir ->
  files w !! os_path_join cachedir (filename self) = None ->
  load_from_cache (w, self) =
    (inl SignatureCacheMalformedException, (with_cachedir w cachedir, self)).
Proof.
  intros Hcfg Hfile. unfold load_from_cache, mbind, M_bind.
  rewrite (cachedir_configured _ _ _ Hcfg). cbn. by rewrite Hfile.
Qed.

Lemma load_from_cache_garbage (w : world) (cachedir : string) (self : sdc)
    (raw : string) :
  configured w cachedir ->
  files w !! os_path_join cachedir (filename self) = Some (Garbage raw) ->
  load_from_cache (w, self) =
    (inl JSONDecodeError, (with_cachedir w cachedir, self)).
Proof.
  intros Hcfg Hfile. unfold load_from_cache, mbind, M_bind.
  rewrite (cachedir_configured _ _ _ Hcfg). cbn.
  rewrite Hfile. unfold read_json, mbind, M_bind. cbn. by rewrite Hfile.
Qed.

Lemma verify_data_not_dict (w : world) (self : sdc) :
  (forall d, data self <> JDict d) ->
  verify_data (w, self) = (inl AttributeError, (w, self)).
Proof.
  intros Hd. unfold verify_data, mbind, M_bind, get_self. cbn [fst snd].
  destruct (data self) eqn:Hv; try reflexivity. by destruct (Hd d).
Qed.

Lemma read_json_ok (w : world) (self : sdc) (sig_file : string) (v : json) :
  files w !! sig_file = Some (JsonText v) ->
  read_json sig_file (w, self) = (inr tt, (w, with_data self v)).
Proof.
  intros Hfile. unfold read_json, mbind, M_bind, get_world. cbn [fst snd].
  by rewrite Hfile.
Qed.

Lemma load_from_defaults_ok (w : world) (self : sdc) (v : json) :
  files w !! defaults_file w self = Some (JsonText v) ->
  load_from_defaults (w, self) = (inr tt, (w, with_data self v)).
Proof.
  intros Hfile. unfold load_from_defaults, mbind, M_bind, get_world, get_self.
  cbn [fst snd]. by apply read_json_ok.
Qed.

Lemma load_from_defaults_fails (w : world) (self : sdc) (raw : string) :
  files w !! defaults_file w self = Some (Garbage raw) ->
  load_from_defaults (w, self) = (inl JSONDecodeError, (w, self)).
Proof.
  intros Hfile. unfold load_from_defaults, mbind, M_bind, get_world, get_self.
  cbn [fst snd]. unfold read_json, mbind, M_bind, get_world. cbn [fst snd].
  unfold defaults_file in Hfile. by rewrite Hfile.
Qed.

Lemma load_from_defaults_missing (w : world) (self : sdc) :
  files w !! defaults_file w self = None ->
  load_from_defaults (w, self) =
    (inl (FileNotFoundError (defaults_file w self)), (w, self)).
Proof.
  intros Hfile. unfold load_from_defaults, mbind, M_bind, get_world, get_self.
  cbn [fst snd]. unfold read_json, mbind, M_bind, get_world. cbn [fst snd].
  unfold defaults_file in *. by rewrite Hfile.
Qed.

(** [load] when the cache has no file for the controller. *)
Lemma load_cache_miss (w : world) (cachedir : string) (self : sdc) (v : json) :
  configured w cachedir ->
  files w !! os_path_join cachedir (filename self) = None ->
  files w !! defaults_file w self = Some (JsonText v) ->
  load (w, self) =
    (inr tt,
     (World (common_config w) (config w) (module_dir w)
        (<[os_path_join cachedir (filename self) := JsonText v]> (files w))
        ({[cachedir]} ∪ dirs w),
      with_data self v)).
Proof.
  intros Hcfg Hcache Hdef. unfold load, try_malformed, mbind, M_bind.
  rewrite (load_from_cache_miss _ _ _ Hcfg Hcache).
  rewrite (load_from_defaults_ok _ _ v) by done.
  rewrite (write_to_cache_spec (with_cachedir w cachedir) cachedir)
    by (by apply configured_with_cachedir).
  cbn. do 3 f_equal. by rewrite (assoc_L (∪)), union_idemp_L.
Qed.

(** X1: with no cache file for the controller, [load] takes the bundled
    defaults and writes them to the cache.  The defaults are not run
    through [verify_data]: the data and the cache file are the parsed
    defaults file as it is, unknown top-level keys included; no other
    file changes. *)
Theorem load_falls_back_to_defaults (w : world) (cachedir : string)
    (self : sdc) (v : json) :
  configured w cachedir ->
  files w !! os_path_join cachedir (filename self) = None ->
  files w !! defaults_file w self = Some (JsonText v) ->
  exists w',
    load (w, self) = (inr tt, (w', with_data self v)) /\
    cache_file w' cachedir self = Some (JsonText v) /\
    (forall path, path <> os_path_join cachedir (filename self) ->
                  files w' !! path = files w !! path).
Proof.
  intros Hcfg Hcache Hdef. eexists. split; [by apply load_cache_miss|].
  split.
  - unfold cache_file. cbn. apply lookup_insert_eq.
  - intros path Hne. cbn. by rewrite lookup_insert_ne.
Qed.

Lemma load_cache_garbage (w : world) (cachedir : string) (self : sdc)
    (raw : string) :
  configured w cachedir ->
  files w !! os_path_join cachedir (filename self) = Some (Garbage raw) ->
  load (w, self) = (inl JSONDecodeError, (with_cachedir w cachedir, self)).
Proof.
  intros Hcfg Hfile. unfold load, try_malformed, mbind, M_bind.
  by rewrite (load_from_cache_garbage _ _ _ raw Hcfg Hfile).
Qed.

Lemma load_cache_not_dict (w : world) (cachedir : string) (self : sdc)
    (v : json) :
  configured w cachedir ->
  files w !! os_path_join cachedir (filename self) = Some (JsonText v) ->
  (forall d, v <> JDict d) ->
  load (w, self) =
    (inl AttributeError, (with_cachedir w cachedir, with_data self v)).
Proof.
  intros Hcfg Hfile Hv. unfold load, try_malformed, mbind, M_bind.
  rewrite (load_from_cache_hit _ _ _ _ Hcfg Hfile).
  fold (with_cachedir w cachedir). fold (with_data self v).
  by rewrite verify_data_not_dict.
Qed.

(** X2: [load] recovers from a missing cache file only.  A cache file
    that is no JSON text raises [JSONDecodeError], one that holds a JSON
    value other than an object raises [AttributeError] in [verify_data];
    neither is a [SignatureCacheMalformedException], so the defaults are
    not consulted and the files stay as they are. *)
Theorem load_raises_on_broken_cache (w : world) (cachedir : string) (self : sdc) :
  configured w cachedir ->
  (forall raw,
     files w !! os_path_join cachedir (filename self) = Some (Garbage raw) ->
     load (w, self) = (inl JSONDecodeError, (with_cachedir w cachedir, self))) /\
  (forall v,
     files w !! os_path_join cachedir (filename self) = Some (JsonText v) ->
     (forall d, v <> JDict d) ->
     load (w, self) =
       (inl AttributeError, (with_cachedir w cachedir, with_data self v))).
Proof.
  intros Hcfg. split.
  - intros raw. by apply load_cache_garbage.
  - intros v. by apply load_cache_not_dict.
Qed.

(** A fresh installation: the cache directory is configured, the
    defaults are bundled, the cache is empty. *)
Definition fresh_install : world :=
  World (Some {[ "cachedir_scanner" := "cache" ]})
        (Some {[ "cachedir_scanner" := "cache" ]})
        "fdroidserver"
        {[ "fdroidserver/data/scanner/scanner.json" := JsonText bundled ]}
        ∅.

Lemma fresh_install_configured : configured fresh_install "cache".
Proof.
  split; [|split].
  - eexists. split; [reflexivity|]. eexists. by vm_compute.
  - eexists. split; [reflexivity|]. by vm_compute.
  - by vm_compute.
Qed.

Lemma load_falls_back_to_defaults_witness :
  exists w',
    load (fresh_install, ScannerSignatureDataController)
      = (inr tt, (w', with_data ScannerSignatureDataController bundled)) /\
    cache_file w' "cache" ScannerSignatureDataController
      = Some (JsonText bundled) /\
    (forall path,
       path <> os_path_join "cache" (filename ScannerSignatureDataController) ->
       files w' !! path = files fresh_install !! path).
Proof.
  apply (load_falls_back_to_defaults fresh_install "cache"
           ScannerSignatureDataController bundled).
  - exact fresh_install_configured.
  - by vm_compute.
  - by vm_compute.
Defined.

(** A cache file that holds something else than JSON. *)
Definition broken_cache : world :=
  World (Some {[ "cachedir_scanner" := "cache" ]})
        (Some {[ "cachedir_scanner" := "cache" ]})
        "fdroidserver"
        {[ "cache/scanner.json" := Garbage "<html>";
           "fdroidserver/data/scanner/scanner.json" := JsonText bundled ]}
        ∅.

Lemma broken_cache_configured : configured broken_cache "cache".
Proof.
  split; [|split].
  - eexists. split; [reflexivity|]. eexists. by vm_compute.
  - eexists. split; [reflexivity|]. by vm_compute.
  - by vm_compute.
Qed.

Lemma load_raises_on_broken_cache_witness :
  load (broken_cache, ScannerSignatureDataController)
    = (inl JSONDecodeError,
       (with_cachedir broken_cache "cache", ScannerSignatureDataController)).
Proof.
  apply (proj1 (load_raises_on_broken_cache broken_cache "cache"
                  ScannerSignatureDataController broken_cache_configured)
           "<html>").
  by vm_compute.
Defined.

Lemma cachedir_unconfigured (w : world) (self : sdc) :
  (forall c, common_config w = Some c -> c !! "cachedir_scanner" = None) ->
  _scanner_cachedir (w, self) =
    (inl (ConfigurationException "could not load 'cachedir_scanner' config"),
     (w, self)).
Proof.
  intros Hc. unfold _scanner_cachedir, mbind, M_bind, get_world. cbn [fst snd].
  destruct (common_config w) as [c|]; [|done].
  destruct (decide (c = ∅)); [done|]. by rewrite (Hc c eq_refl).
Qed.

Lemma cachedir_module_config_unset (w : world) (self : sdc)
    (c : gmap string string) :
  common_config w = Some c ->
  is_Some (c !! "cachedir_scanner") ->
  config w = None ->
  _scanner_cachedir (w, self) = (inl TypeError, (w, self)).
Proof.
  intros Hc [x Hx] Hcfg.
  unfold _scanner_cachedir, mbind, M_bind, get_world. cbn [fst snd].
  rewrite Hc. destruct (decide (c = ∅)) as [->|_];
    [by rewrite lookup_empty in Hx|].
  by rewrite Hx, Hcfg.
Qed.

(** X3: without a [cachedir_scanner] entry in [common.config] (no
    configuration at all, an empty one, or one without the key), both
    [load] and [write_to_cache] raise [ConfigurationException] and touch
    neither the files nor the controller; [load] does not take it for a
    malformed cache, so it does not fall back to the defaults. *)
Theorem unconfigured_cachedir_raises (w : world) (self : sdc) :
  (forall c, common_config w = Some c -> c !! "cachedir_scanner" = None) ->
  load (w, self) =
    (inl (ConfigurationException "could not load 'cachedir_scanner' config"),
     (w, self)) /\
  write_to_cache (w, self) =
    (inl (ConfigurationException "could not load 'cachedir_scanner' config"),
     (w, self)).
Proof.
  intros Hc. split.
  - unfold load, try_malformed, load_from_cache, mbind, M_bind.
    by rewrite (cachedir_unconfigured _ _ Hc).
  - unfold write_to_cache, mbind, M_bind.
    by rewrite (cachedir_unconfigured _ _ Hc).
Qed.

Lemma unconfigured_cachedir_raises_witness :
  load (World (Some ∅) None "fdroidserver" ∅ ∅, ScannerSignatureDataController) =
    (inl (ConfigurationException "could not load 'cachedir_scanner' config"),
     (World (Some ∅) None "fdroidserver" ∅ ∅, ScannerSignatureDataController)) /\
  write_to_cache
    (World (Some ∅) None "fdroidserver" ∅ ∅, ScannerSignatureDataController) =
    (inl (ConfigurationException "could not load 'cachedir_scanner' config"),
     (World (Some ∅) None "fdroidserver" ∅ ∅, ScannerSignatureDataController)).
Proof.
  apply (unconfigured_cachedir_raises (World (Some ∅) None "fdroidserver" ∅ ∅)).
  intros c [= <-]. apply lookup_empty.
Defined.

(** X4: [_scanner_cachedir] tests [common.config] for the key but reads
    the directory from the module's own [config] global.  When
    [common.config] has the key while the module's [config] is still
    [None], subscripting it raises [TypeError]; [load] and
    [write_to_cache] pass it on and change nothing. *)
Theorem module_config_unset_raises (w : world) (self : sdc)
    (c : gmap string string) :
  common_config w = Some c ->
  is_Some (c !! "cachedir_scanner") ->
  config w = None ->
  load (w, self) = (inl TypeError, (w, self)) /\
  write_to_cache (w, self) = (inl TypeError, (w, self)).
Proof.
  intros Hc Hx Hcfg. split.
  - unfold load, try_malformed, load_from_cache, mbind, M_bind.
    by rewrite (cachedir_module_config_unset _ _ c).
  - unfold write_to_cache, mbind, M_bind.
    by rewrite (cachedir_module_config_unset _ _ c).
Qed.

(** [common.config] is read, the module's own [config] was never set. *)
Definition library_use : world :=
  World (Some {[ "cachedir_scanner" := "cache" ]}) None "fdroidserver"
        {[ "fdroidserver/data/scanner/scanner.json" := JsonText bundled ]} ∅.

Lemma module_config_unset_raises_witness :
  load (library_use, ScannerSignatureDataController)
    = (inl TypeError, (library_use, ScannerSignatureDataController)) /\
  write_to_cache (library_use, ScannerSignatureDataController)
    = (inl TypeError, (library_use, ScannerSignatureDataController)).
Proof.
  apply (module_config_unset_raises library_use ScannerSignatureDataController
           {[ "cachedir_scanner" := "cache" ]}).
  - reflexivity.
  - eexists. by vm_compute.
  - reflexivity.
Defined.

(** X5: [verify_data] is idempotent: run twice it leaves what one run
    leaves, and on data that is no dict both raise [AttributeError]. *)
Theorem verify_data_idempotent (st : state) :
  (verify_data;; verify_data) st = verify_data st.
Proof.
  destruct st as [w self]. unfold mbind at 1, M_bind at 1.
  destruct (data self) as [| | | | | |d] eqn:Hd;
    try (rewrite verify_data_not_dict by (rewrite Hd; discriminate); done).
  rewrite (verify_data_spec _ _ d Hd).
  rewrite (verify_data_spec _ _ (verified d)) by done.
  cbn. by rewrite verified_idemp.
Qed.

(** X6: a second [load] after a successful one succeeds as well, leaves
    the world as the first one left it, and yields the recognized
    top-level keys of the data the first one left: the data itself when
    the first load read the cache, the filtered defaults when it fell
    back to them. *)
Theorem load_again (w : world) (cachedir : string) (self : sdc)
    (st1 : state) (d1 : gmap string json) :
  configured w cachedir ->
  os_path_join cachedir (filename self) <> cachedir ->
  load (w, self) = (inr tt, st1) ->
  data st1.2 = JDict d1 ->
  load st1 = (inr tt, (st1.1, with_data self (JDict (verified d1)))).
Proof.
  intros Hcfg Hpath Hload Hd1.
  destruct (files w !! os_path_join cachedir (filename self))
    as [[v|raw]|] eqn:Hfile.
  - destruct v as [| | | | | |d];
      try (rewrite (load_cache_not_dict _ _ _ _ Hcfg Hfile) in Hload
             by discriminate; discriminate).
    rewrite (load_cache_hit _ _ _ _ Hcfg Hfile) in Hload.
    injection Hload as <-. cbn in Hd1. injection Hd1 as <-.
    cbn [fst snd].
    rewrite (load_cache_hit (with_cachedir w cachedir) cachedir _ d)
      by (by apply configured_with_cachedir || done).
    fold (with_cachedir (with_cachedir w cachedir) cachedir).
    by rewrite with_cachedir_idemp, verified_idemp.
  - by rewrite (load_cache_garbage _ _ _ raw Hcfg Hfile) in Hload.
  - destruct (files w !! defaults_file w self) as [[v|raw]|] eqn:Hdef.
    + rewrite (load_cache_miss _ _ _ v Hcfg Hfile Hdef) in Hload.
      injection Hload as <-. cbn in Hd1. subst v. cbn [fst snd].
      set (w1 := World _ _ _ _ _).
      assert (configured w1 cachedir) as Hcfg1.
      { apply (configured_after_write w cachedir _ _ _ Hcfg Hpath). }
      rewrite (load_cache_hit w1 cachedir _ d1 Hcfg1)
        by (cbn; apply lookup_insert_eq).
      subst w1. cbn. do 3 f_equal. by rewrite (assoc_L (∪)), union_idemp_L.
    + exfalso. revert Hload. unfold load, try_malformed, mbind, M_bind.
      rewrite (load_from_cache_miss _ _ _ Hcfg Hfile).
      by rewrite (load_from_defaults_fails (with_cachedir w cachedir) self raw Hdef).
    + exfalso. revert Hload. unfold load, try_malformed, mbind, M_bind.
      rewrite (load_from_cache_miss _ _ _ Hcfg Hfile).
      by rewrite (load_from_defaults_missing (with_cachedir w cachedir) self Hdef).
Qed.

Lemma fresh_install_no_cache :
  files fresh_install
    !! os_path_join "cache" (filename ScannerSignatureDataController) = None.
Proof. by vm_compute. Qed.

Lemma fresh_install_defaults :
  files fresh_install
    !! defaults_file fresh_install ScannerSignatureDataController
  = Some (JsonText bundled).
Proof. by vm_compute. Qed.

Lemma load_again_witness :
  let st1 := (load (fresh_install, ScannerSignatureDataController)).2 in
  load st1 =
    (inr tt,
     (st1.1,
      with_data ScannerSignatureDataController
        (JDict (verified
           {[ "version" := JInt 1; "timestamp" := JStr "2022-03-09T00:00:00";
              "signatures" := JDict ∅ ]})))).
Proof.
  cbv zeta.
  rewrite (load_cache_miss fresh_install "cache" ScannerSignatureDataController
             bundled fresh_install_configured fresh_install_no_cache
             fresh_install_defaults).
  apply (load_again fresh_install "cache" ScannerSignatureDataController _ _
           fresh_install_configured).
  - by vm_compute.
  - exact (load_cache_miss fresh_install "cache" ScannerSignatureDataController
             bundled fresh_install_configured fresh_install_no_cache
             fresh_install_defaults).
  - reflexivity.
Defined.

(** *** Freshness: [check_last_updated]

    A [datetime] is, for the check, its wall clock reading in
    microseconds since 0001-01-01T00:00:00 and, when it is aware, its
    offset from UTC in microseconds.  [datetime.fromisoformat] on a
    string and the reading of the clock are the surroundings. *)

Record datetime : Type := Datetime {
  wall : Z;
  utcoffset : option Z;
}.

Definition microseconds_per_day : Z := 86400000000.

(** [datetime.max] is 9999-12-31T23:59:59.999999, the last microsecond
    of day 3652059. *)
Definition datetime_max : Z := 3652059 * microseconds_per_day - 1.

(** What [check_last_updated] can raise: the exceptions of the cache
    protocol and, from the addition of the interval, [OverflowError]. *)
Inductive raised : Type :=
| Exn (e : exn)
| OverflowError.

(** The truth value of a parsed value, as [not timestamp] takes it. *)
Definition truthy (v : json) : bool :=
  match v with
  | JNull => false
  | JBool b => b
  | JInt n => negb (n =? 0)%Z
  | JFloat (S754_zero _) => false
  | JFloat _ => true
  | JStr s => negb (String.eqb s "")
  | JList l => negb (bool_decide (l = []))
  | JDict d => negb (bool_decide (d = ∅))
  end.

(** [t + timedelta(days=days)]: the wall clock moves, the offset stays. *)
Definition datetime_add_days (t : datetime) (days : Z) : raised + datetime :=
  let w := (wall t + days * microseconds_per_day)%Z in
  if ((w <? 0) || (datetime_max <? w))%Z then inl OverflowError
  else inr (Datetime w (utcoffset t)).

(** [a < b]: two aware values compare as instants, two naive ones as
    wall clock readings, and a naive with an aware one not at all. *)
Definition datetime_lt (a b : datetime) : raised + bool :=
  match utcoffset a, utcoffset b with
  | Some oa, Some ob => inr (wall a - oa <? wall b - ob)%Z
  | None, None => inr (wall a <? wall b)%Z
  | _, _ => inl (Exn TypeError)
  end.

Section Clock.
(** [datetime.fromisoformat] on a string; [None] where it raises
    [ValueError]. *)
Variable fromisoformat : string -> option datetime.
(** [datetime.now()] and the offset of the local time zone. *)
Variables (clock_wall clock_offset : Z).

(** [datetime.now().astimezone()] *)
Definition _datetime_now : datetime :=
  Datetime clock_wall (Some clock_offset).

Definition check_last_updated (self : sdc) : raised + unit :=
  match data_get (data self) "timestamp" with
  | inl e => inl (Exn e)
  | inr timestamp =>
      let timestamp := default JNull timestamp in
      if negb (truthy timestamp) then inl (Exn SignatureCacheMalformedException)
      else
        match timestamp with
        | JStr s =>
            match fromisoformat s with
            | None => inl (Exn SignatureCacheMalformedException)
            | Some t =>
                match datetime_add_days t (cache_outdated_interval self) with
                | inl e => inl e
                | inr expiry =>
                    match datetime_lt expiry _datetime_now with
                    | inl e => inl e
                    | inr true => inl (Exn SignatureCacheOutdatedException)
                    | inr false => inr tt
                    end
                end
            end
        | _ => inl (Exn SignatureCacheMalformedException)
        end
  end.

Lemma datetime_add_days_not_malformed (t : datetime) (days : Z) :
  datetime_add_days t days <> inl (Exn SignatureCacheMalformedException).
Proof. unfold datetime_add_days. by destruct (_ || _). Qed.

(** X7: on data that is a dict, [check_last_updated] raises
    [SignatureCacheMalformedException] exactly when the [timestamp] entry
    is not a non-empty string that [datetime.fromisoformat] accepts: a
    missing entry, [null], [false], zero, an empty string, list or
    object, any other value that is no string, and a string that does
    not parse are all malformed. *)
Theorem check_last_updated_malformed (self : sdc) (d : gmap string json) :
  data self = JDict d ->
  check_last_updated self = inl (Exn SignatureCacheMalformedException) <->
  ~ exists s t,
      d !! "timestamp" = Some (JStr s) /\ s <> "" /\ fromisoformat s = Some t.
Proof.
  intros Hd. unfold check_last_updated. rewrite Hd. cbn [data_get].
  split.
  - intros Hm (s & t & Hs & Hne & Ht). rewrite Hs in Hm. cbn in Hm.
    destruct (String.eqb_spec s ""); [done|]. cbn in Hm. rewrite Ht in Hm.
    destruct (datetime_add_days t (cache_outdated_interval self)) as [e|expiry]
      eqn:Hadd.
    + injection Hm as ->.
      by apply (datetime_add_days_not_malformed t (cache_outdated_interval self)).
    + unfold datetime_lt, _datetime_now in Hm. cbn in Hm.
      destruct (utcoffset expiry); [|done].
      by destruct (_ <? _)%Z.
  - intros Hno. destruct (d !! "timestamp") as [v|] eqn:Hv; [|done].
    change (default JNull (Some v)) with v.
    destruct (truthy v) eqn:Htr; [|done]. cbn [negb].
    destruct v as [| | | | s | |]; try done.
    destruct (fromisoformat s) as [t|] eqn:Ht; [|done].
    exfalso. apply Hno. exists s, t. split; [done|]. split; [|done].
    intros ->. done.
Qed.

(** X8: a [timestamp] that parses to a time with a UTC offset is
    outdated exactly when, with the interval added, it lies before the
    reading of the clock as an instant; a timestamp that is exactly the
    interval old still passes.  A timestamp that parses to a time without
    an offset cannot be compared with the aware reading of the clock: the
    check raises [TypeError], outside its [try] block. *)
Theorem check_last_updated_expiry (self : sdc) (d : gmap string json)
    (s : string) (t : datetime) :
  data self = JDict d ->
  d !! "timestamp" = Some (JStr s) ->
  s <> "" ->
  fromisoformat s = Some t ->
  (0 <= wall t + cache_outdated_interval self * microseconds_per_day
     <= datetime_max)%Z ->
  match utcoffset t with
  | Some offset =>
      check_last_updated self =
        if (wall t + cache_outdated_interval self * microseconds_per_day - offset
              <? clock_wall - clock_offset)%Z
        then inl (Exn SignatureCacheOutdatedException)
        else inr tt
  | None => check_last_updated self = inl (Exn TypeError)
  end.
Proof.
  intros Hd Hs Hne Ht Hrange. unfold check_last_updated.
  rewrite Hd. cbn [data_get]. rewrite Hs.
  change (default JNull (Some (JStr s))) with (JStr s). cbn [truthy].
  destruct (String.eqb_spec s ""); [done|]. cbn [negb]. rewrite Ht.
  unfold datetime_add_days.
  replace (_ || _)%Z with false
    by (symmetry; apply orb_false_iff; split; [apply Z.ltb_ge|apply Z.ltb_ge]; lia).
  unfold datetime_lt, _datetime_now. cbn [utcoffset wall].
  destruct (utcoffset t) as [offset|]; [|done].
  by destruct (_ <? _)%Z.
Qed.

End Clock.

(** A parser that knows two timestamps of 2022-03-09, one with the
    offset of UTC and one without an offset. *)
Definition example_fromisoformat (s : string) : option datetime :=
  if String.eqb s "2022-03-09T00:00:00+00:00"
  then Some (Datetime 63782380800000000 (Some 0%Z))
  else if String.eqb s "2022-03-09T00:00:00"
  then Some (Datetime 63782380800000000 None)
  else None.

Lemma check_last_updated_malformed_witness :
  check_last_updated example_fromisoformat 63782985600000000 0
    (with_data ScannerSignatureDataController
       (JDict {[ "timestamp" := JStr "last week" ]}))
  = inl (Exn SignatureCacheMalformedException).
Proof.
  apply (proj2 (check_last_updated_malformed example_fromisoformat
                  63782985600000000 0
                  (with_data ScannerSignatureDataController
                     (JDict {[ "timestamp" := JStr "last week" ]}))
                  {[ "timestamp" := JStr "last week" ]} eq_refl)).
  intros (s & t & Hs & _ & Ht).
  rewrite lookup_singleton_eq in Hs. injection Hs as <-. discriminate.
Defined.

(** The naive timestamp of [bundled] at 2022-03-16T00:00:00+00:00. *)
Lemma check_last_updated_expiry_witness :
  check_last_updated example_fromisoformat 63782985600000000 0
    (with_data ScannerSignatureDataController bundled)
  = inl (Exn TypeError).
Proof.
  apply (check_last_updated_expiry example_fromisoformat 63782985600000000 0
           (with_data ScannerSignatureDataController bundled)
           {[ "version" := JInt 1; "timestamp" := JStr "2022-03-09T00:00:00";
              "signatures" := JDict ∅ ]}
           "2022-03-09T00:00:00" (Datetime 63782380800000000 None)).
  - reflexivity.
  - by vm_compute.
  - discriminate.
  - reflexivity.
  - by vm_compute.
Defined.

(** *** The version check *)

Lemma py_eq_int_1 (x : json) :
  py_eq_int x SCANNER_CACHE_VERSION = true <->
  x = JInt 1 \/ x = JBool true \/
  exists f, x = JFloat f /\ float_eq_Z f 1 = true.
Proof.
  unfold SCANNER_CACHE_VERSION. split.
  - destruct x as [|b|n|f| | |]; cbn [py_eq_int]; try done.
    + destruct b; [by right; left|done].
    + intros ->%Z.eqb_eq. by left.
    + intros Hf. right. right. by exists f.
  - intros [->|[->|(f & -> & Hf)]]; done.
Qed.

(** X9: on data that is a dict, [check_data_version] passes exactly
    when the [version] entry equals 1 as Python compares: the integer 1,
    the boolean [true], or a float of that value.  A missing entry and
    every other value (the string ["1"] among them) raise
    [SignatureCacheMalformedException]; the check changes nothing. *)
Theorem check_data_version_accepts (w : world) (self : sdc)
    (d : gmap string json) :
  data self = JDict d ->
  (check_data_version (w, self) = (inr tt, (w, self)) <->
   exists x, d !! "version" = Some x /\
             (x = JInt 1 \/ x = JBool true \/
              exists f, x = JFloat f /\ float_eq_Z f 1 = true)) /\
  (check_data_version (w, self) = (inr tt, (w, self)) \/
   check_data_version (w, self)
     = (inl SignatureCacheMalformedException, (w, self))).
Proof.
  intros Hd. unfold check_data_version, mbind, M_bind, get_self.
  cbn [fst snd]. rewrite Hd. cbn [data_get].
  destruct (d !! "version") as [x|].
  - destruct (py_eq_int x SCANNER_CACHE_VERSION) eqn:Hx; cbn [negb].
    + split; [|by left]. split; [|done]. intros _. exists x.
      split; [done|]. by apply py_eq_int_1.
    + split; [|by right]. split; [done|]. intros (y & [= <-] & Hy).
      apply py_eq_int_1 in Hy. congruence.
  - split; [|by right]. split; [done|]. by intros (y & [=] & _).
Qed.

Lemma check_data_version_accepts_witness :
  check_data_version
    (fresh_install,
     with_data ScannerSignatureDataController
       (JDict {[ "version" := JBool true ]}))
  = (inr tt,
     (fresh_install,
      with_data ScannerSignatureDataController
        (JDict {[ "version" := JBool true ]}))).
Proof.
  apply (proj1 (check_data_version_accepts fresh_install
                  (with_data ScannerSignatureDataController
                     (JDict {[ "version" := JBool true ]}))
                  {[ "version" := JBool true ]} eq_refl)).
  exists (JBool true). split; [apply lookup_singleton_eq|]. right. by left.
Defined.

(** *** The scanner tool: [ScannerTool] and [_get_tool]

    The tool loads its one controller and compiles the signatures of
    its data into two tables, keyed by the signature.  The tables are
    dicts that the scans only iterate to count and to look up, so they
    are [gmap]s; the order in which a JSON object lists its entries is
    not part of a parsed value here, so where compiling raises, which of
    several exceptions comes first is not told apart. *)

Section Tool.
(** A compiled pattern, and [re.compile(pattern, re.IGNORECASE)];
    [None] where it raises [re.error]. *)
Variable pattern : Type.
Variable re_compile : string -> option pattern.

Record regexes : Type := Regexes {
  code_signatures : gmap string pattern;
  gradle_signatures : gmap string pattern;
}.

Record tool : Type := Tool {
  sdcs : list sdc;
  regex : regexes;
}.

(** What [for sig in v] runs over: the items of a list, the keys of a
    dict, the characters of a string; [None] where [v] is not iterable. *)
Definition iterate (v : json) : option (list json) :=
  match v with
  | JList l => Some l
  | JDict d => Some (JStr <$> (map_to_list d).*1)
  | JStr s => Some ((fun c => JStr (String c "")) <$> list_ascii_of_string s)
  | _ => None
  end.

(** [for sig in sigs: table[sig] = re.compile('.*' + sig, re.IGNORECASE)];
    a signature that is no string cannot be appended to ['.*']. *)
Fixpoint compile_into (table : gmap string pattern) (sigs : list json)
    : option (gmap string pattern) :=
  match sigs with
  | [] => Some table
  | JStr sig :: rest =>
      match re_compile (".*" +:+ sig) with
      | Some r => compile_into (<[sig := r]> table) rest
      | None => None
      end
  | _ :: _ => None
  end.

(** The body of [for signame, sigdef in ....items()]. *)
Definition compile_sigdef (rg : regexes) (sigdef : json) : option regexes :=
  match sigdef with
  | JDict sd =>
      code ← iterate (default (JList []) (sd !! "code_signatures"));
      cs ← compile_into (code_signatures rg) code;
      gradle ← iterate (default (JList []) (sd !! "gradle_signatures"));
      gs ← compile_into (gradle_signatures rg) gradle;
      Some (Regexes cs gs)
  | _ => None
  end.

Fixpoint compile_sigdefs (rg : regexes) (sigdefs : list json) : option regexes :=
  match sigdefs with
  | [] => Some rg
  | sigdef :: rest =>
      rg' ← compile_sigdef rg sigdef;
      compile_sigdefs rg' rest
  end.

(** The body of [for sdc in self.sdcs]. *)
Definition compile_sdc (rg : regexes) (self : sdc) : option regexes :=
  match data self with
  | JDict d =>
      match default (JDict ∅) (d !! "signatures") with
      | JDict sigs => compile_sigdefs rg (map_to_list sigs).*2
      | _ => None
      end
  | _ => None
  end.

(** [compile_regexes]; [None] where it raises. *)
Fixpoint compile_from (rg : regexes) (sdcs : list sdc) : option regexes :=
  match sdcs with
  | [] => Some rg
  | self :: rest =>
      rg' ← compile_sdc rg self;
      compile_from rg' rest
  end.

Definition compile_regexes (sdcs : list sdc) : option regexes :=
  compile_from (Regexes ∅ ∅) sdcs.

(** Why no tool was made: [load] raised, or [compile_regexes] did. *)
Inductive failure : Type :=
| LoadFailed (e : exn)
| CompileFailed.

(** [ScannerTool.__init__] *)
Definition ScannerTool (w : world) : (failure + tool) * world :=
  match load (w, ScannerSignatureDataController) with
  | (inl e, (w', _)) => (inl (LoadFailed e), w')
  | (inr _, (w', self)) =>
      match compile_regexes [self] with
      | Some rg => (inr (Tool [self] rg), w')
      | None => (inl CompileFailed, w')
      end
  end.

(** [_get_tool], on the world and the module's [SCANNER_TOOL]. *)
Definition _get_tool (st : world * option tool)
    : (failure + tool) * (world * option tool) :=
  match st.2 with
  | Some t => (inr t, st)
  | None =>
      match ScannerTool st.1 with
      | (inr t, w') => (inr t, (w', Some t))
      | (inl f, w') => (inl f, (w', None))
      end
  end.

(** X10: [_get_tool] builds the tool once.  After a call that returned
    a tool, every later call returns that same tool and reads and writes
    nothing, whatever the cache and the configuration have become in the
    meantime; a call that raised leaves [SCANNER_TOOL] unset, so the next
    call starts over. *)
Theorem _get_tool_once (st st1 : world * option tool) :
  (forall t,
     _get_tool st = (inr t, st1) ->
     st1.2 = Some t /\
     forall w, _get_tool (w, st1.2) = (inr t, (w, st1.2))) /\
  (forall f,
     _get_tool st = (inl f, st1) ->
     st.2 = None /\ st1.2 = None /\ (ScannerTool st.1).1 = inl f).
Proof.
  unfold _get_tool. destruct st as [w [t0|]]; cbn [fst snd].
  - split; [|done]. intros t [= <- <-]. cbn [snd]. by split.
  - destruct (ScannerTool w) as [[f0|t0] w']; cbn [fst].
    + split; [done|]. by intros f [= <- <-].
    + split; [|done]. intros t [= <- <-]. cbn [snd]. by split.
Qed.

(** Every entry of the table is the compiled form of ['.*'] and its
    key. *)
Definition well_compiled (table : gmap string pattern) : Prop :=
  forall s r, table !! s = Some r -> re_compile (".*" +:+ s) = Some r.

(** The signature [s] is among what a signature definition lists under
    [key]. *)
Definition listed (key : string) (sd : gmap string json) (s : string) : Prop :=
  exists l, iterate (default (JList []) (sd !! key)) = Some l /\ In (JStr s) l.

Lemma compile_into_spec (sigs : list json) : forall table table',
  compile_into table sigs = Some table' ->
  (forall s, is_Some (table' !! s) <-> is_Some (table !! s) \/ In (JStr s) sigs) /\
  (well_compiled table -> well_compiled table').
Proof.
  induction sigs as [|sig rest IH]; intros table table'.
  - intros [= <-]. split; [|done]. intros s. cbn [In]. tauto.
  - destruct sig as [| | | |sig| |]; try done. cbn [compile_into].
    destruct (re_compile (".*" +:+ sig)) as [r|] eqn:Hr; [|done].
    intros Hrest. destruct (IH _ _ Hrest) as [Hkeys Hwell]. split.
    + intros s. rewrite Hkeys, lookup_insert_is_Some. cbn [In]. split.
      * intros [[->|[_ Hs]]|Hin]; [right; by left | by left | right; by right].
      * intros [Hs|[[= ->]|Hin]]; [|left; by left|by right].
        destruct (decide (sig = s)) as [->|Hne]; left; [by left|by right].
    + intros Htable. apply Hwell. intros s r0.
      destruct (decide (sig = s)) as [->|Hne].
      * rewrite lookup_insert_eq. by intros [= <-].
      * rewrite lookup_insert_ne by done. apply Htable.
Qed.

Lemma compile_sigdef_spec (rg rg' : regexes) (sigdef : json) :
  compile_sigdef rg sigdef = Some rg' ->
  exists sd,
    sigdef = JDict sd /\
    (forall s, is_Some (code_signatures rg' !! s) <->
               is_Some (code_signatures rg !! s) \/ listed "code_signatures" sd s) /\
    (forall s, is_Some (gradle_signatures rg' !! s) <->
               is_Some (gradle_signatures rg !! s) \/ listed "gradle_signatures" sd s) /\
    (well_compiled (code_signatures rg) -> well_compiled (code_signatures rg')) /\
    (well_compiled (gradle_signatures rg) -> well_compiled (gradle_signatures rg')).
Proof.
  destruct sigdef as [| | | | | |sd]; try done. cbn [compile_sigdef].
  destruct (iterate (default (JList []) (sd !! "code_signatures")))
    as [code|] eqn:Hcode; [|done]. cbn [mbind option_bind].
  destruct (compile_into (code_signatures rg) code) as [cs|] eqn:Hcs; [|done].
  cbn [mbind option_bind].
  destruct (iterate (default (JList []) (sd !! "gradle_signatures")))
    as [gradle|] eqn:Hgradle; [|done]. cbn [mbind option_bind].
  destruct (compile_into (gradle_signatures rg) gradle) as [gs|] eqn:Hgs; [|done].
  cbn [mbind option_bind]. intros [= <-]. exists sd. split; [done|].
  destruct (compile_into_spec _ _ _ Hcs) as [Hck Hcw].
  destruct (compile_into_spec _ _ _ Hgs) as [Hgk Hgw].
  cbn [code_signatures gradle_signatures].
  split; [|split; [|by split]].
  - intros s. rewrite Hck. unfold listed. rewrite Hcode. split.
    + intros [?|?]; [by left|right; by exists code].
    + intros [?|(l & [= <-] & ?)]; [by left|by right].
  - intros s. rewrite Hgk. unfold listed. rewrite Hgradle. split.
    + intros [?|?]; [by left|right; by exists gradle].
    + intros [?|(l & [= <-] & ?)]; [by left|by right].
Qed.

Lemma compile_sigdefs_spec (sigdefs : list json) : forall rg rg',
  compile_sigdefs rg sigdefs = Some rg' ->
  (forall s, is_Some (code_signatures rg' !! s) <->
             is_Some (code_signatures rg !! s) \/
             exists sd, In (JDict sd) sigdefs /\ listed "code_signatures" sd s) /\
  (forall s, is_Some (gradle_signatures rg' !! s) <->
             is_Some (gradle_signatures rg !! s) \/
             exists sd, In (JDict sd) sigdefs /\ listed "gradle_signatures" sd s) /\
  (well_compiled (code_signatures rg) -> well_compiled (code_signatures rg')) /\
  (well_compiled (gradle_signatures rg) -> well_compiled (gradle_signatures rg')).
Proof.
  induction sigdefs as [|sigdef rest IH]; intros rg rg'.
  - intros [= <-]. repeat split; try done; try (by left);
      intros [?|(sd & [] & _)]; done.
  - cbn [compile_sigdefs].
    destruct (compile_sigdef rg sigdef) as [rg1|] eqn:H1; [|done].
    cbn [mbind option_bind]. intros Hrest.
    destruct (compile_sigdef_spec _ _ _ H1) as (sd & -> & Hc1 & Hg1 & Hcw1 & Hgw1).
    destruct (IH _ _ Hrest) as (Hc & Hg & Hcw & Hgw).
    split; [|split; [|split; [tauto|tauto]]].
    + intros s. rewrite Hc, Hc1. cbn [In]. split.
      * intros [[?|?]|(sd' & ? & ?)]; [by left|right; exists sd; by split; [left|]|].
        right. exists sd'. by split; [right|].
      * intros [?|(sd' & [[= <-]|?] & ?)]; [left; by left|left; by right|].
        right. by exists sd'.
    + intros s. rewrite Hg, Hg1. cbn [In]. split.
      * intros [[?|?]|(sd' & ? & ?)]; [by left|right; exists sd; by split; [left|]|].
        right. exists sd'. by split; [right|].
      * intros [?|(sd' & [[= <-]|?] & ?)]; [left; by left|left; by right|].
        right. by exists sd'.
Qed.

(** X11: when [compile_regexes] returns, the keys of each table are
    the signatures the signature definitions of the data list under
    [code_signatures] and [gradle_signatures], and the value under a key
    is the compiled form of ['.*'] followed by the key; a signature two
    definitions list has one entry.  Data without a [signatures] entry
    gives two empty tables. *)
Theorem compile_regexes_tables (self : sdc) (d sigs : gmap string json)
    (rg : regexes) :
  data self = JDict d ->
  default (JDict ∅) (d !! "signatures") = JDict sigs ->
  compile_regexes [self] = Some rg ->
  (forall s, is_Some (code_signatures rg !! s) <->
             exists signame sd, sigs !! signame = Some (JDict sd) /\
                                listed "code_signatures" sd s) /\
  (forall s, is_Some (gradle_signatures rg !! s) <->
             exists signame sd, sigs !! signame = Some (JDict sd) /\
                                listed "gradle_signatures" sd s) /\
  well_compiled (code_signatures rg) /\
  well_compiled (gradle_signatures rg) /\
  (d !! "signatures" = None -> rg = Regexes ∅ ∅).
Proof.
  intros Hd Hsigs. unfold compile_regexes. cbn [compile_from].
  unfold compile_sdc. rewrite Hd, Hsigs.
  destruct (compile_sigdefs (Regexes ∅ ∅) (map_to_list sigs).*2) as [rg1|] eqn:H1;
    [|done].
  cbn [mbind option_bind]. intros [= ->].
  destruct (compile_sigdefs_spec _ _ _ H1) as (Hc & Hg & Hcw & Hgw).
  cbn [code_signatures gradle_signatures] in *.
  assert (forall sd, In (JDict sd) (map_to_list sigs).*2 <->
                     exists signame, sigs !! signame = Some (JDict sd)) as Hin.
  { intros sd. rewrite <- list_elem_of_In, list_elem_of_fmap. split.
    - intros ([signame v] & -> & Hv). exists signame.
      by apply elem_of_map_to_list.
    - intros (signame & Hv). exists (signame, JDict sd). split; [done|].
      by apply elem_of_map_to_list. }
  split; [|split; [|split; [|split]]].
  - intros s. rewrite Hc, lookup_empty. split.
    + intros [[? [=]]|(sd & Hsd & Hs)]. apply Hin in Hsd as (signame & Hsd).
      by exists signame, sd.
    + intros (signame & sd & Hsd & Hs). right. exists sd. split; [|done].
      apply Hin. by exists signame.
  - intros s. rewrite Hg, lookup_empty. split.
    + intros [[? [=]]|(sd & Hsd & Hs)]. apply Hin in Hsd as (signame & Hsd).
      by exists signame, sd.
    + intros (signame & sd & Hsd & Hs). right. exists sd. split; [|done].
      apply Hin. by exists signame.
  - apply Hcw. intros s r. by rewrite lookup_empty.
  - apply Hgw. intros s r. by rewrite lookup_empty.
  - intros Hnone. rewrite Hnone in Hsigs. injection Hsigs as <-.
    rewrite map_to_list_empty in H1. by injection H1 as <-.
Qed.

End Tool.

(** Patterns kept as their source text. *)
Lemma roundtrip_writer_compiles :
  is_Some (compile_regexes string Some [roundtrip_writer]).
Proof. apply (bool_decide_unpack _). by vm_compute. Qed.

Lemma compile_regexes_tables_witness :
  exists rg,
    compile_regexes string Some [roundtrip_writer] = Some rg /\
    is_Some (gradle_signatures string rg
               !! "com.google.android.gms:play-services-ads").
Proof.
  destruct roundtrip_writer_compiles as [rg Hrg]. exists rg. split; [done|].
  apply (proj1 (proj2
    (compile_regexes_tables string Some roundtrip_writer
       {[ "version" := JInt 1; "timestamp" := JStr "2022-03-09T00:00:00";
          "signatures" :=
            JDict {[ "admob" :=
              JDict {[ "gradle_signatures" :=
                         JList [JStr "com.google.android.gms:play-services-ads"] ]} ]} ]}
       {[ "admob" :=
            JDict {[ "gradle_signatures" :=
                       JList [JStr "com.google.android.gms:play-services-ads"] ]} ]}
       rg eq_refl ltac:(by vm_compute) Hrg))).
  exists "admob",
    {[ "gradle_signatures" :=
         JList [JStr "com.google.android.gms:play-services-ads"] ]}.
  split; [apply lookup_singleton_eq|].
  exists [JStr "com.google.android.gms:play-services-ads"].
  split; [by rewrite lookup_singleton_eq|by left].
Defined.

Lemma fresh_install_tool :
  match (_get_tool string Some (fresh_install, None)).1 with
  | inr _ => true
  | inl _ => false
  end = true.
Proof. by vm_compute. Qed.

Lemma _get_tool_once_witness :
  exists t st1,
    _get_tool string Some (fresh_install, None) = (inr t, st1) /\
    st1.2 = Some t /\
    forall w, _get_tool string Some (w, st1.2) = (inr t, (w, st1.2)).
Proof.
  pose proof fresh_install_tool as Hret.
  destruct (_get_tool string Some (fresh_install, None)) as [[f|t] st1] eqn:Htool;
    [done|].
  exists t, st1. split; [done|].
  exact (proj1 (_get_tool_once string Some (fresh_install, None) st1) t Htool).
Defined.

End Signature.

(** ** The archive inspector: [get_embedded_classes] and [scan_binary]

    The zip library, the files it reads and [dexdump] are the environment
    of the inspector.  Nothing bounds how deep containers nest (a zip
    file may even contain itself), so the environment is a set of
    observations on an abstract type of files rather than a finite tree,
    and the embedding of the recursive function carries fuel; that the
    depth check makes a fixed amount of fuel enough is proved below. *)

Module Archive.
Import Py Re.
Local Open Scope regex_scope.

(** Exceptions, by what the [except zipfile.BadZipFile] clause tells
    apart: [BadZipFile] with its message, and every other exception
    ([OSError] from opening a path, [zlib.error], [IndexError], ...). *)
Inductive exn : Type :=
| BadZipFile (msg : string)
| OtherError (descr : string).

(** A computation that may run out of fuel ([None]) or raise. *)
Definition res (A : Type) : Type := option (exn + A).

#[local] Instance res_ret : MRet res := fun A x => Some (inr x).
#[local] Instance res_bind : MBind res := fun A B f m =>
  match m with
  | Some (inr x) => f x
  | Some (inl e) => Some (inl e)
  | None => None
  end.

Definition lift {A} (r : exn + A) : res A := Some r.

(** The computation returned a value: it neither raised nor ran out of
    fuel. *)
Definition returns {A} (r : res A) : bool :=
  match r with
  | Some (inr _) => true
  | _ => false
  end.

Lemma returns_value {A} (r : res A) : returns r = true -> exists x, r = Some (inr x).
Proof. destruct r as [[e|x]|]; [done| |done]. intros _. by exists x. Qed.

(** [.*\.(aab|aar|apk|apks|jar|war|xapk|zip)$] *)
Definition archive_regex : regex :=
  Star true Dot +> Chr "." +>
  Group (Lit "aab" </> Lit "aar" </> Lit "apk" </> Lit "apks" </> Lit "jar"
         </> Lit "war" </> Lit "xapk" </> Lit "zip") +> Eos.

(** [classes.*\.dex] *)
Definition class_regex : regex :=
  Lit "classes" +> Star true Dot +> Lit ".dex".

(** [\w] on the code points below 256. *)
Definition is_word (c : ascii) : bool :=
  let n := nat_of_ascii c in
  ((48 <=? n) && (n <=? 57)) || ((65 <=? n) && (n <=? 90)) || (n =? 95)
  || ((97 <=? n) && (n <=? 122)) || (n =? 170) || (n =? 178) || (n =? 179)
  || (n =? 181) || (n =? 185) || (n =? 186) || ((188 <=? n) && (n <=? 190))
  || ((192 <=? n) && (n <=? 214)) || ((216 <=? n) && (n <=? 246))
  || (248 <=? n).

Definition is_upper (c : ascii) : bool :=
  let n := nat_of_ascii c in (65 <=? n) && (n <=? 90).

(** [[A-Z]+((?:\w+\/)+\w+)] *)
Definition dexdump_class_regex : regex :=
  Plus (Set_ is_upper) +>
  Group (Plus (Plus (Set_ is_word) +> Chr "/") +> Plus (Set_ is_word)).

(** A tracker of the Exodus list: the named tuple's fields the scanner
    reads. *)
Record tracker : Type := Tracker {
  tracker_name : string;
  code_signature : string;
}.

Section Inspector.
(** What [zipfile.ZipFile] can be given: a path, or the open stream of
    a member; and the [ZipInfo] records of a container. *)
Variables file info : Type.
(** ['%s' % apkfile] *)
Variable show : file -> string.
(** [zipfile.ZipFile(apkfile, 'r').infolist()], or what opening raises *)
Variable infolist : file -> exn + list info.
(** [info.filename] *)
Variable filename : info -> string.
(** [apk_zip.open(info)] *)
Variable open_info : file -> info -> exn + file.
(** [apk_zip.open(info.filename)]: the member of that name *)
Variable open_name : file -> string -> exn + file.
(** [zipfile.is_zipfile(apk_fp)] *)
Variable is_zipfile : file -> exn + bool.
(** [fp.read(3)] *)
Variable read3 : file -> exn + string.
(** [apk_zip.extract(info, tmp_dir)] and the output of [dexdump] on the
    extracted file *)
Variable dexdump : file -> info -> exn + string.
(** [_get_tool().regex['code_signatures']]: each signature with the
    [match] of its compiled pattern *)
Variable code_signatures : list (string * (string -> bool)).

Definition max_depth_message (apkfile : file) : string :=
  "Max recursion depth in ZIP file reached: " +:+ show apkfile.

Definition problem_message (apkfile : file) (ex : string) : string :=
  "Problem with ZIP file: " +:+ show apkfile +:+ ", error " +:+ ex.

(** One turn of [for info in apk_zip.infolist()]; [rec] is the
    recursive call. *)
Definition scan_entry (rec : file -> nat -> res (gset string))
    (apkfile : file) (depth : nat) (classes : gset string) (i : info)
    : res (gset string) :=
  apk_fp ← lift (open_info apkfile i);
  is_zip ← lift (is_zipfile apk_fp);
  if is_zip : bool then
    sub ← rec apk_fp (S depth);
    let classes := classes ∪ sub in
    if search archive_regex (filename i) then mret classes
    else mret (classes ∪
               {[ "ZIP file without proper file extension: " +:+ filename i ]})
  else
    fp ← lift (open_name apkfile (filename i));
    file_magic ← lift (read3 fp);
    if String.eqb file_magic "dex" then
      let classes :=
        if search class_regex (filename i) then classes
        else classes ∪ {[ "DEX file with fake name: " +:+ filename i ]} in
      output ← lift (dexdump apkfile i);
      mret (classes ∪ list_to_set (findall dexdump_class_regex output))
    else mret classes.

(** [for info in apk_zip.infolist()], from the set [acc] on. *)
Definition scan_loop (rec : file -> nat -> res (gset string))
    (apkfile : file) (depth : nat) (infos : list info)
    (acc : res (gset string)) : res (gset string) :=
  fold_left (fun acc i => classes ← acc; scan_entry rec apkfile depth classes i)
    infos acc.

(** The body of the [try] block. *)
Definition scan_entries (rec : file -> nat -> res (gset string))
    (apkfile : file) (depth : nat) : res (gset string) :=
  infos ← lift (infolist apkfile);
  scan_loop rec apkfile depth infos (mret ∅).

(** [except zipfile.BadZipFile as ex: return {...}] *)
Definition except_BadZipFile (apkfile : file) (r : res (gset string))
    : res (gset string) :=
  match r with
  | Some (inl (BadZipFile ex)) => mret {[ problem_message apkfile ex ]}
  | _ => r
  end.

Fixpoint get_embedded_classes (fuel : nat) (apkfile : file) (depth : nat)
    {struct fuel} : res (gset string) :=
  if 10 <? depth then mret {[ max_depth_message apkfile ]}
  else
    match fuel with
    | O => None
    | S fuel' =>
        except_BadZipFile apkfile
          (scan_entries (get_embedded_classes fuel') apkfile depth)
    end.

(** [_detect_tracker] *)
Fixpoint _detect_tracker (sig : string -> bool) (t : tracker)
    (class_list : list string) : option tracker :=
  match class_list with
  | [] => None
  | clazz :: rest =>
      if sig clazz then Some t else _detect_tracker sig t rest
  end.

(** [args]: the compiled signature and the tracker of every tracker
    whose code signature is longer than three characters. *)
Fixpoint tracker_args (index : nat) (trackers : list tracker)
    (compiled : list (string -> bool))
    : exn + list ((string -> bool) * tracker) :=
  match trackers with
  | [] => inr []
  | t :: rest =>
      if 3 <? String.length (code_signature t) then
        match compiled !! index with
        | None => inl (OtherError "IndexError")
        | Some sig =>
            match tracker_args (S index) rest compiled with
            | inl e => inl e
            | inr args => inr ((sig, t) :: args)
            end
        end
      else tracker_args (S index) rest compiled
  end.

(** The first loop of [scan_binary]: one problem per class name and
    matching code signature. *)
Definition count_code_signatures (result : list string) : nat :=
  fold_left (fun problems classname =>
    fold_left (fun problems '(suspect, regexp) =>
      if regexp classname : bool then S problems else problems)
      code_signatures problems)
    result 0.

Definition scan_binary (fuel : nat) (apkfile : file)
    (extract_signatures : option (list tracker * list (string -> bool)))
    : res nat :=
  result ← get_embedded_classes fuel apkfile 0;
  let class_list := elements result in
  let problems := count_code_signatures class_list in
  match extract_signatures with
  | Some (trackers, compiled) =>
      args ← lift (tracker_args 0 trackers compiled);
      let results :=
        omap (fun '(sig, t) => _detect_tracker sig t class_list) args in
      mret (problems + length results)
  | None => mret problems
  end.

(** *** Facts about the inspector *)


Lemma get_embedded_classes_step (fuel : nat) (apkfile : file) (depth : nat) :
  depth <= 10 ->
  get_embedded_classes (S fuel) apkfile depth
    = except_BadZipFile apkfile
        (scan_entries (get_embedded_classes fuel) apkfile depth).
Proof.
  intros Hd. cbn [get_embedded_classes].
  destruct (10 <? depth) eqn:Hlt; [|done].
  apply Nat.ltb_lt in Hlt. lia.
Qed.

Lemma scan_entries_unfold rec apkfile depth :
  scan_entries rec apkfile depth =
    match infolist apkfile with
    | inl e => Some (inl e)
    | inr infos => scan_loop rec apkfile depth infos (Some (inr ∅))
    end.
Proof. unfold scan_entries. by destruct (infolist apkfile). Qed.

Lemma scan_loop_cons rec apkfile depth i infos acc :
  scan_loop rec apkfile depth (i :: infos) acc
    = scan_loop rec apkfile depth infos
        (classes ← acc; scan_entry rec apkfile depth classes i).
Proof. reflexivity. Qed.

Lemma scan_loop_None rec apkfile depth infos :
  scan_loop rec apkfile depth infos None = None.
Proof. induction infos as [|i infos IH]; [done|]. by rewrite scan_loop_cons. Qed.

Lemma scan_loop_raise rec apkfile depth infos e :
  scan_loop rec apkfile depth infos (Some (inl e)) = Some (inl e).
Proof. induction infos as [|i infos IH]; [done|]. by rewrite scan_loop_cons. Qed.








(** A turn of the loop only adds to the set. *)
Lemma scan_entry_grows rec apkfile depth classes i s :
  scan_entry rec apkfile depth classes i = Some (inr s) -> classes ⊆ s.
Proof.
  unfold scan_entry.
  destruct (open_info apkfile i) as [e|apk_fp]; [done|]. cbn.
  destruct (is_zipfile apk_fp) as [e|[]]; [done| |]; cbn.
  - destruct (rec apk_fp (S depth)) as [[e|sub]|]; [done| |done]. cbn.
    destruct (search _ _); intros [= <-]; set_solver.
  - destruct (open_name apkfile (filename i)) as [e|fp]; [done|]. cbn.
    destruct (read3 fp) as [e|magic]; [done|]. cbn.
    destruct (String.eqb magic "dex"); [|by intros [= <-]].
    destruct (dexdump apkfile i) as [e|out]; [done|]. cbn.
    destruct (search _ _); intros [= <-]; set_solver.
Qed.

Lemma scan_loop_grows rec apkfile depth infos acc s :
  scan_loop rec apkfile depth infos acc = Some (inr s) ->
  exists a, acc = Some (inr a) /\ a ⊆ s.
Proof.
  revert acc. induction infos as [|i infos IH]; intros acc Hs.
  - exists s. by split.
  - rewrite scan_loop_cons in Hs. apply IH in Hs as (a' & Ha' & Hsub).
    destruct acc as [[e|a]|]; [done| |done]. cbn in Ha'.
    exists a. split; [done|].
    apply scan_entry_grows in Ha'. set_solver.
Qed.








Lemma scan_loop_app rec apkfile depth infos1 infos2 acc :
  scan_loop rec apkfile depth (infos1 ++ infos2) acc
    = scan_loop rec apkfile depth infos2
        (scan_loop rec apkfile depth infos1 acc).
Proof. unfold scan_loop. apply fold_left_app. Qed.

(** C8, amended: when [zipfile] raises [BadZipFile], on opening the
    container or anywhere in the loop over its members (what the loop
    had found before is dropped), the result is the set with the single
    message [Problem with ZIP file: ..., error ...] and nothing is
    raised; any other exception raised in the [try] block reaches the
    caller. *)
Theorem bad_zip_file_reported (fuel : nat) (apkfile : file) (depth : nat) :
  depth <= 10 ->
  (forall ex,
     infolist apkfile = inl (BadZipFile ex) ->
     get_embedded_classes (S fuel) apkfile depth
       = Some (inr {[ problem_message apkfile ex ]})) /\
  (forall ex infos1 i infos2 classes,
     infolist apkfile = inr (infos1 ++ i :: infos2) ->
     scan_loop (get_embedded_classes fuel) apkfile depth infos1 (Some (inr ∅))
       = Some (inr classes) ->
     open_info apkfile i = inl (BadZipFile ex) ->
     get_embedded_classes (S fuel) apkfile depth
       = Some (inr {[ problem_message apkfile ex ]})) /\
  (forall ex,
     scan_entries (get_embedded_classes fuel) apkfile depth
       = Some (inl (BadZipFile ex)) ->
     get_embedded_classes (S fuel) apkfile depth
       = Some (inr {[ problem_message apkfile ex ]})) /\
  (forall descr,
     scan_entries (get_embedded_classes fuel) apkfile depth
       = Some (inl (OtherError descr)) ->
     get_embedded_classes (S fuel) apkfile depth
       = Some (inl (OtherError descr))).
Proof.
  intros Hd. rewrite get_embedded_classes_step by done.
  split; [|split; [|split]].
  - intros ex Hex. rewrite scan_entries_unfold, Hex. reflexivity.
  - intros ex infos1 i infos2 classes Hinfos Hbefore Hopen.
    rewrite scan_entries_unfold, Hinfos, scan_loop_app, Hbefore.
    rewrite scan_loop_cons. cbn [mbind res_bind].
    unfold scan_entry. rewrite Hopen. cbn [lift mbind res_bind].
    by rewrite scan_loop_raise.
  - intros ex ->. reflexivity.
  - intros descr ->. reflexivity.
Qed.

Lemma tracker_args_drop (index : nat) (trackers : list tracker)
    (compiled : list (string -> bool)) :
  tracker_args index trackers compiled
    = tracker_args 0 trackers (drop index compiled).
Proof.
  revert index compiled.
  induction trackers as [|t rest IH]; intros index compiled; [done|].
  cbn [tracker_args].
  rewrite (IH (S index) compiled), (IH 1 (drop index compiled)).
  rewrite drop_drop, lookup_drop, Nat.add_0_r, Nat.add_1_r.
  reflexivity.
Qed.

Lemma tracker_args_insert (t1 t2 : list tracker) (t : tracker)
    (c1 c2 : list (string -> bool)) (m : string -> bool) :
  length c1 = length t1 ->
  String.length (code_signature t) <= 3 ->
  tracker_args 0 (t1 ++ t :: t2) (c1 ++ m :: c2)
    = tracker_args 0 (t1 ++ t2) (c1 ++ c2).
Proof.
  intros Hlen Hshort. revert c1 Hlen.
  induction t1 as [|a t1 IH]; intros c1 Hlen.
  - destruct c1; [|done]. cbn [app tracker_args].
    replace (3 <? String.length (code_signature t)) with false
      by (symmetry; apply Nat.ltb_ge; lia).
    by rewrite tracker_args_drop.
  - destruct c1 as [|b c1]; [done|]. cbn [app tracker_args].
    rewrite (tracker_args_drop 1 _ (b :: c1 ++ m :: c2)).
    rewrite (tracker_args_drop 1 _ (b :: c1 ++ c2)).
    cbn [drop]. rewrite !drop_0, IH by (cbn in Hlen; lia).
    reflexivity.
Qed.

(** C10: a tracker whose code signature has three characters or fewer
    takes no part in [scan_binary]: with it in the extracted list, at any
    place and whatever its compiled signature matches, the result is the
    result without it. *)
Theorem short_signature_tracker_skipped (fuel : nat) (apkfile : file)
    (t1 t2 : list tracker) (t : tracker)
    (c1 c2 : list (string -> bool)) (m : string -> bool) :
  length c1 = length t1 ->
  String.length (code_signature t) <= 3 ->
  scan_binary fuel apkfile (Some (t1 ++ t :: t2, c1 ++ m :: c2))
    = scan_binary fuel apkfile (Some (t1 ++ t2, c1 ++ c2)).
Proof.
  intros Hlen Hshort. unfold scan_binary.
  by rewrite tracker_args_insert.
Qed.

(** *** What the members of a container contribute *)

(** When the loop completes, every member had its turn, and what the
    turn returned is part of the result. *)
Lemma scan_loop_entry rec apkfile depth infos acc s i :
  scan_loop rec apkfile depth infos acc = Some (inr s) ->
  In i infos ->
  exists before after,
    scan_entry rec apkfile depth before i = Some (inr after) /\ after ⊆ s.
Proof.
  intros Hs Hin. revert acc Hs.
  induction infos as [|i0 infos IH]; intros acc Hs; [done|].
  rewrite scan_loop_cons in Hs. destruct Hin as [->|Hin]; [|by eapply IH].
  apply scan_loop_grows in Hs as (a' & Ha' & Hsub).
  destruct acc as [[e|a]|]; [done| |done]. cbn in Ha'.
  by exists a, a'.
Qed.

Lemma completed_try_block (fuel : nat) (apkfile : file) (depth : nat)
    (s : gset string) :
  depth <= 10 ->
  scan_entries (get_embedded_classes fuel) apkfile depth = Some (inr s) ->
  get_embedded_classes (S fuel) apkfile depth = Some (inr s).
Proof. intros Hd Hs. by rewrite get_embedded_classes_step, Hs. Qed.

(** X12: a member that [is_zipfile] accepts is scanned as a container of
    its own.  When the [try] block of the outer container runs to its
    end, the names found in the member are in the result; a member whose
    name lacks an archive extension is reported; and a member the zip
    library then rejects with [BadZipFile] is reported by its own call,
    which returns, so the scan of the outer container goes on. *)
Theorem nested_archive_contributes (fuel : nat) (apkfile : file) (depth : nat)
    (infos : list info) (i : info) (child : file) (s : gset string) :
  depth <= 10 ->
  infolist apkfile = inr infos ->
  In i infos ->
  open_info apkfile i = inr child ->
  is_zipfile child = inr true ->
  scan_entries (get_embedded_classes fuel) apkfile depth = Some (inr s) ->
  get_embedded_classes (S fuel) apkfile depth = Some (inr s) /\
  (exists sub,
     get_embedded_classes fuel child (S depth) = Some (inr sub) /\ sub ⊆ s) /\
  (search archive_regex (filename i) = false ->
   "ZIP file without proper file extension: " +:+ filename i ∈ s) /\
  (forall ex,
     depth < 10 ->
     infolist child = inl (BadZipFile ex) ->
     problem_message child ex ∈ s).
Proof.
  intros Hd Hinfos Hin Hopen Hzip Hs.
  split; [by apply completed_try_block|].
  rewrite scan_entries_unfold, Hinfos in Hs.
  destruct (scan_loop_entry _ _ _ _ _ _ _ Hs Hin)
    as (before & after & Hturn & Hafter).
  unfold scan_entry in Hturn. rewrite Hopen in Hturn. cbn [lift mbind res_bind] in Hturn.
  rewrite Hzip in Hturn. cbn [lift mbind res_bind] in Hturn.
  destruct (get_embedded_classes fuel child (S depth)) as [[e|sub]|] eqn:Hsub;
    [done| |done].
  cbn [lift mbind res_bind] in Hturn.
  assert (sub ⊆ s) as Hsubs.
  { destruct (search _ _); injection Hturn as <-; set_solver. }
  split; [by exists sub|]. split.
  - intros Hname. rewrite Hname in Hturn. injection Hturn as <-. set_solver.
  - intros ex Hlt Hbad. apply Hsubs.
    destruct fuel as [|fuel].
    + cbn [get_embedded_classes] in Hsub.
      destruct (10 <? S depth) eqn:Hdeep; [|done].
      apply Nat.ltb_lt in Hdeep. lia.
    + rewrite get_embedded_classes_step in Hsub by lia.
      rewrite scan_entries_unfold, Hbad in Hsub.
      cbn [except_BadZipFile mret res_ret] in Hsub.
      injection Hsub as <-. set_solver.
Qed.

(** X13: a member that is no zip file and starts with the bytes [dex]
    is given to [dexdump].  When the [try] block runs to its end, every
    class name the pattern finds in the output is in the result, and a
    member whose name does not have [classes] before [.dex] is
    reported as a DEX file with a fake name. *)
Theorem dex_member_contributes (fuel : nat) (apkfile : file) (depth : nat)
    (infos : list info) (i : info) (apk_fp fp : file) (s : gset string) :
  depth <= 10 ->
  infolist apkfile = inr infos ->
  In i infos ->
  open_info apkfile i = inr apk_fp ->
  is_zipfile apk_fp = inr false ->
  open_name apkfile (filename i) = inr fp ->
  read3 fp = inr "dex" ->
  scan_entries (get_embedded_classes fuel) apkfile depth = Some (inr s) ->
  get_embedded_classes (S fuel) apkfile depth = Some (inr s) /\
  (exists output,
     dexdump apkfile i = inr output /\
     forall clazz, In clazz (findall dexdump_class_regex output) -> clazz ∈ s) /\
  (search class_regex (filename i) = false ->
   "DEX file with fake name: " +:+ filename i ∈ s).
Proof.
  intros Hd Hinfos Hin Hopen Hzip Hname Hmagic Hs.
  split; [by apply completed_try_block|].
  rewrite scan_entries_unfold, Hinfos in Hs.
  destruct (scan_loop_entry _ _ _ _ _ _ _ Hs Hin)
    as (before & after & Hturn & Hafter).
  unfold scan_entry in Hturn. rewrite Hopen in Hturn. cbn [lift mbind res_bind] in Hturn.
  rewrite Hzip in Hturn. cbn [lift mbind res_bind] in Hturn. rewrite Hname in Hturn. cbn [lift mbind res_bind] in Hturn.
  rewrite Hmagic in Hturn. cbn [lift mbind res_bind] in Hturn.
  destruct (dexdump apkfile i) as [e|output]; [done|]. cbn [lift mbind res_bind] in Hturn.
  injection Hturn as <-. split.
  - exists output. split; [done|]. intros clazz Hc. apply Hafter.
    apply elem_of_union_r, elem_of_list_to_set. by apply list_elem_of_In.
  - intros Hfake. rewrite Hfake in Hafter. set_solver.
Qed.

(** *** The compiled tracker list *)

(** [re.compile] on a code signature, as the [search] of the compiled
    pattern; [None] where it raises [re.error]. *)
Variable re_compile : string -> option (string -> bool).







(** *** The count of the code signatures *)





End Inspector.

(** *** Three environments *)




(** A container the zip library rejects on opening. *)
Definition corrupt (fuel : nat) (apkfile : string) (depth : nat)
    : res (gset string) :=
  get_embedded_classes string unit
    (fun path => path) (fun _ => inl (BadZipFile "File is not a zip file"))
    (fun _ => "") (fun _ _ => inl (OtherError "unreachable"))
    (fun _ _ => inl (OtherError "unreachable"))
    (fun _ => inr false) (fun _ => inr "") (fun _ _ => inr "")
    fuel apkfile depth.

Lemma bad_zip_file_reported_witness :
  corrupt 11 "broken.apk" 0
    = Some (inr {[ "Problem with ZIP file: broken.apk, error File is not a zip file" ]}).
Proof.
  apply (proj1
    (bad_zip_file_reported string unit
       (fun path => path) (fun _ => inl (BadZipFile "File is not a zip file"))
       (fun _ => "") (fun _ _ => inl (OtherError "unreachable"))
       (fun _ _ => inl (OtherError "unreachable"))
       (fun _ => inr false) (fun _ => inr "") (fun _ _ => inr "")
       10 "broken.apk" 0 ltac:(lia))
    "File is not a zip file").
  reflexivity.
Defined.

(** A container the operating system refuses to open: [zipfile.ZipFile]
    raises [PermissionError], which is no [BadZipFile]. *)
Definition unreadable (fuel : nat) (apkfile : string) (depth : nat)
    : res (gset string) :=
  get_embedded_classes string unit
    (fun path => path)
    (fun _ => inl (OtherError "PermissionError: [Errno 13] Permission denied"))
    (fun _ => "") (fun _ _ => inl (OtherError "unreachable"))
    (fun _ _ => inl (OtherError "unreachable"))
    (fun _ => inr false) (fun _ => inr "") (fun _ _ => inr "")
    fuel apkfile depth.

(** C8, as stated, fails: for the unreadable container the call returns
    no set; the exception reaches the caller. *)
Lemma unreadable_container_raises :
  unreadable 11 "locked.apk" 0
    = Some (inl (OtherError "PermissionError: [Errno 13] Permission denied")).
Proof. reflexivity. Qed.






(** The binary scan of the self-containing zip file with an extracted
    tracker list. *)
Definition scan_quine
    (extract_signatures : option (list tracker * list (string -> bool)))
    : res nat :=
  scan_binary unit unit
    (fun _ => "r.zip") (fun _ => inr [tt]) (fun _ => "r.zip")
    (fun _ _ => inr tt) (fun _ _ => inr tt) (fun _ => inr true)
    (fun _ => inr "PK") (fun _ _ => inr "")
    [] 11 tt extract_signatures.

Lemma short_signature_tracker_skipped_witness :
  scan_quine
    (Some ([Tracker "Max" "Max recursion"] ++ Tracker "Any" "" :: [],
           [fun clazz => contains clazz "Max recursion"]
             ++ (fun _ => true) :: []))
  = scan_quine
      (Some ([Tracker "Max" "Max recursion"] ++ [],
             [fun clazz => contains clazz "Max recursion"] ++ [])).
Proof.
  apply (short_signature_tracker_skipped unit unit
    (fun _ => "r.zip") (fun _ => inr [tt]) (fun _ => "r.zip")
    (fun _ _ => inr tt) (fun _ _ => inr tt) (fun _ => inr true)
    (fun _ => inr "PK") (fun _ _ => inr "") [] 11 tt
    [Tracker "Max" "Max recursion"] [] (Tracker "Any" "")
    [fun clazz => contains clazz "Max recursion"] [] (fun _ => true)).
  - reflexivity.
  - cbn. lia.
Defined.





(** An application package with two members: a zip file under a name
    without archive extension, which the zip library rejects once it is
    opened, and DEX code under the name of a shared library. *)
Definition bundle_infolist (f : string) : exn + list string :=
  if String.eqb f "app.apk" then inr ["assets/payload.bin"; "lib/fake.so"]
  else inl (BadZipFile "Bad magic number for central directory").

Definition bundle_open (f member : string) : exn + string :=
  inr (f +:+ "!" +:+ member).

Definition bundle_classes (fuel : nat) (depth : nat) : res (gset string) :=
  get_embedded_classes string string
    (fun f => f) bundle_infolist (fun i => i) bundle_open bundle_open
    (fun f => inr (endswith f ".bin"))
    (fun f => inr (if endswith f ".so" then "dex" else "PK"))
    (fun _ _ => inr "Class descriptor  : 'Lcom/example/Main;'")
    fuel "app.apk" depth.

Lemma bundle_try_block :
  exists s,
    scan_entries string string bundle_infolist (fun i => i)
      bundle_open bundle_open
      (fun f => inr (endswith f ".bin"))
      (fun f => inr (if endswith f ".so" then "dex" else "PK"))
      (fun _ _ => inr "Class descriptor  : 'Lcom/example/Main;'")
      (get_embedded_classes string string
         (fun f => f) bundle_infolist (fun i => i) bundle_open bundle_open
         (fun f => inr (endswith f ".bin"))
         (fun f => inr (if endswith f ".so" then "dex" else "PK"))
         (fun _ _ => inr "Class descriptor  : 'Lcom/example/Main;'") 1)
      "app.apk" 0
    = Some (inr s).
Proof. apply returns_value. by vm_compute. Qed.

Lemma nested_archive_contributes_witness :
  exists s,
    bundle_classes 2 0 = Some (inr s) /\
    "ZIP file without proper file extension: assets/payload.bin" ∈ s /\
    "Problem with ZIP file: app.apk!assets/payload.bin, error Bad magic number for central directory"
      ∈ s.
Proof.
  destruct bundle_try_block as [s Hs]. exists s.
  destruct (nested_archive_contributes string string
              (fun f => f) bundle_infolist (fun i => i) bundle_open bundle_open
              (fun f => inr (endswith f ".bin"))
              (fun f => inr (if endswith f ".so" then "dex" else "PK"))
              (fun _ _ => inr "Class descriptor  : 'Lcom/example/Main;'")
              1 "app.apk" 0 ["assets/payload.bin"; "lib/fake.so"]
              "assets/payload.bin" "app.apk!assets/payload.bin" s)
    as (Hret & _ & Hname & Hbad).
  - lia.
  - reflexivity.
  - by left.
  - reflexivity.
  - reflexivity.
  - exact Hs.
  - split; [exact Hret|]. split.
    + apply Hname. by vm_compute.
    + apply (Hbad "Bad magic number for central directory"); [lia|reflexivity].
Defined.

Lemma dex_member_contributes_witness :
  exists s,
    bundle_classes 2 0 = Some (inr s) /\
    "com/example/Main" ∈ s /\
    "DEX file with fake name: lib/fake.so" ∈ s.
Proof.
  destruct bundle_try_block as [s Hs]. exists s.
  destruct (dex_member_contributes string string
              (fun f => f) bundle_infolist (fun i => i) bundle_open bundle_open
              (fun f => inr (endswith f ".bin"))
              (fun f => inr (if endswith f ".so" then "dex" else "PK"))
              (fun _ _ => inr "Class descriptor  : 'Lcom/example/Main;'")
              1 "app.apk" 0 ["assets/payload.bin"; "lib/fake.so"]
              "lib/fake.so" "app.apk!lib/fake.so" "app.apk!lib/fake.so" s)
    as (Hret & (output & Hout & Hclasses) & Hname).
  - lia.
  - reflexivity.
  - right. by left.
  - reflexivity.
  - reflexivity.
  - reflexivity.
  - reflexivity.
  - exact Hs.
  - split; [exact Hret|]. split.
    + apply Hclasses. injection Hout as <-. vm_compute. by left.
    + apply Hname. by vm_compute.
Defined.

(** *** The two name checks *)

Definition archive_extensions : list string :=
  [ "aab"; "aar"; "apk"; "apks"; "jar"; "war"; "xapk"; "zip" ].

Definition not_newline (c : ascii) : bool := negb (Ascii.eqb c newline).

Lemma archive_extension_matches (ext : string) :
  In ext archive_extensions ->
  matches archive_regex ("." +:+ ext) = true /\
  matches archive_regex ("." +:+ ext +:+ nl) = true.
Proof.
  cbn [archive_extensions In].
  intros [<-|[<-|[<-|[<-|[<-|[<-|[<-|[<-|[]]]]]]]]]; by vm_compute.
Qed.

(** X16: the member names [get_embedded_classes] takes for archives are
    those that end with a dot and one of the eight extensions; as [$]
    also matches in front of a final line feed, such a name with one line
    feed after it passes as well.  Every other name of a nested zip file
    is reported as being without proper file extension. *)
Theorem archive_regex_extensions (name : string) :
  search archive_regex name = true <->
  exists stem ext,
    In ext archive_extensions /\
    (name = stem +:+ "." +:+ ext \/ name = stem +:+ "." +:+ ext +:+ nl).
Proof.
  split.
  - intros (a & b & -> & Hb)%search_inv.
    unfold matches, match_ in Hb.
    destruct (exec archive_regex b None _) as [x|] eqn:Hx; [clear Hb|done].
    unfold archive_regex in Hx. rewrite exec_Seq_eq in Hx.
    apply (star_greedy_inv (A := string * option string)) in Hx
      as (a' & b' & -> & _ & Hx).
    rewrite exec_Seq_eq in Hx.
    apply exec_Chr_inv in Hx as (s1 & -> & Hx).
    assert (exists ext s2, In ext archive_extensions /\ s1 = ext +:+ s2 /\
                           (s2 = "" \/ s2 = nl)) as (ext & s2 & Hin & -> & Hs2).
    { rewrite exec_Seq_eq, exec_Group_eq in Hx.
      repeat (apply exec_Alt_inv in Hx as [Hx|Hx]);
        apply exec_Lit_inv in Hx as (s2 & -> & Hx);
        apply exec_Eos_inv in Hx as [Hx _];
        eexists _, s2; (split; [|split; [reflexivity|exact Hx]]);
        cbn; tauto. }
    exists (a +:+ a'), ext. split; [done|].
    destruct Hs2 as [->| ->].
    + left. by rewrite append_nil_r, append_assoc.
    + right. by rewrite append_assoc.
  - intros (stem & ext & Hin & [-> | ->]); apply search_suffix;
      by apply archive_extension_matches.
Qed.

(** X17: the names of DEX members [get_embedded_classes] takes for
    genuine are those in which [classes] is followed, on the same line,
    by [.dex]; the pattern is searched for, so text before and after is
    free.  Every other name of a member that starts with the DEX magic is
    reported as fake. *)
Theorem class_regex_names (name : string) :
  search class_regex name = true <->
  exists a m b,
    name = a +:+ "classes" +:+ m +:+ ".dex" +:+ b /\
    all_chars not_newline m = true.
Proof.
  split.
  - intros (a & b & -> & Hb)%search_inv.
    unfold matches, match_ in Hb.
    destruct (exec class_regex b None _) as [x|] eqn:Hx; [clear Hb|done].
    unfold class_regex in Hx. rewrite exec_Seq_eq in Hx.
    apply exec_Lit_inv in Hx as (s1 & -> & Hx).
    rewrite exec_Seq_eq in Hx.
    apply (star_greedy_inv (A := string * option string)) in Hx
      as (m & s2 & -> & Hm & Hx).
    apply exec_Lit_inv in Hx as (s3 & -> & _).
    by exists a, m, s3.
  - intros (a & m & b & -> & Hm). apply search_suffix.
    unfold matches, match_, class_regex.
    rewrite exec_Seq_eq, run_Lit, exec_Seq_eq.
    destruct (star_greedy_some (A := string * option string)
                not_newline m (".dex" +:+ b) None
                (fun s' g' => exec (Lit ".dex") s' g' (fun s' g => Some (s', g))))
      as [y Hy]; [done|by rewrite run_Lit|].
    change (Star true Dot) with (Star true (Set_ not_newline)).
    by rewrite Hy.
Qed.

End Archive.

(** ** The source scan: [scan_source]

    The nested functions of [scan_source] share its local variables
    ([scanignore_worked], [scandelete_worked]) and the module's globals
    ([json_per_build], the logger); with the files on disk these make up
    the state the handlers are threaded through.  What the scan only
    reads is its environment [env].  [gettext] is taken as the identity
    (the untranslated messages). *)

Module Source.
Import Py Re.
Local Open Scope regex_scope.

Inductive exn : Type :=
| FileNotFoundError (path : string)
| TypeError.

Inductive level : Type := DEBUG | INFO | WARNING | ERROR | CRITICAL.

(** [json_per_build]: three lists of [[what, path_in_build_dir]]. *)
Record report : Type := Report {
  errors : list (string * string);
  warnings : list (string * string);
  infos : list (string * string);
}.

Definition DEFAULT_JSON_PER_BUILD : report := Report [] [] [].

(** The parsed command line, as far as the scan reads it: [options.verbose]
    and, when the namespace has the attribute, [options.json]. *)
Record options_t : Type := Options {
  verbose : bool;
  json : option bool;
}.

(** What the scan observes of a file on disk. *)
Record file : Type := File {
  islink : bool;            (* os.path.islink *)
  isfile : bool;            (* os.path.isfile *)
  readlines : list string;  (* its lines, read as text *)
  content : string;         (* its bytes *)
  executable : bool;        (* os.access(path, os.X_OK) *)
  image : bool;             (* imghdr.what(path) is not None *)
}.

Record state : Type := State {
  fs : gmap string file;
  scanignore_worked : gset string;
  scandelete_worked : gset string;
  json_per_build : option report;
  log : list (level * string);
}.

(** The read-only surroundings of a scan: the [options] global, the two
    path maps [common.getpaths_map] returns for [build.scanignore] and
    [build.scandelete] (each key with the paths it expands to, in the
    dict's order), the compiled [gradle_signatures] of the scanner tool
    (each with the [match] of its pattern), [common.gradle_comment.match]
    and [build.gradle]. *)
Record env : Type := Env {
  options : option options_t;
  scanignore : list (string * list string);
  scandelete : list (string * list string);
  gradle_signatures : list (string * (string -> bool));
  gradle_comment : string -> bool;
  build_gradle : list string;
}.

Definition M (A : Type) : Type := state -> (exn + A) * state.

#[local] Instance M_ret : MRet M := fun A x st => (inr x, st).
#[local] Instance M_bind : MBind M := fun A B f m st =>
  match m st with
  | (inl e, st') => (inl e, st')
  | (inr x, st') => f x st'
  end.

Definition raise {A} (e : exn) : M A := fun st => (inl e, st).
Definition get : M state := fun st => (inr st, st).

Definition logging (l : level) (msg : string) : M unit := fun st =>
  (inr tt, State (fs st) (scanignore_worked st) (scandelete_worked st)
             (json_per_build st) (log st ++ [(l, msg)])).

(** [if json_per_build is not None: json_per_build[key].append(entry)] *)
Definition append_info (entry : string * string) : M unit := fun st =>
  (inr tt, State (fs st) (scanignore_worked st) (scandelete_worked st)
             (match json_per_build st with
              | Some r => Some (Report (errors r) (warnings r) (infos r ++ [entry]))
              | None => None
              end) (log st)).

Definition append_warning (entry : string * string) : M unit := fun st =>
  (inr tt, State (fs st) (scanignore_worked st) (scandelete_worked st)
             (match json_per_build st with
              | Some r => Some (Report (errors r) (warnings r ++ [entry]) (infos r))
              | None => None
              end) (log st)).

(** [json_per_build['errors'].append(entry)], with no test for [None]. *)
Definition append_error (entry : string * string) : M unit := fun st =>
  match json_per_build st with
  | Some r =>
      (inr tt, State (fs st) (scanignore_worked st) (scandelete_worked st)
                 (Some (Report (errors r ++ [entry]) (warnings r) (infos r)))
                 (log st))
  | None => (inl TypeError, st)
  end.

(** [os.remove(filepath)]: it removes the file, or raises
    [FileNotFoundError] when there is none; a file system that refuses
    the removal for another reason is not part of the model. *)
Definition os_remove (filepath : string) : M unit := fun st =>
  match fs st !! filepath with
  | Some _ =>
      (inr tt, State (delete filepath (fs st)) (scanignore_worked st)
                 (scandelete_worked st) (json_per_build st) (log st))
  | None => (inl (FileNotFoundError filepath), st)
  end.

(** [try: body except FileNotFoundError: pass] *)
Definition except_FileNotFoundError (body : M unit) : M unit := fun st =>
  match body st with
  | (inl (FileNotFoundError _), st') => (inr tt, st')
  | r => r
  end.

(** The first key of a path map one of whose paths is a prefix of
    [path_in_build_dir]: where the two nested loops of [toignore] and
    [todelete] return. *)
Fixpoint first_match (policy : list (string * list string))
    (path_in_build_dir : string) : option string :=
  match policy with
  | [] => None
  | (k, paths) :: rest =>
      if existsb (startswith path_in_build_dir) paths then Some k
      else first_match rest path_in_build_dir
  end.

(** ['src/test' in path_in_build_dir or '/test/' in path_in_build_dir] *)
Definition test_path (path_in_build_dir : string) : bool :=
  contains path_in_build_dir "src/test" || contains path_in_build_dir "/test/".

Section Scan.
Variable e : env.

Definition toignore (path_in_build_dir : string) : M bool := fun st =>
  match first_match (scanignore e) path_in_build_dir with
  | Some k =>
      (inr true, State (fs st) ({[k]} ∪ scanignore_worked st)
                   (scandelete_worked st) (json_per_build st) (log st))
  | None => (inr false, st)
  end.

Definition todelete (path_in_build_dir : string) : M bool := fun st =>
  match first_match (scandelete e) path_in_build_dir with
  | Some k =>
      (inr true, State (fs st) (scanignore_worked st)
                   ({[k]} ∪ scandelete_worked st) (json_per_build st) (log st))
  | None => (inr false, st)
  end.

Definition ignoreproblem (what path_in_build_dir : string) : M nat :=
  let msg := "Ignoring " +:+ what +:+ " at " +:+ path_in_build_dir in
  logging INFO msg;;
  append_info (msg, path_in_build_dir);;
  mret 0.

Definition removeproblem (what path_in_build_dir filepath : string) : M nat :=
  let msg := "Removing " +:+ what +:+ " at " +:+ path_in_build_dir in
  logging INFO msg;;
  append_info (msg, path_in_build_dir);;
  except_FileNotFoundError (os_remove filepath);;
  mret 0.

Definition warnproblem (what path_in_build_dir : string) : M nat :=
  ignored ← toignore path_in_build_dir;
  if ignored : bool then mret 0
  else
    logging WARNING ("Found " +:+ what +:+ " at " +:+ path_in_build_dir);;
    append_warning (what, path_in_build_dir);;
    mret 0.

(** [options and 'json' in vars(options) and options.json] *)
Definition json_output : bool :=
  match options e with
  | Some o => default false (json o)
  | None => false
  end.

(** [options and (options.verbose or not ('json' in vars(options) and
    options.json))] *)
Definition error_logged : bool :=
  match options e with
  | Some o => verbose o || negb (default false (json o))
  | None => false
  end.

Definition handleproblem (what path_in_build_dir filepath : string) : M nat :=
  ignored ← toignore path_in_build_dir;
  if ignored : bool then ignoreproblem what path_in_build_dir
  else
    deleted ← todelete path_in_build_dir;
    if deleted : bool then removeproblem what path_in_build_dir filepath
    else if test_path path_in_build_dir then warnproblem what path_in_build_dir
    else
      (if json_output then append_error (what, path_in_build_dir) else mret tt);;
      (if error_logged
       then logging ERROR ("Found " +:+ what +:+ " at " +:+ path_in_build_dir)
       else mret tt);;
      mret 1.

(** [for what in whats: count += handleproblem(what, ...)] *)
Fixpoint handleproblems (whats : list string)
    (path_in_build_dir filepath : string) : M nat :=
  match whats with
  | [] => mret 0
  | what :: rest =>
      n ← handleproblem what path_in_build_dir filepath;
      m ← handleproblems rest path_in_build_dir filepath;
      mret (n + m)
  end.

(** *** The patterns of the module *)

Definition space : regex := Set_ is_space.
Definition quote : regex :=
  Set_ (fun c => Ascii.eqb c dquote || Ascii.eqb c "'").
Definition url_char (c : ascii) : bool :=
  negb (is_space c || Ascii.eqb c dquote || Ascii.eqb c "'").
Definition not_closing (c : ascii) : bool :=
  negb (Ascii.eqb c "}" || Ascii.eqb c ")").
Definition closing (c : ascii) : bool :=
  Ascii.eqb c ")" || Ascii.eqb c "}".

(** [\smaven\s*(?:{.*?(?:setUrl|url)|\((?:url)?)\s*=?\s*(?:uri)?\(?\s*
     Q?([^\sQ]+)Q?[^})]*[)}]], compiled with [re.DOTALL], where [Q] stands
    for the class of the single and the double quote *)
Definition MAVEN_URL_REGEX : regex :=
  space +> Lit "maven" +> Star true space +>
  ((Chr "{" +> Star false Any +> (Lit "setUrl" </> Lit "url"))
   </> (Chr "(" +> Opt (Lit "url"))) +>
  Star true space +> Opt (Chr "=") +> Star true space +>
  Opt (Lit "uri") +> Opt (Chr "(") +> Star true space +> Opt quote +>
  Group (Plus (Set_ url_char)) +>
  Opt quote +> Star true (Set_ not_closing) +> Set_ closing.

(** [/\*.*?\*/] with [re.DOTALL] *)
Definition block_comment : regex :=
  Lit "/*" +> Star false Any +> Lit "*/".

(** [.*\.so(\..+)*$] *)
Definition shared_library : regex :=
  Star true Dot +> Lit ".so" +> Star true (Group (Chr "." +> Plus Dot)) +> Eos.

(** The false positive patterns for files that are binary and
    executable: [.*/drawable[^/]*/.*\.png$] and [.*/mipmap[^/]*/.*\.png$]. *)
Definition not_slash (c : ascii) : bool := negb (Ascii.eqb c "/").
Definition safe_paths : list regex :=
  [ Star true Dot +> Lit "/drawable" +> Star true (Set_ not_slash) +> Chr "/"
      +> Star true Dot +> Lit ".png" +> Eos;
    Star true Dot +> Lit "/mipmap" +> Star true (Set_ not_slash) +> Chr "/"
      +> Star true Dot +> Lit ".png" +> Eos ].

Definition safe_path (path_in_build_dir : string) : bool :=
  existsb (fun sp => matches sp path_in_build_dir) safe_paths.

(** [^https://] or [^file://], the escaped repository, then [/*]; the
    patterns are used with [match] only, where [^] holds. *)
Definition allowed_repos : list regex :=
  map (fun repo => Lit ("https://" +:+ repo) +> Star true (Chr "/"))
    [ "repo1.maven.org/maven2";
      "jcenter.bintray.com";
      "jitpack.io";
      "www.jitpack.io";
      "repo.maven.apache.org/maven2";
      "oss.jfrog.org/artifactory/oss-snapshot-local";
      "oss.sonatype.org/content/repositories/snapshots";
      "oss.sonatype.org/content/repositories/releases";
      "oss.sonatype.org/content/groups/public";
      "clojars.org/repo";
      "repo.clojars.org";
      "s3.amazonaws.com/repo.commonsware.com";
      "plugins.gradle.org/m2";
      "maven.google.com" ]
  ++ map (fun repo => Lit ("file://" +:+ repo) +> Star true (Chr "/"))
    [ "/usr/share/maven-repo" ].

(** [any(r.match(url) for r in allowed_repos)] *)
Definition allowed_repo (url : string) : bool :=
  existsb (fun r => matches r url) allowed_repos.

Definition allowlisted : list string :=
  [ "firebase-jobdispatcher"; "com.firebaseui"; "geofire-android";
    "com.yandex.android:authsdk"; "com.hypertrack:hyperlog" ].

Definition is_allowlisted (s : string) : bool :=
  existsb (fun al => contains s al) allowlisted.

(** [suspects_found]: the names it yields, in the order of the table.
    The table is that of the tool [_get_tool()] returns.  The scan is
    modelled in a process whose [SCANNER_TOOL] is set: there
    [_get_tool()] returns the tool and reads and writes nothing, and the
    environment holds its table.  The first call of a process builds
    the tool: it makes the cache directory, may write the cache file and
    may raise; that call is [Signature._get_tool], and
    [suspects_found_call] below is [suspects_found] with it. *)
Definition suspects_found (s : string) : list string :=
  omap (fun '(n, r) =>
          if (r s : bool) && negb (is_allowlisted s) then Some n else None)
       (gradle_signatures e).

(** Lower case on the code points below 256, for [re.IGNORECASE]. *)
Definition lower (c : ascii) : ascii :=
  let n := nat_of_ascii c in
  if ((65 <=? n) && (n <=? 90))
     || ((192 <=? n) && (n <=? 222) && negb (n =? 215))
  then ascii_of_nat (n + 32) else c.

Fixpoint LitI (s : string) : regex :=
  match s with
  | EmptyString => Eps
  | String c s' => Set_ (fun d => Ascii.eqb (lower d) (lower c)) +> LitI s'
  end.

(** [get_gradle_compile_commands]; flavor names are taken to be free of
    pattern operators. *)
Definition get_gradle_compile_commands : list regex :=
  let compileCommands :=
    [ "compile"; "provided"; "apk"; "implementation"; "classpath"; "api";
      "compileOnly"; "runtimeOnly" ] in
  let buildTypes := [ ""; "release" ] in
  let flavors :=
    [""] ++ match build_gradle e with
            | [] => []
            | g => if decide (g = ["yes"]) then [] else g
            end in
  flat_map (fun flavor =>
    flat_map (fun buildType =>
      map (fun command =>
             Star true space +> LitI (flavor +:+ buildType +:+ command))
          compileCommands)
      buildTypes)
    flavors.

Definition is_used_by_gradle (line : string) : bool :=
  existsb (fun command => matches command line) get_gradle_compile_commands.

(** The bytes [is_binary] takes for text. *)
Definition textchar (c : ascii) : bool :=
  let n := nat_of_ascii c in
  (n =? 7) || (n =? 8) || (n =? 9) || (n =? 10) || (n =? 12) || (n =? 13)
  || (n =? 27) || ((32 <=? n) && negb (n =? 127)).

Fixpoint any_char (p : ascii -> bool) (s : string) : bool :=
  match s with
  | EmptyString => false
  | String c s' => p c || any_char p s'
  end.

Definition is_binary (path : string) : M bool := fun st =>
  match fs st !! path with
  | Some f =>
      (inr (any_char (fun c => negb (textchar c)) (substring 0 1024 (content f))),
       st)
  | None => (inl (FileNotFoundError path), st)
  end.

Definition is_executable (st : state) (path : string) : bool :=
  match fs st !! path with
  | Some f => executable f
  | None => false
  end.

Definition is_image_file (st : state) (path : string) : bool :=
  match fs st !! path with
  | Some f => image f
  | None => false
  end.

(** *** The Maven repositories of a build script *)

(** [noncomment_lines] *)
Definition noncomment_lines (lines : list string) : list string :=
  List.filter (fun line => negb (gradle_comment e line)) lines.

(** [no_comments] *)
Definition no_comments (lines : list string) : string :=
  sub_empty block_comment (join (noncomment_lines lines)).

(** [MAVEN_URL_REGEX.findall(no_comments)] *)
Definition maven_urls (lines : list string) : list string :=
  findall MAVEN_URL_REGEX (no_comments lines).

(** The findings of the loop over the extracted URLs. *)
Definition unknown_maven_repos (lines : list string) : list string :=
  map (fun url => "unknown maven repo '" +:+ url +:+ "'")
    (List.filter (fun url => negb (allowed_repo url)) (maven_urls lines)).

(** The findings of the loop over the lines of a build script. *)
Definition usual_suspects (lines : list string) : list string :=
  flat_map (fun line =>
    if is_used_by_gradle line
    then map (fun name => "usual suspect '" +:+ name +:+ "'") (suspects_found line)
    else []) lines.

(** The first line with [DexClassLoader], if any. *)
Definition has_DexClassLoader (lines : list string) : bool :=
  existsb (fun line => contains line "DexClassLoader") lines.

(** *** The walk *)

(** A directory: its file names and its subdirectories, as [os.walk]
    lists them. *)
Inductive tree : Type :=
| Dir (files : list string) (dirs : list (string * tree)).

Definition ignoredirs : list string := [".hg"; ".git"; ".svn"; ".bzr"].

(** One turn of the loop over [files]: the file name and the two paths
    computed from it. *)
Record visit : Type := Visit {
  curfile : string;
  filepath : string;
  path_in_build_dir : string;
}.

(** The files [os.walk] reaches, in its order, once the version control
    directories are taken out of [dirs]; [rel] is [root] relative to the
    build directory. *)
Fixpoint visits (t : tree) (root rel : string) : list visit :=
  match t with
  | Dir files dirs =>
      map (fun name =>
             Visit name (os_path_join root name) (os_path_join rel name)) files
      ++ flat_map (fun '(name, sub) =>
                     if in_list name ignoredirs then []
                     else visits sub (os_path_join root name)
                            (os_path_join rel name)) dirs
  end.

(** The body of [for curfile in files]; the value is what it adds to
    [count]. *)
Definition scan_file (v : visit) : M nat :=
  let curfile := curfile v in
  let filepath := filepath v in
  let path_in_build_dir := path_in_build_dir v in
  if in_list curfile [".DS_Store"] then mret 0
  else
    st ← get;
    let f := fs st !! filepath in
    if default false (islink <$> f) then mret 0
    else if in_list curfile ["gradle-wrapper.jar"; "gradlew"; "gradlew.bat"] then
      removeproblem curfile path_in_build_dir filepath;; mret 0
    else if endswith curfile ".apk" then
      removeproblem "Android APK file" path_in_build_dir filepath;; mret 0
    else if endswith curfile ".a" then
      handleproblem "static library" path_in_build_dir filepath
    else if endswith curfile ".aar" then
      handleproblem "Android AAR library" path_in_build_dir filepath
    else if endswith curfile ".class" then
      handleproblem "Java compiled class" path_in_build_dir filepath
    else if endswith curfile ".dex" then
      handleproblem "Android DEX code" path_in_build_dir filepath
    else if endswith curfile ".gz" then
      handleproblem "gzip file archive" path_in_build_dir filepath
    else if matches shared_library curfile then
      handleproblem "shared library" path_in_build_dir filepath
    else if endswith curfile ".zip" then
      handleproblem "ZIP file archive" path_in_build_dir filepath
    else if endswith curfile ".jar" then
      n ← handleproblems
            (map (fun name => "usual suspect '" +:+ name +:+ "'")
               (suspects_found curfile))
            path_in_build_dir filepath;
      m ← handleproblem "Java JAR file" path_in_build_dir filepath;
      mret (n + m)
    else if endswith curfile ".java" then
      if negb (default false (isfile <$> f)) then mret 0
      else if has_DexClassLoader (default [] (readlines <$> f)) then
        handleproblem "DexClassLoader" path_in_build_dir filepath
      else mret 0
    else if endswith curfile ".gradle" || endswith curfile ".gradle.kts" then
      if negb (default false (isfile <$> f)) then mret 0
      else
        let lines := default [] (readlines <$> f) in
        n ← handleproblems (usual_suspects lines) path_in_build_dir filepath;
        m ← handleproblems (unknown_maven_repos lines) path_in_build_dir filepath;
        mret (n + m)
    else if in_list (splitext_ext path_in_build_dir) [""; ".bin"; ".out"; ".exe"] then
      binary ← is_binary filepath;
      if binary : bool then handleproblem "binary" path_in_build_dir filepath
      else mret 0
    else if is_executable st filepath then
      binary ← is_binary filepath;
      if (binary : bool)
         && negb (safe_path path_in_build_dir || is_image_file st filepath)
      then warnproblem "executable binary, possibly code" path_in_build_dir;;
           mret 0
      else mret 0
    else mret 0.

(** The loop over the files of the walk. *)
Fixpoint scan_files (vs : list visit) : M nat :=
  match vs with
  | [] => mret 0
  | v :: rest =>
      n ← scan_file v;
      m ← scan_files rest;
      mret (n + m)
  end.

(** [for p in policy: if p not in worked: logging.error(...); count += 1] *)
Fixpoint report_unused (label : string) (keys : list string)
    (worked : gset string) : M nat :=
  match keys with
  | [] => mret 0
  | p :: rest =>
      n ← (if decide (p ∈ worked) then mret 0
           else logging ERROR (label +:+ p);; mret 1);
      m ← report_unused label rest worked;
      mret (n + m)
  end.

(** The walk of [scan_source], from fresh [scanignore_worked] and
    [scandelete_worked]. *)
Definition walk (build_dir : string) (t : tree) : M nat := fun st =>
  scan_files (visits t build_dir "")
    (State (fs st) ∅ ∅ (json_per_build st) (log st)).

Definition scan_source (build_dir : string) (t : tree) : M nat :=
  count ← walk build_dir t;
  st ← get;
  unused_ignore ← report_unused "Unused scanignore path: "
                     (scanignore e).*1 (scanignore_worked st);
  unused_delete ← report_unused "Unused scandelete path: "
                     (scandelete e).*1 (scandelete_worked st);
  mret (count + unused_ignore + unused_delete).

(** *** Facts about the problem handlers *)

(** The state after [json_per_build[...]] took an entry and the logger a
    message. *)
Definition add_log (l : level) (msg : string) (st : state) : state :=
  State (fs st) (scanignore_worked st) (scandelete_worked st)
    (json_per_build st) (log st ++ [(l, msg)]).

Definition add_info (entry : string * string) (st : state) : state :=
  State (fs st) (scanignore_worked st) (scandelete_worked st)
    (match json_per_build st with
     | Some r => Some (Report (errors r) (warnings r) (infos r ++ [entry]))
     | None => None
     end) (log st).

Definition add_warning (entry : string * string) (st : state) : state :=
  State (fs st) (scanignore_worked st) (scandelete_worked st)
    (match json_per_build st with
     | Some r => Some (Report (errors r) (warnings r ++ [entry]) (infos r))
     | None => None
     end) (log st).

Definition add_error (entry : string * string) (st : state) : state :=
  State (fs st) (scanignore_worked st) (scandelete_worked st)
    (match json_per_build st with
     | Some r => Some (Report (errors r ++ [entry]) (warnings r) (infos r))
     | None => None
     end) (log st).

Definition remove_file (filepath : string) (st : state) : state :=
  State (delete filepath (fs st)) (scanignore_worked st)
    (scandelete_worked st) (json_per_build st) (log st).

Definition mark_ignore (k : string) (st : state) : state :=
  State (fs st) ({[k]} ∪ scanignore_worked st) (scandelete_worked st)
    (json_per_build st) (log st).

Definition mark_delete (k : string) (st : state) : state :=
  State (fs st) (scanignore_worked st) ({[k]} ∪ scandelete_worked st)
    (json_per_build st) (log st).

Lemma state_eta (st : state) :
  State (fs st) (scanignore_worked st) (scandelete_worked st)
    (json_per_build st) (log st) = st.
Proof. by destruct st. Qed.

Lemma ignoreproblem_spec (what path : string) (st : state) :
  ignoreproblem what path st =
    (inr 0,
     add_info ("Ignoring " +:+ what +:+ " at " +:+ path, path)
       (add_log INFO ("Ignoring " +:+ what +:+ " at " +:+ path) st)).
Proof. reflexivity. Qed.

Lemma removeproblem_spec (what path filepath : string) (st : state) :
  removeproblem what path filepath st =
    (inr 0,
     remove_file filepath
       (add_info ("Removing " +:+ what +:+ " at " +:+ path, path)
          (add_log INFO ("Removing " +:+ what +:+ " at " +:+ path) st))).
Proof.
  unfold removeproblem, mbind, M_bind, logging, append_info,
    except_FileNotFoundError, os_remove.
  cbn [fs scanignore_worked scandelete_worked json_per_build log].
  destruct (fs st !! filepath) as [f|] eqn:Hf; [reflexivity|].
  unfold remove_file, add_info, add_log. cbn [fs].
  by rewrite (delete_id _ _ Hf).
Qed.

Lemma warnproblem_spec (what path : string) (st : state) :
  first_match (scanignore e) path = None ->
  warnproblem what path st =
    (inr 0,
     add_warning (what, path)
       (add_log WARNING ("Found " +:+ what +:+ " at " +:+ path) st)).
Proof.
  intros Hno. unfold warnproblem, mbind, M_bind, toignore. by rewrite Hno.
Qed.

(** A finding no policy covers, outside the test directories. *)
Lemma handleproblem_error (what path filepath : string) (st : state) :
  first_match (scanignore e) path = None ->
  first_match (scandelete e) path = None ->
  test_path path = false ->
  (json_output = true -> is_Some (json_per_build st)) ->
  handleproblem what path filepath st =
    (inr 1,
     (if error_logged
      then add_log ERROR ("Found " +:+ what +:+ " at " +:+ path) else id)
       ((if json_output then add_error (what, path) else id) st)).
Proof.
  intros Hi Hd Ht Hjson.
  unfold handleproblem, mbind, M_bind, toignore, todelete.
  rewrite Hi, Hd, Ht.
  destruct json_output.
  - destruct Hjson as [r Hr]; [done|].
    unfold append_error. rewrite Hr.
    destruct error_logged; unfold add_log, add_error, logging, mret, M_ret;
      cbn [fs scanignore_worked scandelete_worked json_per_build log id];
      by rewrite Hr.
  - destruct error_logged; unfold add_log, logging, mret, M_ret, id;
      cbn [fs scanignore_worked scandelete_worked json_per_build log];
      by rewrite ?state_eta.
Qed.

(** C9: [removeproblem] on a file that is not on disk returns 0 and
    raises nothing; it logs and records its info entry and leaves the
    files as they are.  So a second finding on a file the first one
    removed is handled like the first: both calls return 0 and record
    their entries, and the file stays removed. *)
Theorem removeproblem_absent_file (what what' path filepath : string)
    (st : state) :
  (fs st !! filepath = None ->
   removeproblem what path filepath st =
     (inr 0,
      add_info ("Removing " +:+ what +:+ " at " +:+ path, path)
        (add_log INFO ("Removing " +:+ what +:+ " at " +:+ path) st))) /\
  (exists st1 st2,
     removeproblem what path filepath st = (inr 0, st1) /\
     fs st1 = delete filepath (fs st) /\
     fs st1 !! filepath = None /\
     removeproblem what' path filepath st1 = (inr 0, st2) /\
     st2 = add_info ("Removing " +:+ what' +:+ " at " +:+ path, path)
             (add_log INFO ("Removing " +:+ what' +:+ " at " +:+ path) st1)).
Proof.
  split.
  - intros Hf. rewrite removeproblem_spec.
    unfold remove_file, add_info, add_log. cbn [fs].
    by rewrite (delete_id _ _ Hf).
  - eexists _, _. split; [apply removeproblem_spec|].
    split; [reflexivity|]. split; [apply lookup_delete_eq|].
    split; [apply removeproblem_spec|].
    unfold remove_file, add_info, add_log.
    cbn [fs scanignore_worked scandelete_worked json_per_build log].
    by rewrite delete_delete_eq.
Qed.

(** C2: the disposition of a finding, in the order ignore, delete, test
    path, error.  A path under a [scanignore] prefix is logged and
    recorded as info; the call returns 0 and no file is removed.  Else a
    path under a [scandelete] prefix has its file removed and an info
    recorded; the call returns 0 and neither warnings nor errors change.
    Else a path with [src/test] or [/test/] in it is a warning and the
    call returns 0.  Otherwise the call returns 1; the finding is an
    error of the report when JSON output is on. *)
Theorem handleproblem_precedence (what path filepath : string) (st : state) :
  (forall k,
     first_match (scanignore e) path = Some k ->
     handleproblem what path filepath st =
       (inr 0,
        add_info ("Ignoring " +:+ what +:+ " at " +:+ path, path)
          (add_log INFO ("Ignoring " +:+ what +:+ " at " +:+ path)
             (mark_ignore k st)))) /\
  (forall k,
     first_match (scanignore e) path = None ->
     first_match (scandelete e) path = Some k ->
     handleproblem what path filepath st =
       (inr 0,
        remove_file filepath
          (add_info ("Removing " +:+ what +:+ " at " +:+ path, path)
             (add_log INFO ("Removing " +:+ what +:+ " at " +:+ path)
                (mark_delete k st))))) /\
  (first_match (scanignore e) path = None ->
   first_match (scandelete e) path = None ->
   test_path path = true ->
   handleproblem what path filepath st =
     (inr 0,
      add_warning (what, path)
        (add_log WARNING ("Found " +:+ what +:+ " at " +:+ path) st))) /\
  (first_match (scanignore e) path = None ->
   first_match (scandelete e) path = None ->
   test_path path = false ->
   (json_output = true -> is_Some (json_per_build st)) ->
   handleproblem what path filepath st =
     (inr 1,
      (if error_logged
       then add_log ERROR ("Found " +:+ what +:+ " at " +:+ path) else id)
        ((if json_output then add_error (what, path) else id) st))).
Proof.
  split; [|split; [|split]].
  - intros k Hk. unfold handleproblem, mbind, M_bind, toignore.
    rewrite Hk. apply ignoreproblem_spec.
  - intros k Hi Hk. unfold handleproblem, mbind, M_bind, toignore, todelete.
    rewrite Hi, Hk. apply removeproblem_spec.
  - intros Hi Hd Ht. unfold handleproblem, mbind, M_bind, toignore, todelete.
    rewrite Hi, Hd, Ht. by apply warnproblem_spec.
  - apply handleproblem_error.
Qed.

(** *** Which policy entries a scan marks as used *)

(** [within I D m]: running [m] adds at most the keys [I] to
    [scanignore_worked] and at most the keys [D] to [scandelete_worked]. *)
Definition within (I D : gset string) {A} (m : M A) : Prop :=
  forall st,
    scanignore_worked (m st).2 ⊆ scanignore_worked st ∪ I /\
    scandelete_worked (m st).2 ⊆ scandelete_worked st ∪ D.

Definition hits (policy : list (string * list string)) (path : string)
    : gset string :=
  match first_match policy path with
  | Some k => {[k]}
  | None => ∅
  end.

Lemma within_ret I D {A} (x : A) : within I D (mret x : M A).
Proof. intros st. cbn. set_solver. Qed.

Lemma within_bind I D {A B} (m : M A) (f : A -> M B) :
  within I D m -> (forall x, within I D (f x)) -> within I D (m ≫= f).
Proof.
  intros Hm Hf st. unfold mbind, M_bind.
  destruct (Hm st) as [Hi Hd].
  destruct (m st) as [[ex|x] st1]; cbn [snd] in *; [done|].
  destruct (Hf x st1) as [Hi' Hd']. split; intros k Hk.
  - apply Hi', elem_of_union in Hk as [Hk|Hk];
      [by apply Hi | by apply elem_of_union_r].
  - apply Hd', elem_of_union in Hk as [Hk|Hk];
      [by apply Hd | by apply elem_of_union_r].
Qed.

Lemma within_mono I D I' D' {A} (m : M A) :
  I ⊆ I' -> D ⊆ D' -> within I D m -> within I' D' m.
Proof.
  intros HI HD Hm st. destruct (Hm st) as [Hi Hd]. split; intros k Hk.
  - apply Hi, elem_of_union in Hk as [Hk|Hk];
      [by apply elem_of_union_l | apply elem_of_union_r; by apply HI].
  - apply Hd, elem_of_union in Hk as [Hk|Hk];
      [by apply elem_of_union_l | apply elem_of_union_r; by apply HD].
Qed.

Lemma within_get I D : within I D get.
Proof. intros st. cbn. set_solver. Qed.

Lemma within_logging I D l msg : within I D (logging l msg).
Proof. intros st. cbn. set_solver. Qed.

Lemma within_append_info I D entry : within I D (append_info entry).
Proof. intros st. cbn. set_solver. Qed.

Lemma within_append_warning I D entry : within I D (append_warning entry).
Proof. intros st. cbn. set_solver. Qed.

Lemma within_append_error I D entry : within I D (append_error entry).
Proof.
  intros st. unfold append_error.
  destruct (json_per_build st); cbn; set_solver.
Qed.

Lemma within_remove I D filepath :
  within I D (except_FileNotFoundError (os_remove filepath)).
Proof.
  intros st. unfold except_FileNotFoundError, os_remove.
  destruct (fs st !! filepath); cbn; set_solver.
Qed.

Lemma within_is_binary I D path : within I D (is_binary path).
Proof.
  intros st. unfold is_binary. destruct (fs st !! path); cbn; set_solver.
Qed.

Lemma within_toignore D path :
  within (hits (scanignore e) path) D (toignore path).
Proof.
  intros st. unfold toignore, hits.
  destruct (first_match (scanignore e) path); cbn; split; intros k Hk;
    try (by apply elem_of_union_l).
  apply elem_of_union. apply elem_of_union in Hk. tauto.
Qed.

Lemma within_todelete I path :
  within I (hits (scandelete e) path) (todelete path).
Proof.
  intros st. unfold todelete, hits.
  destruct (first_match (scandelete e) path); cbn; split; intros k Hk;
    try (by apply elem_of_union_l).
  apply elem_of_union. apply elem_of_union in Hk. tauto.
Qed.

Ltac within_step :=
  lazymatch goal with
  | |- within _ _ (mret _) => apply within_ret
  | |- within _ _ (mbind _ _) => apply within_bind; [|intros ?]
  | |- within _ _ get => apply within_get
  | |- within _ _ (logging _ _) => apply within_logging
  | |- within _ _ (append_info _) => apply within_append_info
  | |- within _ _ (append_warning _) => apply within_append_warning
  | |- within _ _ (append_error _) => apply within_append_error
  | |- within _ _ (except_FileNotFoundError _) => apply within_remove
  | |- within _ _ (is_binary _) => apply within_is_binary
  | |- within _ _ (toignore _) => apply within_toignore
  | |- within _ _ (todelete _) => apply within_todelete
  | |- within _ _ (if ?b then _ else _) => destruct b
  end.

Lemma within_removeproblem I D what path filepath :
  within I D (removeproblem what path filepath).
Proof. unfold removeproblem. repeat within_step. Qed.

Lemma within_warnproblem D what path :
  within (hits (scanignore e) path) D (warnproblem what path).
Proof. unfold warnproblem. repeat within_step. Qed.

Lemma within_handleproblem what path filepath :
  within (hits (scanignore e) path) (hits (scandelete e) path)
    (handleproblem what path filepath).
Proof.
  unfold handleproblem, ignoreproblem. repeat within_step.
  - apply within_removeproblem.
  - apply within_warnproblem.
Qed.

Lemma within_handleproblems whats path filepath :
  within (hits (scanignore e) path) (hits (scandelete e) path)
    (handleproblems whats path filepath).
Proof.
  induction whats as [|what rest IH]; cbn [handleproblems].
  - apply within_ret.
  - apply within_bind; [apply within_handleproblem|intros n].
    apply within_bind; [apply IH|intros m]. apply within_ret.
Qed.

Lemma within_scan_file (v : visit) :
  within (hits (scanignore e) (path_in_build_dir v))
    (hits (scandelete e) (path_in_build_dir v)) (scan_file v).
Proof.
  unfold scan_file. cbv zeta.
  repeat first
    [ apply within_handleproblem
    | apply within_handleproblems
    | apply within_removeproblem
    | apply within_warnproblem
    | within_step ].
Qed.

(** The keys that are the first match of a visited file. *)
Definition all_hits (policy : list (string * list string)) (vs : list visit)
    : gset string :=
  foldr (fun v acc => hits policy (path_in_build_dir v) ∪ acc) ∅ vs.

Lemma elem_of_all_hits policy vs k :
  k ∈ all_hits policy vs ->
  exists v, In v vs /\ first_match policy (path_in_build_dir v) = Some k.
Proof.
  induction vs as [|v rest IH]; cbn [all_hits foldr]; [set_solver|].
  intros [Hk|Hk]%elem_of_union.
  - exists v. split; [by left|]. unfold hits in Hk.
    destruct (first_match policy (path_in_build_dir v)); set_solver.
  - destruct (IH Hk) as (w & Hw & Hkw). exists w. split; [by right|done].
Qed.

Lemma within_scan_files (vs : list visit) :
  within (all_hits (scanignore e) vs) (all_hits (scandelete e) vs)
    (scan_files vs).
Proof.
  induction vs as [|v rest IH]; cbn [scan_files all_hits foldr].
  - apply within_ret.
  - apply within_bind.
    + eapply within_mono; [| |apply within_scan_file]; set_solver.
    + intros n. apply within_bind; [|intros m; apply within_ret].
      eapply within_mono; [| |apply IH]; set_solver.
Qed.

(** A key a path map matches a file with: one of the paths the key
    expands to is a prefix of the file's path in the build directory. *)
Definition matches_file (policy : list (string * list string)) (k : string)
    (path : string) : Prop :=
  exists paths, In (k, paths) policy /\
                existsb (startswith path) paths = true.

Lemma first_match_matches policy path k :
  first_match policy path = Some k -> matches_file policy k path.
Proof.
  induction policy as [|[k' paths] rest IH]; cbn [first_match]; [done|].
  destruct (existsb (startswith path) paths) eqn:Hp.
  - intros [= ->]. exists paths. split; [by left|done].
  - intros Hk. destruct (IH Hk) as (ps & Hin & Hps).
    exists ps. split; [by right|done].
Qed.

(** The keys [report_unused] reports. *)
Definition unused (keys : list string) (worked : gset string) : list string :=
  List.filter (fun p => bool_decide (p ∉ worked)) keys.

Lemma report_unused_spec (label : string) (keys : list string)
    (worked : gset string) (st : state) :
  report_unused label keys worked st =
    (inr (length (unused keys worked)),
     State (fs st) (scanignore_worked st) (scandelete_worked st)
       (json_per_build st)
       (log st ++ map (fun p => (ERROR, label +:+ p)) (unused keys worked))).
Proof.
  revert st. induction keys as [|p rest IH]; intros st.
  - cbn. by rewrite app_nil_r, state_eta.
  - cbn [report_unused unused List.filter]. unfold mbind, M_bind.
    destruct (decide (p ∈ worked)) as [Hp|Hp].
    + rewrite bool_decide_eq_false_2 by (intros Hn; by apply Hn).
      cbn. rewrite IH. reflexivity.
    + rewrite bool_decide_eq_true_2 by done.
      cbn. rewrite IH. cbn. by rewrite <- app_assoc.
Qed.

Lemma In_unused keys worked k :
  In k (unused keys worked) <-> In k keys /\ k ∉ worked.
Proof.
  unfold unused. rewrite filter_In. split.
  - intros [Hin Hk]. split; [done|]. by apply bool_decide_eq_true_1 in Hk.
  - intros [Hin Hk]. split; [done|]. by apply bool_decide_eq_true_2.
Qed.

Lemma NoDup_unused keys worked : NoDup keys -> NoDup (unused keys worked).
Proof.
  induction 1 as [|p rest Hp _ IH]; [constructor|].
  cbn [unused List.filter]. destruct (bool_decide (p ∉ worked)); [|exact IH].
  constructor; [|exact IH].
  intros Hin. apply Hp, list_elem_of_In.
  by apply list_elem_of_In, In_unused in Hin as [Hin _].
Qed.

(** C6: when the walk has returned, [scan_source] returns: to the count
    of the walk it adds one for every [scanignore] and every [scandelete]
    key that is not marked as used, and logs one error for each.  Every
    key that matched none of the files of the walk is among them, once. *)
Theorem unused_policy_reported (build_dir : string) (t : tree) (st : state)
    (n : nat) (st_walk : state) :
  NoDup (scanignore e).*1 ->
  NoDup (scandelete e).*1 ->
  walk build_dir t st = (inr n, st_walk) ->
  let ui := unused (scanignore e).*1 (scanignore_worked st_walk) in
  let ud := unused (scandelete e).*1 (scandelete_worked st_walk) in
  scan_source build_dir t st =
    (inr (n + length ui + length ud),
     State (fs st_walk) (scanignore_worked st_walk) (scandelete_worked st_walk)
       (json_per_build st_walk)
       (log st_walk
        ++ map (fun p => (ERROR, "Unused scanignore path: " +:+ p)) ui
        ++ map (fun p => (ERROR, "Unused scandelete path: " +:+ p)) ud)) /\
  NoDup ui /\ NoDup ud /\
  (forall k,
     In k (scanignore e).*1 ->
     (forall v, In v (visits t build_dir "") ->
                ~ matches_file (scanignore e) k (path_in_build_dir v)) ->
     In k ui) /\
  (forall k,
     In k (scandelete e).*1 ->
     (forall v, In v (visits t build_dir "") ->
                ~ matches_file (scandelete e) k (path_in_build_dir v)) ->
     In k ud).
Proof.
  intros Hni Hnd Hwalk ui ud. split; [|split; [|split; [|split]]].
  - unfold scan_source, mbind, M_bind. rewrite Hwalk.
    cbn [get]. rewrite !report_unused_spec.
    cbn [fs scanignore_worked scandelete_worked json_per_build log mret M_ret].
    by rewrite <- app_assoc.
  - by apply NoDup_unused.
  - by apply NoDup_unused.
  - intros k Hk Hnone. apply In_unused. split; [done|]. intros Hw.
    unfold walk in Hwalk.
    destruct (within_scan_files (visits t build_dir "")
                (State (fs st) ∅ ∅ (json_per_build st) (log st))) as [Hi _].
    rewrite Hwalk in Hi. cbn [snd scanignore_worked] in Hi.
    apply Hi, elem_of_union in Hw as [Hw|Hw]; [by apply elem_of_empty in Hw|].
    apply elem_of_all_hits in Hw as (v & Hv & Hkv).
    by apply (Hnone v Hv), first_match_matches.
  - intros k Hk Hnone. apply In_unused. split; [done|]. intros Hw.
    unfold walk in Hwalk.
    destruct (within_scan_files (visits t build_dir "")
                (State (fs st) ∅ ∅ (json_per_build st) (log st))) as [_ Hd].
    rewrite Hwalk in Hd. cbn [snd scandelete_worked] in Hd.
    apply Hd, elem_of_union in Hw as [Hw|Hw]; [by apply elem_of_empty in Hw|].
    apply elem_of_all_hits in Hw as (v & Hv & Hkv).
    by apply (Hnone v Hv), first_match_matches.
Qed.

(** *** The Maven repositories of a build script *)






(** *** Where the pattern can match *)

(** [s] without its leading white space. *)
Fixpoint skip_space (s : string) : string :=
  match s with
  | String c s' => if is_space c then skip_space s' else s
  | EmptyString => s
  end.

(** What is left of [s] behind its prefix [p]. *)
Fixpoint after (p s : string) : option string :=
  match p with
  | EmptyString => Some s
  | String c p' =>
      match s with
      | String d s' => if Ascii.eqb c d then after p' s' else None
      | EmptyString => None
      end
  end.
























Lemma contains_tail (s p : string) (c : ascii) :
  contains (String c s) p = false -> contains s p = false.
Proof. cbn [contains]. by intros [_ ?]%orb_false_iff. Qed.

Lemma contains_suffix (a b p : string) :
  contains (a +:+ b) p = false -> contains b p = false.
Proof.
  induction a as [|c a IH]; [done|]. cbn [String.append].
  intros H. apply contains_tail in H. by apply IH.
Qed.








Lemma contains_head (s p : string) :
  contains s p = false -> startswith s p = false.
Proof. destruct s; cbn [contains]; by intros [? _]%orb_false_iff. Qed.

Lemma lazy_never {A} (s : string) (g : option string) (k : @cont A) :
  (forall a b, s = a +:+ b -> k b g = None) ->
  exec (Star false Any) s g k = None.
Proof.
  unfold Any. induction s as [|c s IH]; intros Hk; rewrite star_lazy_unfold.
  - by rewrite (Hk "" "").
  - rewrite (Hk "" (String c s)) by done. apply IH.
    intros a b ->. by apply (Hk (String c a)).
Qed.

Lemma block_comment_open (s : string) :
  contains s "*/" = false -> match_ block_comment s = None.
Proof.
  intros Hs. unfold match_, block_comment. rewrite exec_Seq_eq.
  destruct (startswith s "/*") eqn:Hopen; [|by apply exec_Lit_fail].
  apply startswith_split in Hopen as (s' & ->). rewrite run_Lit, exec_Seq_eq.
  apply lazy_never. intros a b ->. apply exec_Lit_fail, contains_head.
  apply (contains_suffix a), (contains_suffix "/*"), Hs.
Qed.

Lemma sub_block_open (s : string) :
  contains s "*/" = false -> sub_empty block_comment s = s.
Proof.
  induction s as [|c s IH]; intros Hs; [done|].
  rewrite sub_no_match by (by apply block_comment_open).
  f_equal. apply IH. by apply contains_tail in Hs.
Qed.

(** *** Every block comment, and every place of the pattern *)








Lemma skip_space_stopped (s : string) :
  stops is_space s = true -> skip_space s = s.
Proof.
  destruct s as [|c s]; [done|]. cbn [stops skip_space].
  by intros ->%negb_true_iff.
Qed.



























(** *** The allowed repositories *)

Definition allowed_prefixes : list string :=
  [ "https://repo1.maven.org/maven2";
    "https://jcenter.bintray.com";
    "https://jitpack.io";
    "https://www.jitpack.io";
    "https://repo.maven.apache.org/maven2";
    "https://oss.jfrog.org/artifactory/oss-snapshot-local";
    "https://oss.sonatype.org/content/repositories/snapshots";
    "https://oss.sonatype.org/content/repositories/releases";
    "https://oss.sonatype.org/content/groups/public";
    "https://clojars.org/repo";
    "https://repo.clojars.org";
    "https://s3.amazonaws.com/repo.commonsware.com";
    "https://plugins.gradle.org/m2";
    "https://maven.google.com";
    "file:///usr/share/maven-repo" ].

(** X18: a URL passes for an allowed repository exactly when it starts
    with one of fifteen prefixes, in the letter case they are written
    in.  The patterns are matched at the start of the URL and end in
    [/*], so what follows the prefix is not looked at: neither the end of
    the host name nor the path. *)
Theorem allowed_repo_prefixes (url : string) :
  allowed_repo url = existsb (startswith url) allowed_prefixes.
Proof.
  unfold allowed_repo, allowed_repos. cbn [map app existsb].
  rewrite !matches_Lit_run. reflexivity.
Qed.

(** *** Files the scan removes whatever the policies say *)

Definition gradle_wrapper_files : list string :=
  ["gradle-wrapper.jar"; "gradlew"; "gradlew.bat"].

(** The [what] of the message for such a file. *)
Definition removed_what (curfile : string) : string :=
  if in_list curfile gradle_wrapper_files then curfile else "Android APK file".

Lemma removed_not_DS_Store (curfile : string) :
  in_list curfile gradle_wrapper_files || endswith curfile ".apk" = true ->
  in_list curfile [".DS_Store"] = false.
Proof.
  intros Hc. cbn [in_list existsb]. rewrite orb_false_r.
  destruct (String.eqb_spec curfile ".DS_Store") as [->|]; [|done].
  by vm_compute in Hc.
Qed.

(** X19: a file named [gradle-wrapper.jar], [gradlew] or [gradlew.bat]
    and every file whose name ends in [.apk] is removed as soon as the
    walk meets it, unless it is a symbolic link.  Neither [scanignore] nor
    [scandelete] is consulted: the file is removed also under a
    [scanignore] path, no key is marked as used, and nothing is counted.
    The scan records one info entry for it. *)
Theorem wrappers_and_apks_removed (v : visit) (st : state) :
  in_list (curfile v) gradle_wrapper_files || endswith (curfile v) ".apk" = true ->
  default false (islink <$> fs st !! filepath v) = false ->
  let msg := "Removing " +:+ removed_what (curfile v) +:+ " at "
               +:+ path_in_build_dir v in
  scan_file v st =
    (inr 0,
     remove_file (filepath v)
       (add_info (msg, path_in_build_dir v) (add_log INFO msg st))) /\
  fs (scan_file v st).2 !! filepath v = None /\
  scanignore_worked (scan_file v st).2 = scanignore_worked st /\
  scandelete_worked (scan_file v st).2 = scandelete_worked st.
Proof.
  intros Hname Hlink msg.
  assert (scan_file v st =
    (inr 0,
     remove_file (filepath v)
       (add_info (msg, path_in_build_dir v) (add_log INFO msg st)))) as ->.
  { unfold scan_file. cbv zeta.
    rewrite (removed_not_DS_Store _ Hname).
    unfold mbind at 1, M_bind at 1, get at 1. rewrite Hlink.
    subst msg. unfold removed_what.
    fold gradle_wrapper_files.
    destruct (in_list (curfile v) gradle_wrapper_files).
    - unfold mbind, M_bind. by rewrite removeproblem_spec.
    - cbn [orb] in Hname. rewrite Hname.
      unfold mbind, M_bind. by rewrite removeproblem_spec. }
  cbn [snd remove_file add_info add_log fs scanignore_worked scandelete_worked].
  split; [done|]. split; [apply lookup_delete_eq|done].
Qed.

(** *** Which files a scan can remove *)

(** [removes_only may filepath m]: running [m] leaves the files as they
    are or, when [may] holds, removes [filepath]; it adds and changes
    none, also when it raises. *)
Definition removes_only (may : bool) (filepath : string) {A} (m : M A) : Prop :=
  forall st,
    fs (m st).2 = fs st \/
    (may = true /\ fs (m st).2 = delete filepath (fs st)).

Lemma removes_only_ret may filepath {A} (x : A) :
  removes_only may filepath (mret x : M A).
Proof. intros st. by left. Qed.

Lemma removes_only_bind may filepath {A B} (m : M A) (f : A -> M B) :
  removes_only may filepath m ->
  (forall x, removes_only may filepath (f x)) ->
  removes_only may filepath (m ≫= f).
Proof.
  intros Hm Hf st. unfold mbind, M_bind.
  destruct (Hm st) as [H1|[Hmay H1]];
    destruct (m st) as [[ex|x] st1]; cbn [snd] in *;
    try (by left); try (by right).
  - destruct (Hf x st1) as [H2|[Hmay H2]]; [left|right]; by rewrite H2, H1.
  - right. split; [done|].
    destruct (Hf x st1) as [H2|[_ H2]]; rewrite H2, H1; [done|].
    apply delete_delete_eq.
Qed.

Lemma removes_only_weaken may filepath {A} (m : M A) :
  removes_only false filepath m -> removes_only may filepath m.
Proof. intros Hm st. destruct (Hm st) as [H|[? _]]; [by left|done]. Qed.

Lemma removes_only_get may filepath : removes_only may filepath get.
Proof. intros st. by left. Qed.

Lemma removes_only_logging may filepath l msg :
  removes_only may filepath (logging l msg).
Proof. intros st. by left. Qed.

Lemma removes_only_append_info may filepath entry :
  removes_only may filepath (append_info entry).
Proof. intros st. by left. Qed.

Lemma removes_only_append_warning may filepath entry :
  removes_only may filepath (append_warning entry).
Proof. intros st. by left. Qed.

Lemma removes_only_append_error may filepath entry :
  removes_only may filepath (append_error entry).
Proof. intros st. unfold append_error. destruct (json_per_build st); by left. Qed.

Lemma removes_only_is_binary may filepath path :
  removes_only may filepath (is_binary path).
Proof. intros st. unfold is_binary. destruct (fs st !! path); by left. Qed.

Lemma removes_only_toignore may filepath path :
  removes_only may filepath (toignore path).
Proof.
  intros st. unfold toignore. destruct (first_match (scanignore e) path); by left.
Qed.

Lemma removes_only_removeproblem filepath what path :
  removes_only true filepath (removeproblem what path filepath).
Proof. intros st. rewrite removeproblem_spec. right. by split. Qed.

Lemma removes_only_warnproblem may filepath what path :
  removes_only may filepath (warnproblem what path).
Proof.
  unfold warnproblem.
  apply removes_only_bind; [apply removes_only_toignore|intros []].
  - apply removes_only_ret.
  - repeat (apply removes_only_bind; [|intros ?]);
      first [ apply removes_only_logging | apply removes_only_append_warning
            | apply removes_only_ret ].
Qed.

(** A finding is under a [scandelete] path. *)
Definition deletable (path_in_build_dir : string) : bool :=
  bool_decide (is_Some (first_match (scandelete e) path_in_build_dir)).

Lemma removes_only_handleproblem what path filepath :
  removes_only (deletable path) filepath (handleproblem what path filepath).
Proof.
  intros st. unfold handleproblem, mbind, M_bind, toignore, todelete, deletable.
  destruct (first_match (scanignore e) path) as [k|]; [by left|].
  destruct (first_match (scandelete e) path) as [k|].
  - right. split; [by apply bool_decide_eq_true_2|].
    by rewrite removeproblem_spec.
  - destruct (test_path path).
    + destruct (removes_only_warnproblem false filepath what path st)
        as [H|[? _]]; [by left|done].
    + left. destruct json_output.
      * unfold append_error. destruct (json_per_build st); [|done].
        by destruct error_logged.
      * by destruct error_logged.
Qed.

Lemma removes_only_handleproblems whats path filepath :
  removes_only (deletable path) filepath (handleproblems whats path filepath).
Proof.
  induction whats as [|what rest IH]; cbn [handleproblems].
  - apply removes_only_ret.
  - apply removes_only_bind; [apply removes_only_handleproblem|intros n].
    apply removes_only_bind; [apply IH|intros m]. apply removes_only_ret.
Qed.

(** What lets the scan remove a visited file: its name, or a
    [scandelete] path over it. *)
Definition removable (v : visit) : bool :=
  in_list (curfile v) gradle_wrapper_files || endswith (curfile v) ".apk"
  || deletable (path_in_build_dir v).

Lemma removes_only_scan_file (v : visit) :
  removes_only (removable v) (filepath v) (scan_file v).
Proof.
  unfold scan_file, removable. cbv zeta. fold gradle_wrapper_files.
  destruct (in_list (curfile v) [".DS_Store"]); [apply removes_only_ret|].
  apply removes_only_bind; [apply removes_only_get|intros st0].
  destruct (default false _); [apply removes_only_ret|].
  destruct (in_list (curfile v) gradle_wrapper_files).
  { apply removes_only_bind; [apply removes_only_removeproblem|intros ?].
    apply removes_only_ret. }
  destruct (endswith (curfile v) ".apk").
  { apply removes_only_bind; [apply removes_only_removeproblem|intros ?].
    apply removes_only_ret. }
  cbn [orb].
  repeat first
    [ apply removes_only_handleproblem
    | apply removes_only_handleproblems
    | apply removes_only_warnproblem
    | apply removes_only_ret
    | apply removes_only_is_binary
    | apply removes_only_bind; [|intros ?]
    | match goal with |- removes_only _ _ (if ?b then _ else _) => destruct b end ].
Qed.

(** A file is as it was, or it is gone and the walk met it under a name
    or path that allows the removal. *)
Definition kept_or_removed (vs : list visit) (before after : gmap string file)
    : Prop :=
  forall p,
    after !! p = before !! p \/
    (after !! p = None /\
     exists v, In v vs /\ filepath v = p /\ removable v = true).

Lemma kept_or_removed_scan_files (vs : list visit) (st : state) :
  kept_or_removed vs (fs st) (fs (scan_files vs st).2).
Proof.
  revert st. induction vs as [|v rest IH]; intros st p; [by left|].
  cbn [scan_files]. unfold mbind, M_bind.
  assert (fs (scan_file v st).2 !! p = fs st !! p \/
          (fs (scan_file v st).2 !! p = None /\ filepath v = p /\
           removable v = true)) as Hv.
  { destruct (removes_only_scan_file v st) as [->|[Hmay ->]]; [by left|].
    destruct (decide (filepath v = p)) as [<-|Hne].
    - right. by rewrite lookup_delete_eq.
    - left. by rewrite lookup_delete_ne. }
  destruct (scan_file v st) as [[ex|n] st1]; cbn [snd] in *.
  - destruct Hv as [Hv|(Hv & Hp & Hr)]; [by left|].
    right. split; [done|]. exists v. split; [by left|done].
  - assert (fs (scan_files rest st1).2 !! p = fs st1 !! p \/
            (fs (scan_files rest st1).2 !! p = None /\
             exists w, In w (v :: rest) /\ filepath w = p /\ removable w = true))
      as Hrest.
    { destruct (IH st1 p) as [H|(H & w & Hw & Hp & Hr)]; [by left|].
      right. split; [done|]. exists w. split; [by right|done]. }
    assert (forall st2 : state,
              fs st2 !! p = fs st1 !! p \/
              (fs st2 !! p = None /\
               exists w, In w (v :: rest) /\ filepath w = p /\
                         removable w = true) ->
              fs st2 !! p = fs st !! p \/
              (fs st2 !! p = None /\
               exists w, In w (v :: rest) /\ filepath w = p /\
                         removable w = true)) as Hstep.
    { intros st2 [->|H2]; [|by right].
      destruct Hv as [Hv|(Hv & Hp & Hr)]; [by left|].
      right. split; [done|]. exists v. split; [by left|done]. }
    destruct (scan_files rest st1) as [[ex|m] st2]; cbn [snd] in *;
      by apply Hstep.
Qed.

(** The walk and the two reports leave every file as it was, or gone
    for one of these reasons. *)
Lemma kept_or_removed_scan_source (build_dir : string) (t : tree) (st : state) :
  kept_or_removed (visits t build_dir "")
    (fs st) (fs (scan_source build_dir t st).2).
Proof.
  unfold scan_source, mbind at 1, M_bind at 1, walk.
  set (st0 := State (fs st) ∅ ∅ (json_per_build st) (log st)).
  pose proof (kept_or_removed_scan_files (visits t build_dir "") st0) as Hwalk.
  destruct (scan_files (visits t build_dir "") st0) as [[ex|n] st1];
    cbn [snd] in *; [exact Hwalk|].
  unfold mbind, M_bind, get. rewrite !report_unused_spec.
  cbn [fs scanignore_worked scandelete_worked json_per_build log snd mret M_ret].
  exact Hwalk.
Qed.

(** *** Version control directories *)

(** The tree without its [.hg], [.git], [.svn] and [.bzr] directories,
    at every level. *)
Fixpoint prune (t : tree) : tree :=
  match t with
  | Dir files dirs =>
      Dir files
        (flat_map (fun '(name, sub) =>
                     if in_list name ignoredirs then [] else [(name, prune sub)])
           dirs)
  end.

Lemma visits_prune (t : tree) : forall root rel,
  visits (prune t) root rel = visits t root rel.
Proof.
  revert t. fix IH 1. intros [files dirs] root rel.
  cbn [prune visits]. f_equal.
  induction dirs as [|[name sub] dirs IHdirs]; [done|].
  cbn [flat_map]. destruct (in_list name ignoredirs) eqn:Hname.
  - cbn [app]. exact IHdirs.
  - cbn [app flat_map]. rewrite Hname, IH, IHdirs. reflexivity.
Qed.

(** X21: the walk leaves out the directories named [.hg], [.git],
    [.svn] and [.bzr] wherever they are in the tree, so two source trees
    that are the same apart from what these directories hold get the
    same scan: the same count, report, log and removals. *)
Theorem vcs_directories_skipped (build_dir : string) (t t' : tree) (st : state) :
  prune t = prune t' ->
  scan_source build_dir t st = scan_source build_dir t' st.
Proof.
  intros Hp. unfold scan_source, walk.
  by rewrite <- (visits_prune t), <- (visits_prune t'), Hp.
Qed.

(** *** The test for binary files *)

(** X22: [is_binary] reads the first 1024 bytes of a file and no more.
    A file is taken for binary exactly when one of these bytes is not a
    text byte; what follows them does not matter, so a file that starts
    with 1024 bytes of text is not taken for binary whatever it holds
    after them. *)
Theorem is_binary_first_block (path : string) (st : state) (f : file)
    (block rest : string) :
  fs st !! path = Some f ->
  content f = block +:+ rest ->
  String.length block = 1024 ->
  is_binary path st =
    (inr (any_char (fun c => negb (textchar c)) block), st) /\
  (all_chars textchar block = true -> is_binary path st = (inr false, st)).
Proof.
  intros Hf Hc Hlen.
  assert (is_binary path st =
            (inr (any_char (fun c => negb (textchar c)) block), st)) as ->.
  { unfold is_binary. rewrite Hf, Hc, <- Hlen. by rewrite substring_prefix. }
  split; [done|]. intros Htext. do 2 f_equal.
  clear Hc Hlen. induction block as [|c block IH]; [done|].
  cbn [all_chars any_char] in *. apply andb_true_iff in Htext as [-> Htext].
  by rewrite IH.
Qed.

(** *** Lines that use a dependency *)

Definition compile_commands : list string :=
  [ "compile"; "provided"; "apk"; "implementation"; "classpath"; "api";
    "compileOnly"; "runtimeOnly" ].

(** The same text but for the case of its letters. *)
Fixpoint caseless (a b : string) : bool :=
  match a, b with
  | EmptyString, EmptyString => true
  | String c a', String d b' => Ascii.eqb (lower c) (lower d) && caseless a' b'
  | _, _ => false
  end.

Lemma run_LitI {A} (l word rest : string) (g : option string) (k : @cont A) :
  caseless word l = true ->
  exec (LitI l) (word +:+ rest) g k = k rest g.
Proof.
  revert word. induction l as [|c l IH]; intros [|d word] Hw; try done.
  cbn [caseless] in Hw. apply andb_true_iff in Hw as [Hd Hw].
  cbn [LitI String.append]. rewrite exec_Seq_eq. cbn [exec].
  rewrite Hd. by apply IH.
Qed.

(** X23: whatever flavors [build.gradle] lists, a line counts as used
    by Gradle when, after any white space, it starts with one of the
    eight compile commands in any letter case.  The patterns are matched
    at the start of the line and nothing has to follow the command. *)
Theorem compile_command_lines (ws word rest command : string) :
  In command compile_commands ->
  all_chars is_space ws = true ->
  caseless word command = true ->
  is_used_by_gradle (ws +:+ word +:+ rest) = true.
Proof.
  intros Hin Hws Hword. unfold is_used_by_gradle.
  apply existsb_exists. exists (Star true space +> LitI command). split.
  - unfold get_gradle_compile_commands. cbv zeta.
    apply in_flat_map. exists "". split; [by left|].
    apply in_flat_map. exists "". split; [by left|].
    apply in_map_iff. by exists command.
  - unfold matches, match_. rewrite exec_Seq_eq.
    destruct (star_greedy_some (A := string * option string)
                is_space ws (word +:+ rest) None
                (fun s' g' => exec (LitI command) s' g' (fun s' g => Some (s', g))))
      as [y Hy]; [done|by rewrite run_LitI|].
    unfold space. by rewrite Hy.
Qed.

(** *** The count and the JSON report *)

Definition recorded_errors (st : state) : nat :=
  match json_per_build st with
  | Some r => length (errors r)
  | None => 0
  end.

(** [silent m]: with a report in place, [m] keeps one in place and adds
    no error entry to it, whatever it returns or raises. *)
Definition silent {A} (m : M A) : Prop :=
  forall st,
    is_Some (json_per_build st) ->
    is_Some (json_per_build (m st).2) /\
    recorded_errors (m st).2 = recorded_errors st.

(** [counts m]: with a report in place, [m] keeps one in place, and the
    number it returns is the number of error entries it added. *)
Definition counts (m : M nat) : Prop :=
  forall st,
    is_Some (json_per_build st) ->
    is_Some (json_per_build (m st).2) /\
    forall n, (m st).1 = inr n ->
              recorded_errors (m st).2 = recorded_errors st + n.

Lemma silent_ret {A} (x : A) : silent (mret x : M A).
Proof. intros st Hr. by split. Qed.

Lemma silent_bind {A B} (m : M A) (f : A -> M B) :
  silent m -> (forall x, silent (f x)) -> silent (m ≫= f).
Proof.
  intros Hm Hf st Hr. unfold mbind, M_bind.
  destruct (Hm st Hr) as [Hr1 He1].
  destruct (m st) as [[ex|x] st1]; cbn [snd] in *; [done|].
  destruct (Hf x st1 Hr1) as [Hr2 He2]. split; [done|congruence].
Qed.

Lemma silent_get : silent get.
Proof. intros st Hr. by split. Qed.

Lemma silent_logging l msg : silent (logging l msg).
Proof. intros st Hr. by split. Qed.

Lemma silent_append_info entry : silent (append_info entry).
Proof.
  intros st [r Hr]. unfold append_info, recorded_errors. cbn. rewrite Hr.
  by split.
Qed.

Lemma silent_append_warning entry : silent (append_warning entry).
Proof.
  intros st [r Hr]. unfold append_warning, recorded_errors. cbn. rewrite Hr.
  by split.
Qed.

Lemma silent_is_binary path : silent (is_binary path).
Proof. intros st Hr. unfold is_binary. destruct (fs st !! path); by split. Qed.

Lemma silent_toignore path : silent (toignore path).
Proof.
  intros st Hr. unfold toignore.
  destruct (first_match (scanignore e) path); by split.
Qed.

Lemma silent_todelete path : silent (todelete path).
Proof.
  intros st Hr. unfold todelete.
  destruct (first_match (scandelete e) path); by split.
Qed.

Lemma silent_ignoreproblem what path : silent (ignoreproblem what path).
Proof.
  unfold ignoreproblem.
  repeat (apply silent_bind; [|intros ?]);
    first [apply silent_logging | apply silent_append_info | apply silent_ret].
Qed.

Lemma silent_removeproblem what path filepath :
  silent (removeproblem what path filepath).
Proof.
  intros st [r Hr]. rewrite removeproblem_spec.
  unfold recorded_errors. cbn. rewrite Hr. by split.
Qed.

Lemma silent_warnproblem what path : silent (warnproblem what path).
Proof.
  unfold warnproblem.
  apply silent_bind; [apply silent_toignore|intros []]; [apply silent_ret|].
  repeat (apply silent_bind; [|intros ?]);
    first [apply silent_logging | apply silent_append_warning | apply silent_ret].
Qed.

Lemma counts_silent (m : M nat) :
  silent m -> (forall st n, (m st).1 = inr n -> n = 0) -> counts m.
Proof.
  intros Hm H0 st Hr. destruct (Hm st Hr) as [Hr1 He]. split; [done|].
  intros n Hn. rewrite (H0 st n Hn). lia.
Qed.

Lemma counts_ret0 : counts (mret 0).
Proof. intros st Hr. split; [done|]. intros n [= <-]. cbn. lia. Qed.

Lemma counts_bind_silent {A} (m : M A) (f : A -> M nat) :
  silent m -> (forall x, counts (f x)) -> counts (m ≫= f).
Proof.
  intros Hm Hf st Hr. unfold mbind, M_bind.
  destruct (Hm st Hr) as [Hr1 He1].
  destruct (m st) as [[ex|x] st1]; cbn [fst snd] in *; [done|].
  destruct (Hf x st1 Hr1) as [Hr2 He2]. split; [done|].
  intros n Hn. rewrite (He2 n Hn). lia.
Qed.

Lemma counts_add (m1 m2 : M nat) :
  counts m1 -> counts m2 -> counts (n ← m1; m ← m2; mret (n + m)).
Proof.
  intros H1 H2 st Hr. unfold mbind, M_bind.
  destruct (H1 st Hr) as [Hr1 He1].
  destruct (m1 st) as [[ex|n1] st1]; cbn [fst snd] in *; [done|].
  destruct (H2 st1 Hr1) as [Hr2 He2].
  destruct (m2 st1) as [[ex|n2] st2]; cbn [fst snd] in *; [done|].
  split; [done|]. intros n [= <-].
  change (recorded_errors st2 = recorded_errors st + (n1 + n2)).
  rewrite (He2 n2 eq_refl), (He1 n1 eq_refl). lia.
Qed.

(** Each problem is followed by a silent step that yields nothing to
    count. *)
Lemma counts_then {A} (m : M A) : silent m -> counts (m;; mret 0).
Proof.
  intros Hm. apply counts_bind_silent; [done|]. intros _. apply counts_ret0.
Qed.

Section JsonOutput.
Hypothesis Hjson : json_output = true.

Lemma counts_handleproblem what path filepath :
  counts (handleproblem what path filepath).
Proof.
  unfold handleproblem.
  apply counts_bind_silent; [apply silent_toignore|intros []].
  { apply counts_silent; [apply silent_ignoreproblem|].
    intros st n. rewrite ignoreproblem_spec. by intros [= <-]. }
  apply counts_bind_silent; [apply silent_todelete|intros []].
  { apply counts_silent; [apply silent_removeproblem|].
    intros st n. rewrite removeproblem_spec. by intros [= <-]. }
  destruct (test_path path).
  { apply counts_silent; [apply silent_warnproblem|].
    intros st n. unfold warnproblem, mbind, M_bind, toignore.
    destruct (first_match (scanignore e) path); by intros [= <-]. }
  rewrite Hjson. intros st [r Hr]. unfold mbind, M_bind, append_error.
  rewrite Hr. unfold recorded_errors.
  destruct error_logged; cbn; rewrite ?Hr; (split; [done|]);
    intros n [= <-]; rewrite length_app; cbn; lia.
Qed.

Lemma counts_handleproblems whats path filepath :
  counts (handleproblems whats path filepath).
Proof.
  induction whats as [|what rest IH]; cbn [handleproblems].
  - apply counts_ret0.
  - apply counts_add; [apply counts_handleproblem|apply IH].
Qed.

Lemma counts_scan_file (v : visit) : counts (scan_file v).
Proof.
  unfold scan_file. cbv zeta.
  repeat first
    [ apply counts_handleproblem
    | apply counts_handleproblems
    | apply counts_ret0
    | apply counts_add
    | apply counts_then
    | apply silent_removeproblem
    | apply silent_warnproblem
    | apply counts_bind_silent;
        [first [apply silent_get | apply silent_is_binary]|intros ?]
    | match goal with |- counts (if ?b then _ else _) => destruct b end ].
Qed.

Lemma counts_scan_files (vs : list visit) : counts (scan_files vs).
Proof.
  induction vs as [|v rest IH]; cbn [scan_files].
  - apply counts_ret0.
  - apply counts_add; [apply counts_scan_file|apply IH].
Qed.

End JsonOutput.

(** X24: with JSON output on and a report in place, every problem the
    walk counts is one error entry of the report and the other way
    round.  The unused [scanignore] and [scandelete] paths are counted
    and logged but not recorded: the count [scan_source] returns exceeds
    the new error entries of the report by their number. *)
Theorem json_errors_match_count (build_dir : string) (t : tree)
    (st st' : state) (r : report) (n : nat) :
  json_output = true ->
  json_per_build st = Some r ->
  scan_source build_dir t st = (inr n, st') ->
  exists r',
    json_per_build st' = Some r' /\
    n = (length (errors r') - length (errors r))
        + length (unused (scanignore e).*1 (scanignore_worked st'))
        + length (unused (scandelete e).*1 (scandelete_worked st')) /\
    length (errors r) <= length (errors r').
Proof.
  intros Hjson Hr. unfold scan_source, mbind at 1, M_bind at 1, walk.
  set (st0 := State (fs st) ∅ ∅ (json_per_build st) (log st)).
  destruct (counts_scan_files Hjson (visits t build_dir "") st0) as [Hr1 He1].
  { exists r. exact Hr. }
  destruct (scan_files (visits t build_dir "") st0) as [[ex|c] st1];
    cbn [fst snd] in *; [done|].
  specialize (He1 c eq_refl).
  unfold mbind, M_bind, get. rewrite !report_unused_spec.
  cbn [fs scanignore_worked scandelete_worked json_per_build log mret M_ret].
  intros [= <- <-].
  cbn [fs scanignore_worked scandelete_worked json_per_build log].
  destruct Hr1 as [r' Hr']. exists r'. split; [done|].
  unfold recorded_errors in He1. subst st0.
  cbn [json_per_build] in He1. rewrite Hr, Hr' in He1. lia.
Qed.

(** *** Overlapping policy entries *)

Lemma first_match_app (l1 l2 : list (string * list string)) (path : string) :
  first_match (l1 ++ l2) path =
    match first_match l1 path with
    | Some k => Some k
    | None => first_match l2 path
    end.
Proof.
  induction l1 as [|[k paths] l1 IH]; [done|].
  cbn [app first_match]. by destruct (existsb _ paths).
Qed.

Lemma first_match_key (policy : list (string * list string)) (path k : string) :
  first_match policy path = Some k -> k ∈ policy.*1.
Proof.
  induction policy as [|[k' paths] rest IH]; [done|].
  cbn [first_match]. destruct (existsb _ paths).
  - intros [= ->]. apply elem_of_cons. by left.
  - intros Hk. apply elem_of_cons. right. by apply IH.
Qed.

(** An entry all of whose paths lie under the paths of an entry in
    front of it is never the first match. *)
Lemma first_match_shadowed (front mid back : list (string * list string))
    (k1 k2 : string) (ps1 ps2 : list string) (path : string) :
  NoDup (front ++ (k1, ps1) :: mid ++ (k2, ps2) :: back).*1 ->
  (forall p2, In p2 ps2 -> exists p1, In p1 ps1 /\ startswith p2 p1 = true) ->
  first_match (front ++ (k1, ps1) :: mid ++ (k2, ps2) :: back) path <> Some k2.
Proof.
  intros Hnd Hunder Hk.
  rewrite fmap_app, fmap_cons, fmap_app, fmap_cons in Hnd.
  apply NoDup_app in Hnd as (_ & Hfront & Hnd).
  apply NoDup_cons in Hnd as (Hk1 & Hnd).
  apply NoDup_app in Hnd as (_ & Hmid & Hnd).
  apply NoDup_cons in Hnd as (Hback & _). cbn [fst] in *.
  rewrite first_match_app in Hk.
  destruct (first_match front path) as [k|] eqn:Hf.
  { injection Hk as ->. apply first_match_key in Hf.
    apply (Hfront k2 Hf), elem_of_cons. right.
    apply elem_of_app. right. apply elem_of_cons. by left. }
  cbn [first_match] in Hk.
  destruct (existsb (startswith path) ps1) eqn:H1.
  { injection Hk as ->. apply Hk1, elem_of_app. right.
    apply elem_of_cons. by left. }
  rewrite first_match_app in Hk.
  destruct (first_match mid path) as [k|] eqn:Hm.
  { injection Hk as ->. apply first_match_key in Hm.
    apply (Hmid k2 Hm), elem_of_cons. by left. }
  cbn [first_match] in Hk.
  destruct (existsb (startswith path) ps2) eqn:H2.
  - apply existsb_exists in H2 as (p2 & Hp2 & Hs2).
    destruct (Hunder p2 Hp2) as (p1 & Hp1 & Hs1).
    assert (existsb (startswith path) ps1 = true) as Hyes.
    { apply existsb_exists. exists p1. split; [done|].
      by apply (startswith_trans path p2 p1). }
    congruence.
  - by apply first_match_key in Hk.
Qed.

(** X25: [toignore] marks the first entry that covers a path, and no
    other.  A [scanignore] entry all of whose paths lie under the paths
    of an entry in front of it is therefore never marked as used: every
    scan that returns counts it as an unused path and logs the error,
    however many findings lie under it. *)
Theorem shadowed_scanignore_unused (build_dir : string) (t : tree) (st : state)
    (front mid back : list (string * list string))
    (k1 k2 : string) (ps1 ps2 : list string) (n : nat) (st' : state) :
  scanignore e = front ++ (k1, ps1) :: mid ++ (k2, ps2) :: back ->
  NoDup (scanignore e).*1 ->
  (forall p2, In p2 ps2 -> exists p1, In p1 ps1 /\ startswith p2 p1 = true) ->
  scan_source build_dir t st = (inr n, st') ->
  (k2 ∉ scanignore_worked st') /\
  In (ERROR, "Unused scanignore path: " +:+ k2) (log st') /\
  1 <= n.
Proof.
  intros Hpolicy Hnd Hunder.
  unfold scan_source, mbind at 1, M_bind at 1, walk.
  set (st0 := State (fs st) ∅ ∅ (json_per_build st) (log st)).
  destruct (within_scan_files (visits t build_dir "") st0) as [Hi _].
  destruct (scan_files (visits t build_dir "") st0) as [[ex|c] st1];
    cbn [snd] in *; [done|].
  assert (k2 ∉ scanignore_worked st1) as Hk2.
  { intros Hw. apply Hi, elem_of_union in Hw as [Hw|Hw];
      [by apply elem_of_empty in Hw|].
    apply elem_of_all_hits in Hw as (v & _ & Hkv).
    rewrite Hpolicy in Hkv, Hnd.
    by apply (first_match_shadowed front mid back k1 k2 ps1 ps2
                (path_in_build_dir v) Hnd Hunder). }
  assert (In k2 (unused (scanignore e).*1 (scanignore_worked st1))) as Hin.
  { apply In_unused. split; [|done]. rewrite Hpolicy.
    rewrite fmap_app, fmap_cons, fmap_app, fmap_cons.
    apply in_or_app. right. right. apply in_or_app. right. by left. }
  unfold mbind, M_bind, get. rewrite !report_unused_spec.
  cbn [fs scanignore_worked scandelete_worked json_per_build log mret M_ret].
  intros [= <- <-].
  cbn [fs scanignore_worked scandelete_worked json_per_build log].
  split; [done|]. split.
  - apply in_or_app. left. apply in_or_app. right.
    by apply (in_map (fun p => (ERROR, "Unused scanignore path: " +:+ p))).
  - destruct (unused (scanignore e).*1 (scanignore_worked st1)); [done|].
    cbn [length]. lia.
Qed.

(** *** Image resources *)

Definition same_line (c : ascii) : bool := negb (Ascii.eqb c newline).

(** The paths one of the two patterns is made for: a directory whose
    name starts with [kind], and in or below it a file named [.png]. *)
Definition resource_path (kind : string) (path : string) : Prop :=
  exists dir variant file tail,
    path = dir +:+ kind +:+ variant +:+ "/" +:+ file +:+ ".png" +:+ tail /\
    all_chars same_line dir = true /\
    all_chars not_slash variant = true /\
    all_chars same_line file = true /\
    (tail = "" \/ tail = nl).

Lemma resource_pattern (kind path : string) :
  matches (Star true Dot +> Lit kind +> Star true (Set_ not_slash) +> Chr "/"
           +> Star true Dot +> Lit ".png" +> Eos) path = true <->
  resource_path kind path.
Proof.
  unfold matches, match_. split.
  - destruct (exec _ path None _) as [x|] eqn:Hx; [intros _|done].
    rewrite exec_Seq_eq in Hx.
    apply (star_greedy_inv (A := string * option string)) in Hx
      as (dir & s1 & -> & Hdir & Hx).
    rewrite exec_Seq_eq in Hx. apply exec_Lit_inv in Hx as (s2 & -> & Hx).
    rewrite exec_Seq_eq in Hx.
    apply (star_greedy_inv (A := string * option string)) in Hx
      as (variant & s3 & -> & Hvariant & Hx).
    rewrite exec_Seq_eq in Hx. apply exec_Chr_inv in Hx as (s4 & -> & Hx).
    rewrite exec_Seq_eq in Hx.
    apply (star_greedy_inv (A := string * option string)) in Hx
      as (file & s5 & -> & Hfile & Hx).
    rewrite exec_Seq_eq in Hx. apply exec_Lit_inv in Hx as (tail & -> & Hx).
    apply exec_Eos_inv in Hx as [Htail _].
    by exists dir, variant, file, tail.
  - intros (dir & variant & file & tail & -> & Hdir & Hvariant & Hfile & Htail).
    match goal with
    | |- match ?r with Some _ => true | None => false end = true =>
        assert (is_Some r) as [y ->]; [|done]
    end.
    rewrite exec_Seq_eq. apply (star_greedy_some same_line); [done|].
    rewrite exec_Seq_eq, run_Lit, exec_Seq_eq.
    apply (star_greedy_some not_slash); [done|].
    rewrite exec_Seq_eq.
    change ("/" +:+ file +:+ ".png" +:+ tail)
      with (String "/" (file +:+ ".png" +:+ tail)).
    rewrite exec_Chr_eq.
    rewrite exec_Seq_eq. apply (star_greedy_some same_line); [done|].
    rewrite exec_Seq_eq, run_Lit.
    destruct Htail as [-> | ->]; by eexists.
Qed.

(** X26: [safe_path] holds exactly of the paths that run, on one line,
    through a directory whose name starts with [drawable] or [mipmap]
    (anything but a slash may follow in the name) to a file in or below
    it whose name ends in [.png]; a final line feed may follow.  These
    are the paths on which an executable binary file is not warned
    about. *)
Theorem safe_path_resources (path : string) :
  safe_path path = true <->
  resource_path "/drawable" path \/ resource_path "/mipmap" path.
Proof.
  unfold safe_path, safe_paths. cbn [existsb]. rewrite orb_false_r.
  rewrite orb_true_iff. by rewrite !resource_pattern.
Qed.

(** *** The allow list of the usual suspects *)

Lemma suspects_found_allowlisted (s : string) :
  is_allowlisted s = true -> suspects_found s = [].
Proof.
  intros Hs. unfold suspects_found. rewrite Hs.
  induction (gradle_signatures e) as [|[n r] sigs IH]; [done|].
  cbn [omap list_omap]. rewrite andb_false_r. exact IH.
Qed.

(** X27: the allow list is tested on the whole text, not on the
    dependency in it.  A line, or the name of a JAR file, that holds one
    of the five allow-listed names anywhere gives no usual suspect,
    whatever the signatures of the scanner tool match in it: in a build
    script no line with such a name in it adds a finding. *)
Theorem allowlisted_text_silences (al before after : string)
    (lines lines' : list string) :
  In al allowlisted ->
  suspects_found (before +:+ al +:+ after) = [] /\
  usual_suspects (lines ++ (before +:+ al +:+ after) :: lines')
    = usual_suspects (lines ++ lines').
Proof.
  intros Hal.
  assert (is_allowlisted (before +:+ al +:+ after) = true) as Hallowed.
  { unfold is_allowlisted. apply existsb_exists. exists al.
    split; [done|]. apply contains_append. }
  split; [by apply suspects_found_allowlisted|].
  unfold usual_suspects. rewrite !flat_map_app. f_equal.
  cbn [flat_map]. rewrite (suspects_found_allowlisted _ Hallowed).
  by destruct (is_used_by_gradle _).
Qed.

(** *** Block comments that are not closed *)

(** X28: a block comment that is never closed comments nothing out.
    In a build script whose lines (those that are no line comments)
    hold no [*/], [re.sub] removes nothing, and the Maven URLs are taken
    from the whole text, whatever stands behind a [/*]. *)
Theorem unclosed_block_comment (lines : list string) :
  contains (join (noncomment_lines lines)) "*/" = false ->
  no_comments lines = join (noncomment_lines lines) /\
  maven_urls lines = findall MAVEN_URL_REGEX (join (noncomment_lines lines)).
Proof.
  intros Hs. unfold maven_urls, no_comments.
  by rewrite sub_block_open.
Qed.

(** *** Shared libraries *)

(** [(\..+)]: a dot and a version behind it. *)
Definition version_group : regex := Group (Chr "." +> Plus Dot).

(** The names the pattern is made for: [.so] on the first line of
    the name and behind it nothing, or a dot and at least one more
    character, up to the end of the line. *)
Definition shared_object_name (name : string) : Prop :=
  exists stem versions tail,
    name = stem +:+ ".so" +:+ versions +:+ tail /\
    all_chars same_line stem = true /\
    all_chars same_line versions = true /\
    (versions = "" \/ exists c v, versions = String "." (String c v)) /\
    (tail = "" \/ tail = nl).

Lemma versions_inv {A} (k : @cont A) (x : A) : forall n s g,
  star_loop true (exec version_group) k n s g = Some x ->
  exists versions tail g',
    s = versions +:+ tail /\ k tail g' = Some x /\
    all_chars same_line versions = true /\
    (versions = "" \/ exists c v, versions = String "." (String c v)).
Proof.
  induction n as [|n IH]; intros s g; cbn [star_loop].
  - intros Hk. exists "", s, g. split; [done|]. split; [done|]. by split; [|left].
  - match goal with
    | |- match ?b with Some _ => _ | None => _ end = _ -> _ =>
        destruct b as [y|] eqn:Hbody
    end.
    + intros [= ->]. unfold version_group in Hbody.
      rewrite exec_Group_eq, exec_Seq_eq in Hbody.
      apply exec_Chr_inv in Hbody as (s1 & -> & Hbody).
      unfold Plus in Hbody. rewrite exec_Seq_eq in Hbody.
      apply exec_Set_inv in Hbody as (c & s2 & -> & Hc & Hbody).
      apply star_greedy_inv in Hbody as (m & s3 & -> & Hm & Hbody).
      cbv beta in Hbody.
      destruct (String.length s3 <? _); [|done].
      apply IH in Hbody as (vs & tail & g' & -> & Hk & Hvs & _).
      exists (String "." (String c (m +:+ vs))), tail, g'.
      split; [cbn [String.append]; by rewrite append_assoc|].
      split; [done|]. split; [|right; by eexists _, _].
      cbn [all_chars]. rewrite all_chars_app.
      change (same_line c = true) in Hc.
      change (all_chars same_line m = true) in Hm.
      by rewrite Hc, Hm, Hvs.
    + intros Hk. exists "", s, g.
      split; [done|]. split; [done|]. by split; [|left].
Qed.

Lemma version_group_fails {A} (tail : string) (g : option string) (k : @cont A) :
  tail = "" \/ tail = nl -> exec version_group tail g k = None.
Proof. intros [-> | ->]; by vm_compute. Qed.

Lemma versions_run (versions tail : string) :
  all_chars same_line versions = true ->
  (versions = "" \/ exists c v, versions = String "." (String c v)) ->
  (tail = "" \/ tail = nl) ->
  is_Some (exec (Star true version_group +> Eos) (versions +:+ tail) None
             (fun s g => Some (s, g))).
Proof.
  intros Hvs Hshape Htail. rewrite exec_Seq_eq, exec_Star_eq.
  assert (forall n g,
            is_Some (star_loop true (exec version_group)
                       (fun s' g' => exec Eos s' g' (fun s g => Some (s, g)))
                       n tail g)) as Hend.
  { intros [|n] g; cbn [star_loop]; rewrite ?version_group_fails by done;
      destruct Htail as [-> | ->]; by eexists. }
  destruct Hshape as [->|(c & v & ->)]; [apply Hend|].
  cbn [all_chars] in Hvs.
  apply andb_true_iff in Hvs as [_ [Hc Hv]%andb_true_iff].
  change (String.length (String "." (String c v) +:+ tail))
    with (S (S (String.length (v +:+ tail)))).
  change (String "." (String c v) +:+ tail)
    with (String "." (String c (v +:+ tail))).
  rewrite star_loop_greedy_S.
  match goal with
  | |- is_Some (match ?b with Some _ => _ | None => _ end) =>
      assert (is_Some b) as [y ->]; [|by eexists]
  end.
  unfold version_group at 1. rewrite exec_Group_eq, exec_Seq_eq, exec_Chr_eq.
  unfold Plus. rewrite exec_Seq_eq. change Dot with (Set_ same_line).
  rewrite (run_Set same_line c _ _ _ _ Hc eq_refl).
  apply (star_greedy_some same_line); [done|]. cbv beta.
  replace (String.length tail <? _) with true
    by (destruct Htail as [-> | ->]; reflexivity).
  apply Hend.
Qed.

(** X29: the pattern for shared libraries, matched at the start of a
    file name, holds exactly of the names that have [.so] on their first
    line and behind it either nothing or a dot and at least one more
    character, up to the end of the line: [libfoo.so] and the versioned
    [libfoo.so.0.0.0], but neither [libfoo.so.] nor [libfoo.solid]. *)
Theorem shared_library_names (name : string) :
  matches shared_library name = true <-> shared_object_name name.
Proof.
  unfold matches, match_, shared_library. fold version_group. split.
  - destruct (exec _ name None _) as [x|] eqn:Hx; [intros _|done].
    rewrite exec_Seq_eq in Hx.
    apply (star_greedy_inv (A := string * option string)) in Hx
      as (stem & s1 & -> & Hstem & Hx).
    rewrite exec_Seq_eq in Hx. apply exec_Lit_inv in Hx as (s2 & -> & Hx).
    rewrite exec_Seq_eq, exec_Star_eq in Hx.
    apply versions_inv in Hx as (versions & tail & g' & -> & Hx & Hvs & Hshape).
    apply exec_Eos_inv in Hx as [Htail _].
    by exists stem, versions, tail.
  - intros (stem & versions & tail & -> & Hstem & Hvs & Hshape & Htail).
    match goal with
    | |- match ?r with Some _ => true | None => false end = true =>
        assert (is_Some r) as [y ->]; [|done]
    end.
    rewrite exec_Seq_eq. apply (star_greedy_some same_line); [done|].
    rewrite exec_Seq_eq, run_Lit. by apply versions_run.
Qed.

(** *** Findings without a report *)

(** X30: [ignoreproblem], [removeproblem] and [warnproblem] test
    [json_per_build] for [None] before they record their entry;
    [handleproblem] does not.  With JSON output on and [json_per_build]
    set to [None], a finding that no policy and no test path covers is
    not counted: subscripting [None] raises [TypeError] before anything
    is logged, and so does every list of findings that starts with it,
    while findings under a policy or a test path are handled as ever. *)
Theorem handleproblem_without_report (what path filepath : string)
    (rest : list string) (st : state) :
  json_output = true ->
  json_per_build st = None ->
  (first_match (scanignore e) path = None ->
   first_match (scandelete e) path = None ->
   test_path path = false ->
   handleproblem what path filepath st = (inl TypeError, st) /\
   handleproblems (what :: rest) path filepath st = (inl TypeError, st)) /\
  (forall k,
     first_match (scanignore e) path = Some k ->
     handleproblem what path filepath st =
       (inr 0,
        add_log INFO ("Ignoring " +:+ what +:+ " at " +:+ path)
          (mark_ignore k st))) /\
  (first_match (scanignore e) path = None ->
   first_match (scandelete e) path = None ->
   test_path path = true ->
   handleproblem what path filepath st =
     (inr 0, add_log WARNING ("Found " +:+ what +:+ " at " +:+ path) st)).
Proof.
  intros Hjson Hnone. split; [|split].
  - intros Hi Hd Ht.
    assert (handleproblem what path filepath st = (inl TypeError, st)) as Hone.
    { unfold handleproblem, mbind, M_bind, toignore, todelete.
      rewrite Hi, Hd, Ht, Hjson. unfold append_error. by rewrite Hnone. }
    split; [done|]. cbn [handleproblems]. unfold mbind, M_bind. by rewrite Hone.
  - intros k Hk. unfold handleproblem, mbind, M_bind, toignore.
    rewrite Hk, ignoreproblem_spec. unfold add_info, add_log, mark_ignore.
    cbn [fs scanignore_worked scandelete_worked json_per_build log].
    by rewrite Hnone.
  - intros Hi Hd Ht. unfold handleproblem, mbind, M_bind, toignore, todelete.
    rewrite Hi, Hd, Ht, warnproblem_spec by done.
    unfold add_warning, add_log.
    cbn [fs scanignore_worked scandelete_worked json_per_build log].
    by rewrite Hnone.
Qed.

End Scan.

(** *** The scan and the scanner tool *)

Section ToolBuilt.
(** A compiled pattern, [re.compile(pattern, re.IGNORECASE)], and
    [r.match(s)] as a truth value. *)
Variable pattern : Type.
Variable re_compile : string -> option pattern.
Variable re_match : pattern -> string -> bool.

(** The items of [regex['gradle_signatures']] of a tool, each with the
    [match] of its pattern, in the order [map_to_list] lists the table
    (the table of [Signature.regexes] keeps no order of its own). *)
Definition tool_signatures (t : Signature.tool pattern)
    : list (string * (string -> bool)) :=
  (fun item => (item.1, re_match item.2))
    <$> map_to_list (Signature.gradle_signatures pattern
                       (Signature.regex pattern t)).

(** The environment of a scan in a process whose [SCANNER_TOOL] is [t]. *)
Definition with_tool (e : env) (t : Signature.tool pattern) : env :=
  Env (options e) (scanignore e) (scandelete e) (tool_signatures t)
      (gradle_comment e) (build_gradle e).

(** [suspects_found(s)] as the call it is: [_get_tool()] on the world
    and the [SCANNER_TOOL] of the process, which builds the tool where
    there is none and may raise, then the loop over the items of its
    table. *)
Definition suspects_found_call (s : string)
    (process : Signature.world * option (Signature.tool pattern))
    : (Signature.failure + list string)
      * (Signature.world * option (Signature.tool pattern)) :=
  match Signature._get_tool pattern re_compile process with
  | (inr t, process') =>
      (inr (omap (fun item =>
                    if re_match item.2 s && negb (is_allowlisted s)
                    then Some item.1 else None)
              (map_to_list (Signature.gradle_signatures pattern
                              (Signature.regex pattern t)))),
       process')
  | (inl f, process') => (inl f, process')
  end.

Lemma suspects_found_with_tool (e : env) (t : Signature.tool pattern)
    (s : string) :
  suspects_found (with_tool e t) s
  = omap (fun item =>
            if re_match item.2 s && negb (is_allowlisted s)
            then Some item.1 else None)
      (map_to_list (Signature.gradle_signatures pattern
                      (Signature.regex pattern t))).
Proof.
  unfold suspects_found, with_tool, tool_signatures.
  cbn [gradle_signatures].
  induction (map_to_list _) as [|[n r] items IH]; [done|].
  cbn [fmap list_fmap omap list_omap fst snd] in *.
  by destruct (re_match r s && negb (is_allowlisted s)); rewrite IH.
Qed.

(** X20: in a process whose scanner tool is built, every call of
    [suspects_found] gets the tool from [_get_tool()] with nothing read
    or written, neither on disk nor in [SCANNER_TOOL], and yields the
    names the scan works with; and the scan creates no file and changes
    none: the only files it removes are files the walk visits that are
    named like a Gradle wrapper, end in [.apk] or lie under a
    [scandelete] path.  Every other file is on disk after the scan as it
    was before, also when the scan raises. *)
Theorem scan_source_removes_only (e : env) (t : Signature.tool pattern)
    (w : Signature.world) (build_dir : string) (tr : tree) (st : state) :
  (forall s,
     suspects_found_call s (w, Some t)
       = (inr (suspects_found (with_tool e t) s), (w, Some t))) /\
  kept_or_removed (with_tool e t) (visits tr build_dir "")
    (fs st) (fs (scan_source (with_tool e t) build_dir tr st).2).
Proof.
  split; [|apply kept_or_removed_scan_source].
  intros s. unfold suspects_found_call, Signature._get_tool. cbn [snd].
  by rewrite suspects_found_with_tool.
Qed.

End ToolBuilt.

(** *** A build directory *)

(** A line comment: blanks, then two slashes. *)
Definition line_comment (line : string) : bool :=
  matches (Star true (Chr " ") +> Lit "//") line.

(** An application with JSON output on, one [scanignore] entry that
    covers a file, one that covers none, and a [scandelete] entry. *)
Definition example_env : env :=
  Env (Some (Options false (Some true)))
      [ ("libs/a.jar", ["libs/a.jar"]); ("stale", ["stale"]) ]
      [ ("app/build.gradle", ["app/build.gradle"]) ]
      [ ("firebase", fun s => contains s "com.google.firebase") ]
      line_comment [].

Definition text_file (lines : list string) : file :=
  File false true lines (join lines) false false.

Definition example_script : list string :=
  [ "repositories {" +:+ nl;
    "  maven { url 'https://maven.fabric.io/public' }" +:+ nl;
    "  // maven { url 'https://commented.example/line' }" +:+ nl;
    "  /* maven { url 'https://commented.example/block' }" +:+ nl;
    "  */ maven { url = uri(" +:+ dq +:+ "https://jitpack.io" +:+ dq +:+ ") }" +:+ nl;
    "  implementation 'com.google.firebase:firebase-core:1.0'" +:+ nl;
    "}" +:+ nl ].

Definition example_tree : tree :=
  Dir ["gradlew"; "build.gradle"]
      [ (".git", Dir ["pack.zip"] []);
        ("libs", Dir ["a.jar"; "b.jar"] []);
        ("app", Dir ["build.gradle"]
                  [("src", Dir [] [("test", Dir ["Mock.class"] [])])]) ].

Definition example_state : state :=
  State (list_to_map
           [ ("build/gradlew", text_file []);
             ("build/build.gradle", text_file example_script);
             ("build/libs/a.jar", text_file []);
             ("build/libs/b.jar", text_file []);
             ("build/app/build.gradle", text_file example_script);
             ("build/app/src/test/Mock.class", text_file []) ])
        ∅ ∅ (Some DEFAULT_JSON_PER_BUILD) [].

Lemma pair_eta {A B} (p : A * B) (a : A) : p.1 = a -> p = (a, p.2).
Proof. destruct p. by intros <-. Qed.

(** The scan of the example: the script at the top gives two errors,
    [b.jar] one, and the unused [stale] entry one. *)
Example example_scan_count :
  (scan_source example_env "build" example_tree example_state).1 = inr 4.
Proof. by vm_compute. Qed.

Example example_walk_count :
  (walk example_env "build" example_tree example_state).1 = inr 3.
Proof. by vm_compute. Qed.

Example example_scan_urls :
  maven_urls example_env example_script
    = ["https://maven.fabric.io/public"; "https://jitpack.io"].
Proof. by vm_compute. Qed.

Lemma removeproblem_absent_file_witness :
  removeproblem "gradlew" "gradlew" "build/gradlew"
    (State ∅ ∅ ∅ (Some DEFAULT_JSON_PER_BUILD) [])
  = (inr 0,
     add_info ("Removing gradlew at gradlew", "gradlew")
       (add_log INFO "Removing gradlew at gradlew"
          (State ∅ ∅ ∅ (Some DEFAULT_JSON_PER_BUILD) []))).
Proof.
  apply (proj1 (removeproblem_absent_file "gradlew" "gradlew" "gradlew"
                  "build/gradlew" (State ∅ ∅ ∅ (Some DEFAULT_JSON_PER_BUILD) []))).
  apply lookup_empty.
Defined.

Lemma handleproblem_precedence_witness :
  handleproblem example_env "Java JAR file" "libs/a.jar" "build/libs/a.jar"
    example_state
  = (inr 0,
     add_info ("Ignoring Java JAR file at libs/a.jar", "libs/a.jar")
       (add_log INFO "Ignoring Java JAR file at libs/a.jar"
          (mark_ignore "libs/a.jar" example_state))).
Proof.
  apply (proj1 (handleproblem_precedence example_env "Java JAR file"
                  "libs/a.jar" "build/libs/a.jar" example_state)
           "libs/a.jar").
  reflexivity.
Defined.

Lemma example_keys_NoDup :
  NoDup (scanignore example_env).*1 /\ NoDup (scandelete example_env).*1.
Proof.
  split; apply (bool_decide_unpack _); by vm_compute.
Qed.

Lemma unused_policy_reported_witness :
  let st_walk := (walk example_env "build" example_tree example_state).2 in
  let ui := unused (scanignore example_env).*1 (scanignore_worked st_walk) in
  let ud := unused (scandelete example_env).*1 (scandelete_worked st_walk) in
  scan_source example_env "build" example_tree example_state =
    (inr (3 + length ui + length ud),
     State (fs st_walk) (scanignore_worked st_walk) (scandelete_worked st_walk)
       (json_per_build st_walk)
       (log st_walk
        ++ map (fun p => (ERROR, "Unused scanignore path: " +:+ p)) ui
        ++ map (fun p => (ERROR, "Unused scandelete path: " +:+ p)) ud)) /\
  NoDup ui /\ NoDup ud /\
  (forall k,
     In k (scanignore example_env).*1 ->
     (forall v, In v (visits example_tree "build" "") ->
                ~ matches_file (scanignore example_env) k (path_in_build_dir v)) ->
     In k ui) /\
  (forall k,
     In k (scandelete example_env).*1 ->
     (forall v, In v (visits example_tree "build" "") ->
                ~ matches_file (scandelete example_env) k (path_in_build_dir v)) ->
     In k ud).
Proof.
  apply (unused_policy_reported example_env "build" example_tree example_state).
  - exact (proj1 example_keys_NoDup).
  - exact (proj2 example_keys_NoDup).
  - apply pair_eta. exact example_walk_count.
Defined.





(** A build whose [scanignore] names the Gradle wrapper script. *)
Definition guarded_wrapper_env : env :=
  Env (Some (Options false (Some true)))
      [ ("gradlew", ["gradlew"]) ] [] [] line_comment [].

Lemma wrappers_and_apks_removed_witness :
  let v := Visit "gradlew" "build/gradlew" "gradlew" in
  let msg := "Removing " +:+ removed_what "gradlew" +:+ " at " +:+ "gradlew" in
  scan_file guarded_wrapper_env v example_state =
    (inr 0,
     remove_file "build/gradlew"
       (add_info (msg, "gradlew") (add_log INFO msg example_state))) /\
  fs (scan_file guarded_wrapper_env v example_state).2 !! "build/gradlew" = None /\
  scanignore_worked (scan_file guarded_wrapper_env v example_state).2
    = scanignore_worked example_state /\
  scandelete_worked (scan_file guarded_wrapper_env v example_state).2
    = scandelete_worked example_state.
Proof.
  apply (wrappers_and_apks_removed guarded_wrapper_env
           (Visit "gradlew" "build/gradlew" "gradlew") example_state).
  - reflexivity.
  - by vm_compute.
Defined.

(** The tree of the example with another repository in [.git] and a
    [.svn] directory next to the sources. *)
Definition example_tree_other_vcs : tree :=
  Dir ["gradlew"; "build.gradle"]
      [ (".git", Dir ["index"; "objects.zip"; "hook.apk"] []);
        ("libs", Dir ["a.jar"; "b.jar"] []);
        ("app", Dir ["build.gradle"]
                  [("src", Dir [] [("test", Dir ["Mock.class"] []);
                                   (".svn", Dir ["entries.jar"] [])])]) ].

Lemma vcs_directories_skipped_witness :
  scan_source example_env "build" example_tree example_state
  = scan_source example_env "build" example_tree_other_vcs example_state.
Proof.
  apply (vcs_directories_skipped example_env "build" example_tree
           example_tree_other_vcs example_state).
  reflexivity.
Defined.

(** A file of 1024 blanks and machine code after them. *)
Fixpoint blanks (n : nat) : string :=
  match n with
  | O => ""
  | S n' => String " " (blanks n')
  end.

Definition padded_binary : state :=
  State {[ "build/blob" :=
             File false true [] (blanks 1024 +:+ String "000" "ELF") false false ]}
        ∅ ∅ (Some DEFAULT_JSON_PER_BUILD) [].

Lemma is_binary_first_block_witness :
  is_binary "build/blob" padded_binary = (inr false, padded_binary).
Proof.
  apply (proj2 (is_binary_first_block "build/blob" padded_binary
                  (File false true [] (blanks 1024 +:+ String "000" "ELF")
                     false false)
                  (blanks 1024) (String "000" "ELF")
                  (lookup_singleton_eq _ _) eq_refl
                  ltac:(by vm_compute))).
  by vm_compute.
Defined.

Lemma compile_command_lines_witness :
  is_used_by_gradle example_env ("    " +:+ "Compile" +:+ "SdkVersion 30") = true.
Proof.
  apply (compile_command_lines example_env "    " "Compile" "SdkVersion 30"
           "compile").
  - by left.
  - reflexivity.
  - reflexivity.
Defined.

Lemma json_errors_match_count_witness :
  let st' := (scan_source example_env "build" example_tree example_state).2 in
  exists r',
    json_per_build st' = Some r' /\
    4 = (length (errors r') - length (errors DEFAULT_JSON_PER_BUILD))
        + length (unused (scanignore example_env).*1 (scanignore_worked st'))
        + length (unused (scandelete example_env).*1 (scandelete_worked st')) /\
    length (errors DEFAULT_JSON_PER_BUILD) <= length (errors r').
Proof.
  cbv zeta.
  apply (json_errors_match_count example_env "build" example_tree example_state).
  - reflexivity.
  - reflexivity.
  - apply pair_eta. exact example_scan_count.
Defined.

(** A [scanignore] with a directory and, after it, a file in that
    directory. *)
Definition overlapping_env : env :=
  Env (Some (Options false (Some true)))
      [ ("libs", ["libs"]); ("libs/a.jar", ["libs/a.jar"]) ] [] [] line_comment [].

Lemma overlapping_keys_NoDup : NoDup (scanignore overlapping_env).*1.
Proof. apply (bool_decide_unpack _). by vm_compute. Qed.

Lemma overlapping_scan_count :
  (scan_source overlapping_env "build" example_tree example_state).1 = inr 3.
Proof. by vm_compute. Qed.

Lemma shadowed_scanignore_unused_witness :
  let st' := (scan_source overlapping_env "build" example_tree example_state).2 in
  ("libs/a.jar" ∉ scanignore_worked st') /\
  In (ERROR, "Unused scanignore path: " +:+ "libs/a.jar") (log st') /\
  1 <= 3.
Proof.
  cbv zeta.
  apply (shadowed_scanignore_unused overlapping_env "build" example_tree
           example_state [] [] [] "libs" "libs/a.jar" ["libs"] ["libs/a.jar"]).
  - reflexivity.
  - exact overlapping_keys_NoDup.
  - intros p2 [<-|[]]. exists "libs". split; [by left|reflexivity].
  - apply pair_eta. exact overlapping_scan_count.
Defined.

Lemma allowlisted_text_silences_witness :
  suspects_found example_env
    ("  implementation 'com.google.firebase:firebase-core:1.0' // not "
     +:+ "com.firebaseui" +:+ nl) = [] /\
  usual_suspects example_env
    ([] ++ ("  implementation 'com.google.firebase:firebase-core:1.0' // not "
            +:+ "com.firebaseui" +:+ nl) :: [])
    = usual_suspects example_env ([] ++ []).
Proof.
  apply (allowlisted_text_silences example_env "com.firebaseui"
           "  implementation 'com.google.firebase:firebase-core:1.0' // not "
           nl [] []).
  right. by left.
Defined.

(** A script whose block comment is never closed. *)
Definition unclosed_script : list string :=
  [ "repositories {" +:+ nl;
    "  /* maven { url 'https://hidden.example/repo' }" +:+ nl;
    "}" +:+ nl ].

Lemma unclosed_block_comment_witness :
  no_comments example_env unclosed_script
    = join (noncomment_lines example_env unclosed_script) /\
  maven_urls example_env unclosed_script
    = findall MAVEN_URL_REGEX (join (noncomment_lines example_env unclosed_script)).
Proof.
  apply (unclosed_block_comment example_env unclosed_script).
  by vm_compute.
Defined.

Example unclosed_script_urls :
  maven_urls example_env unclosed_script = ["https://hidden.example/repo"].
Proof. by vm_compute. Qed.

Lemma handleproblem_without_report_witness :
  handleproblem example_env "Java JAR file" "libs/b.jar" "build/libs/b.jar"
    (State ∅ ∅ ∅ None [])
  = (inl TypeError, State ∅ ∅ ∅ None []).
Proof.
  apply (proj1 (handleproblem_without_report example_env "Java JAR file"
                  "libs/b.jar" "build/libs/b.jar" [] (State ∅ ∅ ∅ None [])
                  eq_refl eq_refl)).
  - by vm_compute.
  - by vm_compute.
  - by vm_compute.
Defined.

End Source.
